(** * Adaptive playback and telemetry engine of the video player

    A shallow embedding of the player component ([VideoPlayer]): the
    resource-timing classifier, the per-source telemetry session with its
    dispatch triggers, the handlers of the media element's and of the
    streaming runtime's events, and the manual quality switch.

    Conventions of the embedding.
    - A finite JavaScript [number] is the rational ([Q]) that the double
      stands for. The quotients, products, sums and differences of the
      classifier, the payload, the bandwidth estimate, the buffered
      range and the progress and time displays are rounded as doubles
      are ([Double.nearest]: to nearest, ties to even, on 53 bits); the
      volume, a slider value over 100, is kept as that quotient.
      [Math.round x] is [Qfloor (x + 1/2)]. Where a number can be
      infinite or [NaN] (the element's duration) it is a [number].
    - Clock readings are values of [now ()] and byte counts of a
      resource-timing entry are [unsigned long long] in the platform
      interface ([N], below 2^64); neither comes near the largest
      double. Level indices and heights are integers ([Z]).
    - A string is the list of its code units, each below 256.
    - [undefined] and [null] are [None]; a truthiness test on an optional
      number or string is written out ([falsy_number], [truthy]).
    - What a handler reads from outside (the value of [now ()], the
      payload of a runtime event) is carried by the signal that runs it;
      the element and the runtime instance are part of the state, and
      signals of their own say when the browser or the runtime changed
      them.
    - The React refs and the [useState] cells are one record, threaded
      through the handlers; a state setter is an assignment to its cell.
      What a handler hands out (a beacon, an API call, a command to the
      element or the runtime) is returned as a list of outputs. *)

From Stdlib Require Import ZArith NArith QArith Qround Qminmax Qabs Qpower Lia Lqa Bool.
From Stdlib Require Import Ascii String Sorted.
From stdpp Require Import base option list strings pretty gmap.

Local Open Scope string_scope.
Local Open Scope Z_scope.

(** ** Strings as the source uses them *)

Module Str.

(** [hay.includes(needle)] *)
Fixpoint includes (needle hay : string) : bool :=
  String.prefix needle hay ||
  match hay with
  | EmptyString => false
  | String _ rest => includes needle rest
  end.

(** [a.startsWith(b)] *)
Definition startsWith (a b : string) : bool := String.prefix b a.

(** The lower-case form of a code unit below 256: the letters A to Z
    and the capital letters of Latin-1 (192 to 222, but for 215, the
    multiplication sign) move up by 32. *)
Definition lower (c : ascii) : ascii :=
  let n := nat_of_ascii c in
  if ((65 <=? n)%nat && (n <=? 90)%nat
      || (192 <=? n)%nat && (n <=? 222)%nat && negb (n =? 215)%nat)%bool
  then ascii_of_nat (n + 32) else c.

(** [s.toLowerCase()]; a string is a list of code units below 256. *)
Fixpoint toLowerCase (s : string) : string :=
  match s with
  | EmptyString => EmptyString
  | String c rest => String (lower c) (toLowerCase rest)
  end.

(** [s.split(sep)[0]] for a one-character separator. *)
Fixpoint before (sep : ascii) (s : string) : string :=
  match s with
  | EmptyString => EmptyString
  | String c rest => if Ascii.eqb c sep then EmptyString else String c (before sep rest)
  end.

(** [s.replace(c, empty)] with a one-character pattern [c] and the empty
    replacement: only the first occurrence goes. *)
Fixpoint removeFirst (c : ascii) (s : string) : string :=
  match s with
  | EmptyString => EmptyString
  | String d rest => if Ascii.eqb d c then rest else String d (removeFirst c rest)
  end.

(** White space and line terminators among the code units below 256:
    tab to carriage return, the space and the no-break space. *)
Definition isWhite (c : ascii) : bool :=
  let n := nat_of_ascii c in
  ((9 <=? n)%nat && (n <=? 13)%nat || (n =? 32)%nat || (n =? 160)%nat)%bool.

Fixpoint skipWhite (s : string) : string :=
  match s with
  | String c rest => if isWhite c then skipWhite rest else s
  | EmptyString => EmptyString
  end.

(** Value of a digit in the given radix (10 or 16), if it is one. *)
Definition digit (radix : Z) (c : ascii) : option Z :=
  let n := Z.of_nat (nat_of_ascii c) in
  let v := if (48 <=? n) && (n <=? 57) then Some (n - 48)
           else if (97 <=? n) && (n <=? 102) then Some (n - 87)
           else if (65 <=? n) && (n <=? 70) then Some (n - 55)
           else None in
  match v with
  | Some d => if d <? radix then Some d else None
  | None => None
  end.

(** Longest prefix of digits, most significant first; [acc] is [None]
    until a digit has been read. *)
Fixpoint digits (radix : Z) (acc : option Z) (s : string) : option Z :=
  match s with
  | EmptyString => acc
  | String c rest =>
      match digit radix c with
      | Some d => digits radix (Some (default 0 acc * radix + d)) rest
      | None => acc
      end
  end.

Definition stripHex (s : string) : option string :=
  match s with
  | String "0" (String "x" rest) => Some rest
  | String "0" (String "X" rest) => Some rest
  | _ => None
  end.

(** [parseInt(s)] when [hexPrefix] (no radix given) and
    [Number.parseInt(s, 10)] otherwise; [None] is [NaN]. The result is
    exact, as the source's is below 2^53. *)
Definition parseInt (hexPrefix : bool) (s : string) : option Z :=
  let s := skipWhite s in
  let '(neg, s) :=
    match s with
    | String "-" rest => (true, rest)
    | String "+" rest => (false, rest)
    | _ => (false, s)
    end in
  let '(radix, s) :=
    match (if hexPrefix then stripHex s else None) with
    | Some rest => (16, rest)
    | None => (10, s)
    end in
  match digits radix None s with
  | Some v => Some (if neg then - v else v)
  | None => None
  end.

End Str.

(** ** Numbers *)

(** A JavaScript number: a finite double, given by its value, or one of
    the three that are not finite. *)
Inductive number := num (q : Q) | Infinity | NegInfinity | NaN.

Module Double.

(** 2^e for an integer exponent. *)
Definition pow2 (e : Z) : Q := (2 ^ e)%Q.

(** The binade of a positive rational: the [e] with 2^e <= x < 2^(e+1). *)
Definition binade (x : Q) : Z :=
  let e := Z.log2 (Qnum x) - Z.log2 (Z.pos (Qden x)) in
  if Qle_bool (pow2 e) x then e else e - 1.

(** The nearest integer, a tie going to the even one. *)
Definition nearestEven (x : Q) : Z :=
  let f := Qfloor x in
  match (x - inject_Z f ?= 1 # 2)%Q with
  | Lt => f
  | Gt => f + 1
  | Eq => if Z.even f then f else f + 1
  end.

(** The distance between neighbouring doubles at a positive [x]: 53
    significant bits, and the fixed spacing of the subnormal range below
    2^-1022. *)
Definition ulp (x : Q) : Q := pow2 (Z.max (binade x) (-1022) - 52).

Definition nearestPositive (x : Q) : Q :=
  (inject_Z (nearestEven (x / ulp x)) * ulp x)%Q.

(** The double nearest to [x], ties to even, as long as the result is
    finite. *)
Definition nearest (x : Q) : Q :=
  match (x ?= 0)%Q with
  | Eq => 0
  | Gt => nearestPositive x
  | Lt => - nearestPositive (- x)
  end%Q.

(** [x] is the value of a finite double. *)
Definition isDouble (x : Q) : bool :=
  Qeq_bool (nearest x) x && negb (Qle_bool (pow2 1024) (Qabs x)).

(** The result of an operation whose exact value is [x]: the nearest
    double, or an infinity when that lies beyond the largest one. *)
Definition round (x : Q) : number :=
  let r := nearest x in
  if Qle_bool (pow2 1024) r then Infinity
  else if Qle_bool r (- pow2 1024) then NegInfinity
  else num r.

(** [a * b] *)
Definition mul (a b : number) : number :=
  match a, b with
  | NaN, _ | _, NaN => NaN
  | num x, num y => round (x * y)
  | num x, Infinity | Infinity, num x =>
      match (x ?= 0)%Q with Eq => NaN | Gt => Infinity | Lt => NegInfinity end
  | num x, NegInfinity | NegInfinity, num x =>
      match (x ?= 0)%Q with Eq => NaN | Gt => NegInfinity | Lt => Infinity end
  | Infinity, Infinity | NegInfinity, NegInfinity => Infinity
  | Infinity, NegInfinity | NegInfinity, Infinity => NegInfinity
  end.

(** [Math.min(a, b)] and [Math.max(a, b)] *)
Definition min (a b : number) : number :=
  match a, b with
  | NaN, _ | _, NaN => NaN
  | NegInfinity, _ | _, NegInfinity => NegInfinity
  | Infinity, other | other, Infinity => other
  | num x, num y => num (Qmin x y)
  end.

Definition max (a b : number) : number :=
  match a, b with
  | NaN, _ | _, NaN => NaN
  | Infinity, _ | _, Infinity => Infinity
  | NegInfinity, other | other, NegInfinity => other
  | num x, num y => num (Qmax x y)
  end.

(** The decimal with the fewest significant digits that reads back as
    the double [z], a positive integer above 2^53; of two of that length
    the closer one. [k] is the number of significant digits tried. *)
Fixpoint shortestDecimal (fuel : nat) (k : Z) (z : Z) : Z :=
  match fuel with
  | O => z
  | S fuel =>
      let n := Z.of_nat (String.length (pretty z)) in
      if n <=? k then z
      else
        let scale := 10 ^ (n - k) in
        let low := z / scale * scale in
        let high := low + scale in
        let reads v := Qeq_bool (nearest (inject_Z v)) (inject_Z z) in
        match reads low, reads high with
        | true, true => if z - low <=? high - z then low else high
        | true, false => low
        | false, true => high
        | false, false => shortestDecimal fuel (k + 1) z
        end
  end.

Fixpoint dropZeros (s : string) : string :=
  match s with
  | String "0" rest => dropZeros rest
  | _ => s
  end.

(** Exponent notation of a positive integer: its significant digits,
    a point after the first, and the decimal exponent. *)
Definition exponential (v : Z) : string :=
  let digits := pretty v in
  let exponent := pretty (Z.of_nat (String.length digits) - 1) in
  match String.rev (dropZeros (String.rev digits)) with
  | String d EmptyString => String d ("e+" +:+ exponent)
  | String d rest => String d ("." +:+ rest +:+ "e+" +:+ exponent)
  | EmptyString => EmptyString
  end.

(** [String(z)] for an integer-valued double [z]: its digits up to
    2^53; above, the shortest decimal that reads back as [z], in full
    below 10^21 and in exponent notation from there on. *)
Definition integerToString (z : Z) : string :=
  if Z.abs z <=? 2 ^ 53 then pretty z
  else
    let v := shortestDecimal 17 1 (Z.abs z) in
    let text := if v <? 10 ^ 21 then pretty v else exponential v in
    if z <? 0 then "-" +:+ text else text.

End Double.

#[global] Arguments Double.nearest : simpl never.
#[global] Arguments Double.round : simpl never.

(** ** Resource-timing classifier *)

Inductive DeliverySource := disk_cache | edge_cache | origin.

Module Timing.

(** The fields of a [PerformanceResourceTiming] entry that the player
    reads. *)
Record PerformanceResourceTiming := {
  name : string;
  responseEnd : Q;
  transferSize : N;
  encodedBodySize : N;
  decodedBodySize : N;
  nextHopProtocol : string
}.

End Timing.
Abbreviation PerformanceResourceTiming := Timing.PerformanceResourceTiming.

Definition Qltb (a b : Q) : bool := negb (Qle_bool b a).

(** A byte count as the number that the script reads: exact up to 2^53,
    the nearest double above. *)
Definition toNumber (n : N) : Q := Double.nearest (inject_Z (Z.of_N n)).

(** [entry.transferSize / entry.encodedBodySize], a quotient of doubles. *)
Definition sizeRatio (entry : PerformanceResourceTiming) : Q :=
  Double.nearest (toNumber (Timing.transferSize entry)
                  / toNumber (Timing.encodedBodySize entry)).

Definition classifyDeliverySource (entry : option PerformanceResourceTiming)
  : option DeliverySource :=
  match entry with
  | None => None
  | Some entry =>
      if (Timing.transferSize entry =? 0)%N && (0 <? Timing.decodedBodySize entry)%N
      then Some disk_cache
      else if (0 <? Timing.transferSize entry)%N && (0 <? Timing.encodedBodySize entry)%N then
        if Qltb (sizeRatio entry) (Double.nearest (105 # 100))
        then Some edge_cache else Some origin
      else None
  end.

(** The size heuristic as the specification words it: a nonzero transfer
    size is [edge_cache] when it lies within 5% of the encoded body size
    and [origin] in every other case. *)
Definition classifyDelivery_as_specified (entry : option PerformanceResourceTiming)
  : option DeliverySource :=
  match entry with
  | None => None
  | Some entry =>
      let t := Z.of_N (Timing.transferSize entry) in
      let e := Z.of_N (Timing.encodedBodySize entry) in
      if (Timing.transferSize entry =? 0)%N then
        if (0 <? Timing.decodedBodySize entry)%N then Some disk_cache else None
      else if 20 * Z.abs (t - e) <=? e then Some edge_cache
      else Some origin
  end.

(** [extractHeaders] turns the network details of a runtime event (an XHR,
    a fetch response or a plain object) into a plain object from
    lower-cased header names to values, or [undefined]; the signals below
    carry it. The object is the map of its own properties: none of the
    names that [extractDeliverySource] reads is inherited from
    [Object.prototype]. *)
Definition Headers := option (gmap string string).

(** A string-valued operand of [||]: [undefined] and the empty string are
    falsy. *)
Definition truthy (v : option string) : bool :=
  match v with
  | Some s => negb (String.eqb s EmptyString)
  | None => false
  end.

(** [a || b] on optional strings. *)
Definition orElse (a b : option string) : option string :=
  if truthy a then a else b.

Definition extractDeliverySource (networkDetails : Headers) : option DeliverySource :=
  match networkDetails with
  | None => None
  | Some headers =>
      let cacheHeader :=
        orElse (headers !! "cf-cache-status")
          (orElse (headers !! "x-cache")
             (orElse (headers !! "x-cache-status")
                (orElse (headers !! "x-served-by") (headers !! "age")))) in
      if negb (truthy cacheHeader) then None
      else
        let value := Str.toLowerCase (default EmptyString cacheHeader) in
        if Str.includes "hit" value then Some edge_cache
        else if Str.includes "stale" value then Some edge_cache
        else if Str.includes "miss" value then Some origin
        else if Str.includes "bypass" value then Some origin
        else if Str.includes "dynamic" value then Some origin
        else if truthy (headers !! "age") then
          match Str.parseInt false (default EmptyString (headers !! "age")) with
          | Some age => if 0 <? age then Some edge_cache else None
          | None => None
          end
        else None
  end.

(** ** The telemetry session *)

Record PlaybackMetricState := {
  sessionId : string;
  mountTime : option Q;
  manifestRequestedAt : option Q;
  manifestLoadedAt : option Q;
  playbackRequestedAt : option Q;
  firstFrameAt : option Q;
  bufferingEvents : N;
  deliverySource : option DeliverySource;
  bandwidthEstimateMbps : option Q;
  transferSize : option N;
  encodedBodySize : option N;
  nextHopProtocol : option string;
  metricsSent : bool
}.

(** The object a fresh session starts from (the [useRef] initialiser and
    the source-change effect build the same literal). *)
Definition newSession (id : string) (t : Q) : PlaybackMetricState :=
  {| sessionId := id; mountTime := Some t;
     manifestRequestedAt := None; manifestLoadedAt := None;
     playbackRequestedAt := None; firstFrameAt := None;
     bufferingEvents := 0%N; deliverySource := None;
     bandwidthEstimateMbps := None; transferSize := None;
     encodedBodySize := None; nextHopProtocol := None;
     metricsSent := false |}.

(** Field assignments [state.f = v]. *)
Definition set_manifestRequestedAt (v : option Q) (s : PlaybackMetricState) :=
  {| sessionId := sessionId s; mountTime := mountTime s;
     manifestRequestedAt := v; manifestLoadedAt := manifestLoadedAt s;
     playbackRequestedAt := playbackRequestedAt s; firstFrameAt := firstFrameAt s;
     bufferingEvents := bufferingEvents s; deliverySource := deliverySource s;
     bandwidthEstimateMbps := bandwidthEstimateMbps s; transferSize := transferSize s;
     encodedBodySize := encodedBodySize s; nextHopProtocol := nextHopProtocol s;
     metricsSent := metricsSent s |}.

Definition set_manifestLoadedAt (v : option Q) (s : PlaybackMetricState) :=
  {| sessionId := sessionId s; mountTime := mountTime s;
     manifestRequestedAt := manifestRequestedAt s; manifestLoadedAt := v;
     playbackRequestedAt := playbackRequestedAt s; firstFrameAt := firstFrameAt s;
     bufferingEvents := bufferingEvents s; deliverySource := deliverySource s;
     bandwidthEstimateMbps := bandwidthEstimateMbps s; transferSize := transferSize s;
     encodedBodySize := encodedBodySize s; nextHopProtocol := nextHopProtocol s;
     metricsSent := metricsSent s |}.

Definition set_playbackRequestedAt (v : option Q) (s : PlaybackMetricState) :=
  {| sessionId := sessionId s; mountTime := mountTime s;
     manifestRequestedAt := manifestRequestedAt s; manifestLoadedAt := manifestLoadedAt s;
     playbackRequestedAt := v; firstFrameAt := firstFrameAt s;
     bufferingEvents := bufferingEvents s; deliverySource := deliverySource s;
     bandwidthEstimateMbps := bandwidthEstimateMbps s; transferSize := transferSize s;
     encodedBodySize := encodedBodySize s; nextHopProtocol := nextHopProtocol s;
     metricsSent := metricsSent s |}.

Definition set_firstFrameAt (v : option Q) (s : PlaybackMetricState) :=
  {| sessionId := sessionId s; mountTime := mountTime s;
     manifestRequestedAt := manifestRequestedAt s; manifestLoadedAt := manifestLoadedAt s;
     playbackRequestedAt := playbackRequestedAt s; firstFrameAt := v;
     bufferingEvents := bufferingEvents s; deliverySource := deliverySource s;
     bandwidthEstimateMbps := bandwidthEstimateMbps s; transferSize := transferSize s;
     encodedBodySize := encodedBodySize s; nextHopProtocol := nextHopProtocol s;
     metricsSent := metricsSent s |}.

Definition set_bufferingEvents (v : N) (s : PlaybackMetricState) :=
  {| sessionId := sessionId s; mountTime := mountTime s;
     manifestRequestedAt := manifestRequestedAt s; manifestLoadedAt := manifestLoadedAt s;
     playbackRequestedAt := playbackRequestedAt s; firstFrameAt := firstFrameAt s;
     bufferingEvents := v; deliverySource := deliverySource s;
     bandwidthEstimateMbps := bandwidthEstimateMbps s; transferSize := transferSize s;
     encodedBodySize := encodedBodySize s; nextHopProtocol := nextHopProtocol s;
     metricsSent := metricsSent s |}.

Definition set_deliverySource (v : option DeliverySource) (s : PlaybackMetricState) :=
  {| sessionId := sessionId s; mountTime := mountTime s;
     manifestRequestedAt := manifestRequestedAt s; manifestLoadedAt := manifestLoadedAt s;
     playbackRequestedAt := playbackRequestedAt s; firstFrameAt := firstFrameAt s;
     bufferingEvents := bufferingEvents s; deliverySource := v;
     bandwidthEstimateMbps := bandwidthEstimateMbps s; transferSize := transferSize s;
     encodedBodySize := encodedBodySize s; nextHopProtocol := nextHopProtocol s;
     metricsSent := metricsSent s |}.

Definition set_bandwidthEstimateMbps (v : option Q) (s : PlaybackMetricState) :=
  {| sessionId := sessionId s; mountTime := mountTime s;
     manifestRequestedAt := manifestRequestedAt s; manifestLoadedAt := manifestLoadedAt s;
     playbackRequestedAt := playbackRequestedAt s; firstFrameAt := firstFrameAt s;
     bufferingEvents := bufferingEvents s; deliverySource := deliverySource s;
     bandwidthEstimateMbps := v; transferSize := transferSize s;
     encodedBodySize := encodedBodySize s; nextHopProtocol := nextHopProtocol s;
     metricsSent := metricsSent s |}.

(** The three assignments that [captureResourceTiming] makes from the
    matching entry, before it settles the delivery source. *)
Definition set_transfer (m : PerformanceResourceTiming) (s : PlaybackMetricState) :=
  {| sessionId := sessionId s; mountTime := mountTime s;
     manifestRequestedAt := manifestRequestedAt s; manifestLoadedAt := manifestLoadedAt s;
     playbackRequestedAt := playbackRequestedAt s; firstFrameAt := firstFrameAt s;
     bufferingEvents := bufferingEvents s; deliverySource := deliverySource s;
     bandwidthEstimateMbps := bandwidthEstimateMbps s;
     transferSize := Some (Timing.transferSize m);
     encodedBodySize := Some (Timing.encodedBodySize m);
     nextHopProtocol := Some (Timing.nextHopProtocol m);
     metricsSent := metricsSent s |}.

Definition set_metricsSent (v : bool) (s : PlaybackMetricState) :=
  {| sessionId := sessionId s; mountTime := mountTime s;
     manifestRequestedAt := manifestRequestedAt s; manifestLoadedAt := manifestLoadedAt s;
     playbackRequestedAt := playbackRequestedAt s; firstFrameAt := firstFrameAt s;
     bufferingEvents := bufferingEvents s; deliverySource := deliverySource s;
     bandwidthEstimateMbps := bandwidthEstimateMbps s; transferSize := transferSize s;
     encodedBodySize := encodedBodySize s; nextHopProtocol := nextHopProtocol s;
     metricsSent := v |}.

(** ** The environment the player runs in *)

Record Connection := {
  effectiveType : option string;
  downlink : option Q;
  rtt : option Q
}.

Record Navigator := {
  userAgent : string;
  language : string;
  connection : option Connection;
  (** [typeof navigator.sendBeacon === "function"] *)
  hasSendBeacon : bool
}.

Record Env := {
  (** [None] when [typeof navigator === "undefined"]. *)
  navigator : option Navigator;
  (** [performance.getEntriesByType("resource")], [None] when
      [performance] or that method is missing. *)
  resourceEntries : option (list PerformanceResourceTiming);
  (** The [videoId] prop. *)
  videoId : option string;
  (** [Hls.isSupported()] *)
  hlsSupported : bool;
  (** [video.canPlayType("application/vnd.apple.mpegurl")] is non-empty. *)
  nativeHls : bool
}.

Inductive DeviceType := mobile | tv | desktop.

Definition getDeviceType (userAgent : option string) : option DeviceType :=
  if negb (truthy userAgent) then None
  else
    let ua := Str.toLowerCase (default EmptyString userAgent) in
    if Str.includes "mobile" ua || Str.includes "android" ua
       || Str.includes "iphone" ua || Str.includes "ipad" ua then Some mobile
    else if Str.includes "smart-tv" ua || Str.includes "appletv" ua
            || Str.includes "hbbtv" ua then Some tv
    else Some desktop.

(** [Math.round] *)
Definition round (x : Q) : Z := Qfloor (x + (1 # 2)).

(** [!x] on an optional number: [undefined] and zero are falsy. *)
Definition falsy_number (x : option Q) : bool :=
  match x with
  | None => true
  | Some v => Qeq_bool v 0
  end.

Record BenchmarkMetadata := {
  session_id : string;
  reason : string;
  manifest_latency_ms : option Z;
  transfer_size_bytes : option N;
  encoded_body_size_bytes : option N;
  next_hop_protocol : option string;
  connection_type : option string;
  delivery_source : option DeliverySource;
  user_agent : string;
  meta_language : string;
  meta_downlink : option Q;
  meta_rtt : option Q
}.

Record PlaybackMetricPayload := {
  benchmark_run_source : string;
  benchmark_metadata : BenchmarkMetadata;
  video_id : option string;
  device_type : option DeviceType;
  bandwidth_mbps : option Q;
  first_frame_ms : option Z;
  total_startup_ms : option Z;
  buffering_events : N
}.

Definition constructPayload (env : Env) (reason : string) (state : PlaybackMetricState)
  : option PlaybackMetricPayload :=
  if falsy_number (firstFrameAt state) then None
  else
    let firstFrame := default 0%Q (firstFrameAt state) in
    let firstFrameMs :=
      match mountTime state with
      | Some mount => Some (round (Double.nearest (firstFrame - mount)))
      | None => None
      end in
    let startupMs :=
      match playbackRequestedAt state with
      | Some requested => Some (round (Double.nearest (firstFrame - requested)))
      | None => firstFrameMs
      end in
    match navigator env with
    | None => None
    | Some nav =>
        let connection := connection nav in
        Some
          {| benchmark_run_source := "playback_client";
             benchmark_metadata :=
               {| session_id := sessionId state;
                  reason := reason;
                  manifest_latency_ms :=
                    match manifestLoadedAt state, manifestRequestedAt state with
                    | Some loaded, Some requested =>
                        Some (round (Double.nearest (loaded - requested)))
                    | _, _ => None
                    end;
                  transfer_size_bytes := transferSize state;
                  encoded_body_size_bytes := encodedBodySize state;
                  next_hop_protocol := nextHopProtocol state;
                  connection_type := connection ≫= effectiveType;
                  delivery_source := deliverySource state;
                  user_agent := userAgent nav;
                  meta_language := language nav;
                  meta_downlink := connection ≫= downlink;
                  meta_rtt := connection ≫= rtt |};
             video_id := videoId env;
             device_type := getDeviceType (Some (userAgent nav));
             bandwidth_mbps :=
               match bandwidthEstimateMbps state with
               | Some b => Some b
               | None => connection ≫= downlink
               end;
             first_frame_ms := firstFrameMs;
             total_startup_ms := startupMs;
             buffering_events := bufferingEvents state |}
    end.

(** What a handler hands to the outside: a beacon
    ([navigator.sendBeacon]), a call to the API client
    ([apiService.recordPlaybackMetric]), a command to the media element
    ([video.currentTime = t], [video.play()], [video.src = src]) or to the
    runtime ([hls.loadSource(src)] followed by [hls.attachMedia(video)]). *)
Inductive Output :=
| SendBeacon (payload : PlaybackMetricPayload)
| RecordPlaybackMetric (payload : PlaybackMetricPayload)
| VideoSeek (time : Q)
| VideoPlay
| VideoSrc (src : string)
| LoadSource (src : string).

Definition isDispatch (o : Output) : bool :=
  match o with
  | SendBeacon _ | RecordPlaybackMetric _ => true
  | _ => false
  end.

(** The function is [async] but never awaits, so a call runs to its end
    before the caller goes on. *)
Definition sendPlaybackMetrics (env : Env) (reason : string) (preferBeacon : bool)
    (state : PlaybackMetricState) : PlaybackMetricState * list Output :=
  if metricsSent state then (state, [])
  else
    match constructPayload env reason state with
    | None => (state, [])
    | Some payload =>
        let state := set_metricsSent true state in
        if preferBeacon && from_option hasSendBeacon false (navigator env)
        then (state, [SendBeacon payload])
        else (state, [RecordPlaybackMetric payload])
    end.

(** Stable insertion in descending order of [responseEnd], which is what
    [sort((a, b) => b.responseEnd - a.responseEnd)] yields. *)
Fixpoint insertByResponseEnd (x : PerformanceResourceTiming)
    (l : list PerformanceResourceTiming) : list PerformanceResourceTiming :=
  match l with
  | [] => [x]
  | y :: rest =>
      if Qle_bool (Timing.responseEnd y) (Timing.responseEnd x) then x :: l
      else y :: insertByResponseEnd x rest
  end.

Definition sortByResponseEnd (l : list PerformanceResourceTiming)
  : list PerformanceResourceTiming :=
  foldr insertByResponseEnd [] l.

(** [url] is the element's [currentSrc] or the [src] prop, a string in
    both callers; the empty string is falsy. *)
Definition captureResourceTiming (env : Env) (url : string) (state : PlaybackMetricState)
  : PlaybackMetricState :=
  match resourceEntries env with
  | None => state
  | Some entries =>
      if String.eqb url EmptyString then state
      else
        let normalized := Str.before "?" url in
        let matching :=
          List.filter
            (fun entry =>
               Str.startsWith (Timing.name entry) normalized
               || Str.startsWith normalized (Timing.name entry))
            entries in
        match head (sortByResponseEnd matching) with
        | None => state
        | Some found =>
            let state := set_transfer found state in
            match deliverySource state with
            | Some _ => state
            | None => set_deliverySource (classifyDeliverySource (Some found)) state
            end
        end
  end.

(** ** The streaming runtime and the media element, as the player sees them *)

(** A rendition of the manifest; the player reads its height only. *)
Record Level := { height : Z }.

(** The closure that the upgrade branch of [handleQualityChange]
    subscribes to the runtime's buffer-appended event: the playback
    position and the playing flag captured at the time of the call. *)
Record BufferAppendedHandler := {
  currentPlaybackTime : Q;
  resumePlayback : bool
}.

(** The runtime instance held in [hlsRef]: its level inventory, the three
    level properties the player assigns and reads back, the level cap, the
    source it was created for and the buffer-appended subscriptions made
    by the player. *)
Record Hls := {
  levels : list Level;
  currentLevel : Z;
  nextLevel : Z;
  loadLevel : Z;
  autoLevelCapping : Z;
  source : string;
  bufferAppended : list BufferAppendedHandler
}.

(** The media element held in [videoRef]. *)
Record Video := {
  paused : bool;
  readyState : Z;
  currentTime : Q;
  currentSrc : string
}.

(** The component's state: the telemetry ref, the runtime ref, the
    element ref and the [useState] cells that the handlers below write
    (volume, mute, fullscreen, control visibility, subtitles, duration,
    current time and buffered percentage are presentational and left
    out). *)
Record Player := {
  playbackMetricsRef : PlaybackMetricState;
  hlsRef : option Hls;
  videoRef : option Video;
  isPlaying : bool;
  isLoading : bool;
  isBuffering : bool;
  error : string;
  quality : string;
  autoQualityLabel : option string;
  availableQualities : list string
}.

Definition set_metrics (v : PlaybackMetricState) (p : Player) :=
  {| playbackMetricsRef := v; hlsRef := hlsRef p; videoRef := videoRef p;
     isPlaying := isPlaying p; isLoading := isLoading p; isBuffering := isBuffering p;
     error := error p; quality := quality p; autoQualityLabel := autoQualityLabel p;
     availableQualities := availableQualities p |}.

Definition set_hls (v : option Hls) (p : Player) :=
  {| playbackMetricsRef := playbackMetricsRef p; hlsRef := v; videoRef := videoRef p;
     isPlaying := isPlaying p; isLoading := isLoading p; isBuffering := isBuffering p;
     error := error p; quality := quality p; autoQualityLabel := autoQualityLabel p;
     availableQualities := availableQualities p |}.

Definition set_video (v : option Video) (p : Player) :=
  {| playbackMetricsRef := playbackMetricsRef p; hlsRef := hlsRef p; videoRef := v;
     isPlaying := isPlaying p; isLoading := isLoading p; isBuffering := isBuffering p;
     error := error p; quality := quality p; autoQualityLabel := autoQualityLabel p;
     availableQualities := availableQualities p |}.

Definition setIsPlaying (v : bool) (p : Player) :=
  {| playbackMetricsRef := playbackMetricsRef p; hlsRef := hlsRef p; videoRef := videoRef p;
     isPlaying := v; isLoading := isLoading p; isBuffering := isBuffering p;
     error := error p; quality := quality p; autoQualityLabel := autoQualityLabel p;
     availableQualities := availableQualities p |}.

Definition setIsLoading (v : bool) (p : Player) :=
  {| playbackMetricsRef := playbackMetricsRef p; hlsRef := hlsRef p; videoRef := videoRef p;
     isPlaying := isPlaying p; isLoading := v; isBuffering := isBuffering p;
     error := error p; quality := quality p; autoQualityLabel := autoQualityLabel p;
     availableQualities := availableQualities p |}.

Definition setIsBuffering (v : bool) (p : Player) :=
  {| playbackMetricsRef := playbackMetricsRef p; hlsRef := hlsRef p; videoRef := videoRef p;
     isPlaying := isPlaying p; isLoading := isLoading p; isBuffering := v;
     error := error p; quality := quality p; autoQualityLabel := autoQualityLabel p;
     availableQualities := availableQualities p |}.

Definition setError (v : string) (p : Player) :=
  {| playbackMetricsRef := playbackMetricsRef p; hlsRef := hlsRef p; videoRef := videoRef p;
     isPlaying := isPlaying p; isLoading := isLoading p; isBuffering := isBuffering p;
     error := v; quality := quality p; autoQualityLabel := autoQualityLabel p;
     availableQualities := availableQualities p |}.

Definition setQuality (v : string) (p : Player) :=
  {| playbackMetricsRef := playbackMetricsRef p; hlsRef := hlsRef p; videoRef := videoRef p;
     isPlaying := isPlaying p; isLoading := isLoading p; isBuffering := isBuffering p;
     error := error p; quality := v; autoQualityLabel := autoQualityLabel p;
     availableQualities := availableQualities p |}.

Definition setAutoQualityLabel (v : option string) (p : Player) :=
  {| playbackMetricsRef := playbackMetricsRef p; hlsRef := hlsRef p; videoRef := videoRef p;
     isPlaying := isPlaying p; isLoading := isLoading p; isBuffering := isBuffering p;
     error := error p; quality := quality p; autoQualityLabel := v;
     availableQualities := availableQualities p |}.

Definition setAvailableQualities (v : list string) (p : Player) :=
  {| playbackMetricsRef := playbackMetricsRef p; hlsRef := hlsRef p; videoRef := videoRef p;
     isPlaying := isPlaying p; isLoading := isLoading p; isBuffering := isBuffering p;
     error := error p; quality := quality p; autoQualityLabel := autoQualityLabel p;
     availableQualities := v |}.

(** Assignments to the runtime's level properties. *)
Definition set_currentLevel (v : Z) (h : Hls) :=
  {| levels := levels h; currentLevel := v; nextLevel := nextLevel h;
     loadLevel := loadLevel h; autoLevelCapping := autoLevelCapping h;
     source := source h; bufferAppended := bufferAppended h |}.

Definition set_nextLevel (v : Z) (h : Hls) :=
  {| levels := levels h; currentLevel := currentLevel h; nextLevel := v;
     loadLevel := loadLevel h; autoLevelCapping := autoLevelCapping h;
     source := source h; bufferAppended := bufferAppended h |}.

Definition set_loadLevel (v : Z) (h : Hls) :=
  {| levels := levels h; currentLevel := currentLevel h; nextLevel := nextLevel h;
     loadLevel := v; autoLevelCapping := autoLevelCapping h;
     source := source h; bufferAppended := bufferAppended h |}.

Definition set_autoLevelCapping (v : Z) (h : Hls) :=
  {| levels := levels h; currentLevel := currentLevel h; nextLevel := nextLevel h;
     loadLevel := loadLevel h; autoLevelCapping := v;
     source := source h; bufferAppended := bufferAppended h |}.

Definition set_levels (v : list Level) (h : Hls) :=
  {| levels := v; currentLevel := currentLevel h; nextLevel := nextLevel h;
     loadLevel := loadLevel h; autoLevelCapping := autoLevelCapping h;
     source := source h; bufferAppended := bufferAppended h |}.

(** [hls.on(BUFFER_APPENDED, handler)] and the [hls.off] that every
    handler starts with. *)
Definition set_bufferAppended (v : list BufferAppendedHandler) (h : Hls) :=
  {| levels := levels h; currentLevel := currentLevel h; nextLevel := nextLevel h;
     loadLevel := loadLevel h; autoLevelCapping := autoLevelCapping h;
     source := source h; bufferAppended := v |}.

Definition set_currentTime (v : Q) (e : Video) :=
  {| paused := paused e; readyState := readyState e; currentTime := v;
     currentSrc := currentSrc e |}.

(** [new Hls({...})] for the given source, before the manifest is parsed. *)
Definition newHls (src : string) : Hls :=
  {| levels := []; currentLevel := -1; nextLevel := -1; loadLevel := -1;
     autoLevelCapping := -1; source := src; bufferAppended := [] |}.

(** ** Handlers of the media element's events *)

(** [x ?? now()], with [t] the value that [now ()] would return. *)
Definition orNow (x : option Q) (t : Q) : option Q :=
  match x with
  | Some _ => x
  | None => Some t
  end.

Definition handleLoadedMetadata (env : Env) (t : Q) (video : Video) (p : Player) : Player :=
  let p := setIsLoading false p in
  let state := playbackMetricsRef p in
  let state := set_manifestLoadedAt (orNow (manifestLoadedAt state) t) state in
  set_metrics (captureResourceTiming env (currentSrc video) state) p.

Definition handlePlay (t : Q) (p : Player) : Player :=
  let p := setIsBuffering false (setIsPlaying true p) in
  let state := playbackMetricsRef p in
  set_metrics (set_playbackRequestedAt (orNow (playbackRequestedAt state) t) state) p.

Definition handlePause (p : Player) : Player := setIsPlaying false p.

Definition handleWaiting (video : Video) (p : Player) : Player :=
  if negb (paused video) && (readyState video <? 3) then
    let p := setIsBuffering true p in
    let state := playbackMetricsRef p in
    set_metrics (set_bufferingEvents (bufferingEvents state + 1)%N state) p
  else p.

Definition handleStalled (video : Video) (p : Player) : Player :=
  if negb (paused video) then
    let p := setIsBuffering true p in
    let state := playbackMetricsRef p in
    set_metrics (set_bufferingEvents (bufferingEvents state + 1)%N state) p
  else p.

Definition handlePlaying (t : Q) (p : Player) : Player :=
  let p := setIsBuffering false p in
  let state := playbackMetricsRef p in
  set_metrics (set_firstFrameAt (orNow (firstFrameAt state) t) state) p.

Definition handleCanPlay (env : Env) (video : Video) (p : Player) : Player :=
  let p := setIsBuffering false p in
  set_metrics (captureResourceTiming env (currentSrc video) (playbackMetricsRef p)) p.

(** A handler that ends in [void sendPlaybackMetrics(...)]. *)
Definition sending (env : Env) (reason : string) (preferBeacon : bool) (p : Player)
  : Player * list Output :=
  let '(state, out) := sendPlaybackMetrics env reason preferBeacon (playbackMetricsRef p) in
  (set_metrics state p, out).

Definition handleEnded (env : Env) (p : Player) : Player * list Output :=
  sending env "ended" false (setIsPlaying false p).

Definition handleError (env : Env) (p : Player) : Player * list Output :=
  sending env "error" false (setError "Playback error" p).

Definition handleLoadStart (t : Q) (p : Player) : Player :=
  let state := playbackMetricsRef p in
  set_metrics (set_manifestRequestedAt (orNow (manifestRequestedAt state) t) state) p.

(** ** Page-lifecycle triggers *)

(** The effect on [src] and [videoId]: flush the session that ends, then
    start a new one. *)
Definition sourceChangeEffect (env : Env) (id : string) (t : Q) (p : Player)
  : Player * list Output :=
  let state := playbackMetricsRef p in
  let '(p, out) :=
    if negb (falsy_number (firstFrameAt state)) && negb (metricsSent state)
    then sending env "source_change" false p
    else (p, []) in
  (set_metrics (newSession id t) p, out).

Definition handleBeforeUnload (env : Env) (p : Player) : Player * list Output :=
  if metricsSent (playbackMetricsRef p) then (p, [])
  else if falsy_number (firstFrameAt (playbackMetricsRef p)) then (p, [])
  else sending env "beforeunload" true p.

(** The cleanup of the unmount effect. *)
Definition unmountCleanup (env : Env) (p : Player) : Player * list Output :=
  if negb (metricsSent (playbackMetricsRef p))
     && negb (falsy_number (firstFrameAt (playbackMetricsRef p)))
  then sending env "unmount" true p
  else (p, []).

(** ** Handlers of the runtime's events *)

Definition onManifestLoading (t : Q) (p : Player) : Player :=
  set_metrics (set_manifestRequestedAt (Some t) (playbackMetricsRef p)) p.

Definition onManifestLoaded (env : Env) (t : Q) (networkDetails : Headers) (hls : Hls)
    (p : Player) : Player :=
  let state := set_manifestLoadedAt (Some t) (playbackMetricsRef p) in
  let state :=
    match extractDeliverySource networkDetails with
    | Some delivery => set_deliverySource (Some delivery) state
    | None => state
    end in
  set_metrics (captureResourceTiming env (source hls) state) p.

Module QualityLevel.
Record t := { height : Z; index : nat; label : string }.
End QualityLevel.

(** Stable insertion in descending order of height
    ([qualities.sort((a, b) => b.height - a.height)]). *)
Fixpoint insertByHeight (x : QualityLevel.t) (l : list QualityLevel.t) : list QualityLevel.t :=
  match l with
  | [] => [x]
  | y :: rest =>
      if QualityLevel.height y <=? QualityLevel.height x then x :: l
      else y :: insertByHeight x rest
  end.

Definition qualitiesOf (levels : list Level) : list QualityLevel.t :=
  foldr insertByHeight []
    (imap (fun index level =>
             {| QualityLevel.height := height level;
                QualityLevel.index := index;
                QualityLevel.label := pretty (height level) +:+ "p" |}) levels).

(** [found] is the level inventory that the runtime has parsed. *)
Definition onManifestParsed (found : list Level) (hls : Hls) (p : Player) : Player :=
  let p := setIsLoading false p in
  let hls := set_levels found hls in
  let qualities := qualitiesOf (levels hls) in
  let p := setAvailableQualities ("auto" :: map QualityLevel.label qualities) p in
  let hls :=
    set_autoLevelCapping (-1) (set_loadLevel (-1) (set_nextLevel (-1) (set_currentLevel (-1) hls))) in
  let p := setQuality "auto" (set_hls (Some hls) p) in
  setAutoQualityLabel (QualityLevel.label <$> head qualities) p.

Definition onLevelSwitched (level : Z) (hls : Hls) (p : Player) : Player :=
  if level <? 0 then p
  else
    match levels hls !! Z.to_nat level with
    | Some switched =>
        if String.eqb (quality p) "auto"
        then setAutoQualityLabel (Some (pretty (height switched) +:+ "p")) p
        else p
    | None => p
    end.

(** [Number(x.toFixed(2))] for a double [x] that is not negative: from
    10^21 on [toFixed] prints the number as it is; below, the whole
    number of hundredths closest to [x], the larger of two that are as
    close, whose two-decimal text [Number] reads back as the nearest
    double. *)
Definition toFixed2 (x : Q) : Q :=
  if Qle_bool (inject_Z (10 ^ 21)) x then x
  else Double.nearest (inject_Z (round (x * 100)) / 100).

(** [Number((bwEstimate / 1_000_000).toFixed(2))] *)
Definition toMbps (bwEstimate : Q) : Q :=
  toFixed2 (Double.nearest (bwEstimate / 1000000)).

Definition onFragLoaded (bwEstimate : option Q) (networkDetails : Headers) (p : Player)
  : Player :=
  let state := playbackMetricsRef p in
  let state :=
    match bwEstimate with
    | Some bw =>
        if negb (Qeq_bool bw 0) && Qltb 0 bw
        then set_bandwidthEstimateMbps (Some (toMbps bw)) state
        else state
    | None => state
    end in
  let state :=
    match deliverySource state with
    | Some _ => state
    | None =>
        match extractDeliverySource networkDetails with
        | Some delivery => set_deliverySource (Some delivery) state
        | None => state
        end
    end in
  set_metrics state p.

(** One subscribed closure of the upgrade branch running: it restores
    the captured position on the element and plays again if playback was
    running when it was captured. *)
Definition handleBufferAppended (handler : BufferAppendedHandler)
    (acc : option Video * list Output) : option Video * list Output :=
  match acc.1 with
  | None => acc
  | Some video =>
      (Some (set_currentTime (currentPlaybackTime handler) video),
       (acc.2 ++ VideoSeek (currentPlaybackTime handler)
              :: (if resumePlayback handler then [VideoPlay] else []))%list)
  end.

(** The runtime emitting buffer-appended: every subscribed closure
    unsubscribes itself and runs, in subscription order. *)
Definition onBufferAppended (hls : Hls) (p : Player) : Player * list Output :=
  let acc := foldl (fun acc handler => handleBufferAppended handler acc)
                   (videoRef p, []) (bufferAppended hls) in
  (set_video acc.1 (set_hls (Some (set_bufferAppended [] hls)) p), acc.2).

(** ** The manual quality switch *)

(** [levels.findIndex((level) => level.height === targetHeight)]; [None]
    is the source's [-1]. *)
Definition findIndex (targetHeight : Z) (levels : list Level) : option nat :=
  fst <$> list_find (fun level => height level = targetHeight) levels.

Definition currentManualIndex (hls : Hls) : Z :=
  if 0 <=? currentLevel hls then currentLevel hls
  else if 0 <=? loadLevel hls then loadLevel hls
  else if 0 <=? nextLevel hls then nextLevel hls
  else -1.

Definition currentHeight (hls : Hls) : Z :=
  if 0 <=? currentManualIndex hls then
    match levels hls !! Z.to_nat (currentManualIndex hls) with
    | Some level => height level
    | None => 0
    end
  else 0.

(** [parseInt] of [newQuality] without its first "p"; [None] is [NaN], which no
    height equals. *)
Definition targetHeightOf (newQuality : string) : option Z :=
  Str.parseInt true (Str.removeFirst "p" newQuality).

Definition isUpgrade (hls : Hls) (targetHeight : Z) : bool :=
  (0 <? currentHeight hls) && (currentHeight hls <? targetHeight).

(** The upgrade branch of [handleQualityChange]: all three level
    properties go to [levelIndex] and, when there is an element, a
    closure is subscribed to buffer-appended with the position and the
    playing flag of the moment. *)
Definition upgraded (video : option Video) (levelIndex : Z) (hls : Hls) : Hls :=
  let switched :=
    set_loadLevel levelIndex (set_nextLevel levelIndex (set_currentLevel levelIndex hls)) in
  match video with
  | Some v =>
      set_bufferAppended
        (bufferAppended switched
         ++ [{| currentPlaybackTime := currentTime v;
                resumePlayback := negb (paused v) |}])%list switched
  | None => switched
  end.

(** The other branch: the next and the load level go to [levelIndex],
    and the current level too when the element is paused. *)
Definition scheduled (video : option Video) (levelIndex : Z) (hls : Hls) : Hls :=
  let next := set_loadLevel levelIndex (set_nextLevel levelIndex hls) in
  if from_option paused false video then set_currentLevel levelIndex next else next.

Definition handleQualityChange (newQuality : string) (p : Player) : Player :=
  match hlsRef p with
  | None => p
  | Some hls =>
      let video := videoRef p in
      let p := setQuality newQuality p in
      if String.eqb newQuality "auto" then
        let hls := set_nextLevel (-1) (set_loadLevel (-1) (set_currentLevel (-1) hls)) in
        setAutoQualityLabel None (set_hls (Some hls) p)
      else
        match targetHeightOf newQuality ≫= (fun h => pair h <$> findIndex h (levels hls)) with
        | None => p
        | Some (targetHeight, found) =>
            let levelIndex := Z.of_nat found in
            let hls :=
              if isUpgrade hls targetHeight
              then upgraded video levelIndex hls
              else scheduled video levelIndex hls in
            setAutoQualityLabel None (set_hls (Some hls) p)
        end
  end.

(** ** Binding a source *)

(** The effect on [src]: reset the quality selection, destroy the runtime
    of the previous source, then hand the new source to a new runtime or
    to the element. *)
Definition attachSource (env : Env) (src : string) (p : Player) : Player * list Output :=
  match videoRef p with
  | None => (p, [])
  | Some _ =>
      if String.eqb src EmptyString then (p, [])
      else
        let p := setAutoQualityLabel None (setQuality "auto" p) in
        let p := set_hls None p in
        let p := setError EmptyString (setIsBuffering false (setIsLoading true p)) in
        if Str.includes ".m3u8" src then
          if hlsSupported env then (set_hls (Some (newHls src)) p, [LoadSource src])
          else if nativeHls env then (setIsLoading false p, [VideoSrc src])
          else (setIsLoading false (setError "HLS not supported in this browser" p), [])
        else (setIsLoading false p, [VideoSrc src])
  end.

(** The cleanup of that effect. *)
Definition releaseRuntime (p : Player) : Player := set_hls None p.

(** ** Progress, buffered range and time display *)

(** [updateBufferedState], as the value it passes to
    [setBufferedPercentage]: [buffered] lists the element's buffered
    ranges as (start, end) pairs, and [mediaDuration] is [None] when the
    element's duration is [NaN] or infinite. *)
Definition updateBufferedState (buffered : list (Q * Q)) (mediaDuration : option Q) : Q :=
  match last buffered, mediaDuration with
  | Some (_, bufferedEnd), Some mediaDuration =>
      if Qle_bool mediaDuration 0 then 0
      else
        let clampedEnd := Qmin (Qmax bufferedEnd 0) mediaDuration in
        Double.nearest (Double.nearest (clampedEnd / mediaDuration) * 100)
  | _, _ => 0
  end%Q.

(** [Math.max(0, Math.min(x, 100))], the clamp of [clampedProgress] and
    [clampedBuffered]. *)
Definition clampPercent (x : number) : number :=
  Double.max (num 0) (Double.min x (num 100)).

(** [duration > 0 ? (currentTime / duration) * 100 : 0]; the position
    is finite, the duration is whatever the element reported. *)
Definition progressPercentage (currentTime : Q) (duration : number) : number :=
  match duration with
  | num d =>
      if Qltb 0 d then Double.mul (Double.round (currentTime / d)) (num 100) else num 0
  | Infinity => num 0
  | NegInfinity | NaN => num 0
  end.

(** [skip]: the value assigned to [video.currentTime]. *)
Definition skip (duration : number) (currentTime seconds : Q) : number :=
  Double.max (num 0) (Double.min duration (Double.round (currentTime + seconds))).

(** [handleSeek]: the value [newTime] assigned to [video.currentTime]
    for a slider value in percent. *)
Definition handleSeek (duration : number) (value : Q) : number :=
  Double.mul (Double.round (value / 100)) duration.

(** [video.currentTime = v]: the position that the element takes, or
    [None] when the assignment raises a [TypeError] because [v] is not
    finite (the handler ends there, before any state is set). *)
Definition assignCurrentTime (v : number) : option Q :=
  match v with
  | num t => Some t
  | _ => None
  end.

(** [Math.trunc], with which the remainder operator rounds its quotient. *)
Definition truncate (x : Q) : Z := if Qltb x 0 then Qceiling x else Qfloor x.

(** [a % n] on finite numbers; the operator is exact. *)
Definition remainder (a n : Q) : Q := (a - inject_Z (truncate (a / n)) * n)%Q.

(** [s.padStart(targetLength, c)] with a one-character filler. *)
Definition padStart (targetLength : nat) (c : ascii) (s : string) : string :=
  string_of_list_ascii (replicate (targetLength - String.length s) c) +:+ s.

(** [formatTime]: of a time that is not finite the quotient prints as
    it is and the remainder is [NaN]. *)
Definition formatTime (time : number) : string :=
  match time with
  | num time =>
      let minutes := Qfloor (Double.nearest (time / 60)) in
      let seconds := Qfloor (remainder time 60) in
      Double.integerToString minutes +:+ ":" +:+ padStart 2 "0" (pretty seconds)
  | Infinity => "Infinity:NaN"
  | NegInfinity => "-Infinity:NaN"
  | NaN => "NaN:NaN"
  end.

(** ** Volume *)

(** The [volume] and [isMuted] cells and the element's own volume
    ([None] while there is no element). *)
Record Sound := {
  volume : Q;
  isMuted : bool;
  videoVolume : option Q
}.

(** [handleVolumeChange] for the slider value [value[0]]. *)
Definition handleVolumeChange (value : Q) (s : Sound) : Sound :=
  match videoVolume s with
  | None => s
  | Some _ =>
      let newVolume := (value / 100)%Q in
      {| volume := newVolume; isMuted := Qeq_bool newVolume 0;
         videoVolume := Some newVolume |}
  end.

Definition toggleMute (s : Sound) : Sound :=
  match videoVolume s with
  | None => s
  | Some _ =>
      if isMuted s
      then {| volume := volume s; isMuted := false; videoVolume := Some (volume s) |}
      else {| volume := volume s; isMuted := true; videoVolume := Some 0%Q |}
  end.

(** ** Response headers *)

(** [s.trim()] *)
Definition trim (s : string) : string :=
  String.rev (Str.skipWhite (String.rev (Str.skipWhite s))).

(** [s.split(c)] for a one-character separator: never empty. *)
Fixpoint splitOn (sep : ascii) (s : string) : list string :=
  match s with
  | EmptyString => [EmptyString]
  | String c rest =>
      if Ascii.eqb c sep then EmptyString :: splitOn sep rest
      else
        match splitOn sep rest with
        | first :: others => String c first :: others
        | [] => [String c EmptyString]
        end
  end.

(** [parts.join(c)] *)
Fixpoint join (sep : ascii) (parts : list string) : string :=
  match parts with
  | [] => EmptyString
  | [part] => part
  | part :: others => part +:+ String sep (join sep others)
  end.

Definition isLineBreak (c : ascii) : bool :=
  Ascii.eqb c "013" || Ascii.eqb c "010".

(** [s.split(/[\r\n]+/)]: the pieces between maximal runs of line
    breaks; [inRun] says that the character before was a line break. *)
Fixpoint splitLinesFrom (inRun : bool) (s : string) : list string :=
  match s with
  | EmptyString => [EmptyString]
  | String c rest =>
      if isLineBreak c then
        if inRun then splitLinesFrom true rest
        else EmptyString :: splitLinesFrom true rest
      else
        match splitLinesFrom false rest with
        | first :: others => String c first :: others
        | [] => [String c EmptyString]
        end
  end.

Definition splitLines (s : string) : list string := splitLinesFrom false s.

(** [obj[key] = value] on a plain object, for a string [value]: the
    key becomes an own property, unless it is [__proto__], whose
    inherited setter ignores a value that is not an object. *)
Definition setProperty (key value : string) (obj : gmap string string)
  : gmap string string :=
  if String.eqb key "__proto__" then obj else <[key := value]> obj.

(** The callback that [extractHeaders] folds over the lines of a raw
    header block: a line with a colon and a name gives an entry under the
    trimmed, lower-cased name, with everything after the first colon,
    trimmed, as its value. *)
Definition addHeaderLine (acc : gmap string string) (line : string) : gmap string string :=
  match splitOn ":" line with
  | first :: (_ :: _) as others =>
      let key := Str.toLowerCase (trim first) in
      if String.eqb key EmptyString then acc
      else setProperty key (trim (join ":" others)) acc
  | _ => acc
  end.

(** The shapes of network details that [extractHeaders] tells apart:
    none; an XHR, whose [getAllResponseHeaders ()] gives a raw block or
    null; a response whose [headers] has [forEach], listed in iteration
    order as (name, value); a plain [headers] object, listed in the order
    of [Object.entries] with the values that are strings ([None] for the
    others); and anything else. *)
Inductive NetworkDetails :=
| noDetails
| xhrDetails (raw : option string)
| fetchDetails (entries : list (string * string))
| objectDetails (entries : list (string * option string))
| otherDetails.

Definition extractHeaders (networkDetails : NetworkDetails) : Headers :=
  match networkDetails with
  | noDetails => None
  | xhrDetails raw =>
      match raw with
      | None => None
      | Some raw =>
          if String.eqb raw EmptyString then None
          else Some (foldl addHeaderLine ∅ (splitLines (trim raw)))
      end
  | fetchDetails entries =>
      Some (foldl (fun headersObj entry =>
                     setProperty (Str.toLowerCase entry.1) entry.2 headersObj)
                  ∅ entries)
  | objectDetails entries =>
      Some (foldl (fun headersObj entry =>
                     match entry.2 with
                     | Some value => setProperty (Str.toLowerCase entry.1) value headersObj
                     | None => headersObj
                     end)
                  ∅ entries)
  | otherDetails => None
  end.

(** ** The player as a transition system *)

Inductive Signal :=
(* events of the media element *)
| loadedmetadata (t : Q)
| play (t : Q)
| pause
| waiting
| stalled
| playing (t : Q)
| canplay
| ended
| error_event
| loadstart (t : Q)
(* events of the streaming runtime *)
| MANIFEST_LOADING (t : Q)
| MANIFEST_LOADED (t : Q) (networkDetails : Headers)
| MANIFEST_PARSED (found : list Level)
| LEVEL_SWITCHED (level : Z)
| FRAG_LOADED (bwEstimate : option Q) (networkDetails : Headers)
| BUFFER_APPENDED
(* page lifecycle and React effects *)
| source_change (id : string) (t : Q)
| attach_source (src : string)
| release_runtime
| beforeunload
| unmount
(* the viewer picking an entry of the quality menu *)
| quality_change (newQuality : string)
(* the browser and the runtime changing what the handlers read *)
| element_update (video : Video)
| runtime_update (current next load : Z).

Definition silent (p : Player) : Player * list Output := (p, []).

(** An event of the element reaches its handler only while the element
    exists, an event of the runtime only while a runtime is bound. *)
Definition step (env : Env) (sig : Signal) (p : Player) : Player * list Output :=
  match sig, videoRef p, hlsRef p with
  | loadedmetadata t, Some video, _ => silent (handleLoadedMetadata env t video p)
  | play t, Some _, _ => silent (handlePlay t p)
  | pause, Some _, _ => silent (handlePause p)
  | waiting, Some video, _ => silent (handleWaiting video p)
  | stalled, Some video, _ => silent (handleStalled video p)
  | playing t, Some _, _ => silent (handlePlaying t p)
  | canplay, Some video, _ => silent (handleCanPlay env video p)
  | ended, Some _, _ => handleEnded env p
  | error_event, Some _, _ => handleError env p
  | loadstart t, Some _, _ => silent (handleLoadStart t p)
  | MANIFEST_LOADING t, _, Some _ => silent (onManifestLoading t p)
  | MANIFEST_LOADED t networkDetails, _, Some hls =>
      silent (onManifestLoaded env t networkDetails hls p)
  | MANIFEST_PARSED found, _, Some hls => silent (onManifestParsed found hls p)
  | LEVEL_SWITCHED level, _, Some hls => silent (onLevelSwitched level hls p)
  | FRAG_LOADED bwEstimate networkDetails, _, Some _ =>
      silent (onFragLoaded bwEstimate networkDetails p)
  | BUFFER_APPENDED, _, Some hls => onBufferAppended hls p
  | source_change id t, _, _ => sourceChangeEffect env id t p
  | attach_source src, _, _ => attachSource env src p
  | release_runtime, _, _ => silent (releaseRuntime p)
  | beforeunload, _, _ => handleBeforeUnload env p
  | unmount, _, _ => unmountCleanup env p
  | quality_change newQuality, _, _ => silent (handleQualityChange newQuality p)
  | element_update video, Some _, _ => silent (set_video (Some video) p)
  | runtime_update current next load, _, Some hls =>
      silent (set_hls (Some (set_loadLevel load (set_nextLevel next
                                (set_currentLevel current hls)))) p)
  | _, _, _ => silent p
  end.

(** A run of the player: the state reached and everything handed out. *)
Fixpoint run (env : Env) (sigs : list Signal) (p : Player) : Player * list Output :=
  match sigs with
  | [] => (p, [])
  | sig :: rest =>
      let '(p, out) := step env sig p in
      let '(p, out') := run env rest p in
      (p, (out ++ out')%list)
  end.

(** The payloads dispatched among the outputs. *)
Definition dispatches (out : list Output) : list Output := List.filter isDispatch out.

(** A session lasts until the source-change effect replaces it. *)
Definition keepsSession (sig : Signal) : bool :=
  match sig with
  | source_change _ _ => false
  | _ => true
  end.

(** The component right after mounting: a fresh session, no runtime yet,
    the element rendered. *)
Definition mounted (id : string) (t : Q) (video : Video) : Player :=
  {| playbackMetricsRef := newSession id t; hlsRef := None; videoRef := Some video;
     isPlaying := false; isLoading := true; isBuffering := false; error := EmptyString;
     quality := "auto"; autoQualityLabel := None; availableQualities := [] |}.

(** ** Vocabulary of the statements *)

(** The two telemetry fields that gate a dispatch, read off the player. *)
Definition sent (p : Player) : bool := metricsSent (playbackMetricsRef p).
Definition firstFrame (p : Player) : option Q := firstFrameAt (playbackMetricsRef p).

(** What one call of [sendPlaybackMetrics] can do. *)
Inductive SendResult (env : Env) (reason : string) (preferBeacon : bool)
    (state : PlaybackMetricState) : PlaybackMetricState * list Output -> Prop :=
| send_skipped :
    metricsSent state = true \/ constructPayload env reason state = None ->
    SendResult env reason preferBeacon state (state, [])
| send_done payload out :
    metricsSent state = false ->
    constructPayload env reason state = Some payload ->
    out = SendBeacon payload \/ out = RecordPlaybackMetric payload ->
    SendResult env reason preferBeacon state (set_metricsSent true state, [out]).

(** A step that reports nothing: no payload leaves, the sent flag is as
    it was, and a first-frame time already written is still there. *)
Definition Quiet (p : Player) (r : Player * list Output) : Prop :=
  dispatches r.2 = []
  /\ sent r.1 = sent p
  /\ (forall v, firstFrame p = Some v -> firstFrame r.1 = Some v).

(** A step that reports: one payload leaves a session that had rendered
    a frame and had not reported, and the sent flag is raised. *)
Definition Reported (p : Player) (r : Player * list Output) : Prop :=
  exists o, dispatches r.2 = [o]
            /\ sent p = false /\ sent r.1 = true
            /\ falsy_number (firstFrame p) = false
            /\ firstFrame r.1 = firstFrame p.

(** The sent flag at every state of a run, the initial one first. *)
Fixpoint sentTrace (env : Env) (sigs : list Signal) (p : Player) : list bool :=
  sent p ::
  match sigs with
  | [] => []
  | sig :: rest => sentTrace env rest (step env sig p).1
  end.

(** How many times a flag goes from false to true along a trace. *)
Fixpoint risingEdges (trace : list bool) : nat :=
  match trace with
  | [] => 0
  | b :: rest =>
      match rest with
      | b' :: _ => (if negb b && b' then 1 else 0) + risingEdges rest
      | [] => 0
      end
  end.

(** First write wins: a value that is there is still there afterwards. *)
Definition keptOnce (before after : option Q) : Prop :=
  forall v, before = Some v -> after = Some v.

(** A stall signal, and whether its handler acts on it given the element. *)
Definition isStall (sig : Signal) : bool :=
  match sig with
  | waiting | stalled => true
  | _ => false
  end.

Definition accepted (video : Video) (sig : Signal) : bool :=
  match sig with
  | waiting => negb (paused video) && (readyState video <? 3)
  | stalled => negb (paused video)
  | _ => false
  end.

(** The condition on which the specification has a stall signal enter
    Buffering: the element is not paused and its readiness is below 3. *)
Definition starving (video : Video) : bool :=
  negb (paused video) && (readyState video <? 3).

(** The stall signals of a run that find the element starving, the
    element being what the run has made of it by then. *)
Fixpoint genuineStalls (env : Env) (sigs : list Signal) (p : Player) : nat :=
  match sigs with
  | [] => 0
  | sig :: rest =>
      ((if isStall sig && from_option starving false (videoRef p) then 1 else 0)
       + genuineStalls env rest (step env sig p).1)%nat
  end.

(** No [stalled] signal of the run finds the element playing with
    readiness to spare. *)
Fixpoint noSpuriousStalled (env : Env) (sigs : list Signal) (p : Player) : bool :=
  match sigs with
  | [] => true
  | sig :: rest =>
      match sig, videoRef p with
      | stalled, Some video => paused video || (readyState video <? 3)
      | _, _ => true
      end
      && noSpuriousStalled env rest (step env sig p).1
  end.

(** The dispatch triggers that leave the session in place (the fifth,
    the source change, replaces it after its attempt). *)
Definition isTrigger (sig : Signal) : bool :=
  match sig with
  | ended | error_event | beforeunload | unmount => true
  | _ => false
  end.

(** A trigger that reaches its handler: the two events of the element
    need the element, the page-lifecycle triggers and the source change
    need nothing. *)
Definition fires (sig : Signal) (p : Player) : bool :=
  match sig with
  | ended | error_event => bool_decide (is_Some (videoRef p))
  | beforeunload | unmount | source_change _ _ => true
  | _ => false
  end.

(** A string of decimal digits. *)
Fixpoint isDecimal (s : string) : bool :=
  match s with
  | EmptyString => true
  | String c rest =>
      match Str.digit 10 c with
      | Some _ => isDecimal rest
      | None => false
      end
  end.

(** The test that [captureResourceTiming] filters the resource-timing
    entries with: the entry's name and the address without its query
    string, one a prefix of the other. *)
Definition resourceMatches (url : string) (entry : PerformanceResourceTiming) : bool :=
  Str.startsWith (Timing.name entry) (Str.before "?" url)
  || Str.startsWith (Str.before "?" url) (Timing.name entry).

(** Completed no later than. *)
Definition noLaterThan (a b : PerformanceResourceTiming) : Prop :=
  (Timing.responseEnd a <= Timing.responseEnd b)%Q.

(** The names under which [extractDeliverySource] looks for a cache
    status, in the order of its [||] chain. *)
Definition cacheHeaderNames : list string :=
  ["cf-cache-status"; "x-cache"; "x-cache-status"; "x-served-by"; "age"].

(** The reason code that each trigger passes to [sendPlaybackMetrics]. *)
Definition reasonOf (sig : Signal) : string :=
  match sig with
  | source_change _ _ => "source_change"
  | ended => "ended"
  | error_event => "error"
  | beforeunload => "beforeunload"
  | unmount => "unmount"
  | _ => EmptyString
  end.

(** The triggers that ask for a beacon. *)
Definition prefersBeacon (sig : Signal) : bool :=
  match sig with
  | beforeunload | unmount => true
  | _ => false
  end.

(** No character of the string satisfies [bad]. *)
Fixpoint noneOf (bad : ascii -> bool) (s : string) : bool :=
  match s with
  | EmptyString => true
  | String c rest => negb (bad c) && noneOf bad rest
  end.

(** A raw header block: the lines, each followed by CR LF but the last. *)
Fixpoint headerBlock (lines : list string) : string :=
  match lines with
  | [] => EmptyString
  | [line] => line
  | line :: others => line +:+ String "013" (String "010" (headerBlock others))
  end.

(** A header line as a response carries it: not empty and free of line
    breaks. *)
Definition isHeaderLine (line : string) : bool :=
  negb (String.eqb line EmptyString) && noneOf isLineBreak line.

(** ** Concrete inputs used by the examples below *)

(** A resource-timing entry with the given transfer, encoded and decoded
    sizes. *)
Definition entryOfSizes (transfer encoded decoded : N) : PerformanceResourceTiming :=
  {| Timing.name := "https://cdn.example/v/master.m3u8";
     Timing.responseEnd := 120;
     Timing.transferSize := transfer;
     Timing.encodedBodySize := encoded;
     Timing.decodedBodySize := decoded;
     Timing.nextHopProtocol := "h2" |}.

(** A desktop browser with a navigator, beacons, one resource-timing
    entry for the manifest, and the adaptive runtime available. *)
Definition browser : Env :=
  {| navigator :=
       Some {| userAgent := "Mozilla/5.0 (X11; Linux x86_64)";
               language := "en-US";
               connection :=
                 Some {| effectiveType := Some "4g"; downlink := Some 10%Q; rtt := Some 50%Q |};
               hasSendBeacon := true |};
     resourceEntries := Some [entryOfSizes 1040 1000 4000];
     videoId := Some "video-1";
     hlsSupported := true;
     nativeHls := false |}.

(** The same page rendered where no navigator exists. *)
Definition headless : Env :=
  {| navigator := None; resourceEntries := None; videoId := Some "video-1";
     hlsSupported := false; nativeHls := false |}.

(** An element that is playing and has run out of data. *)
Definition starved : Video :=
  {| paused := false; readyState := 2; currentTime := 42.5%Q;
     currentSrc := "https://cdn.example/v/master.m3u8" |}.

(** An element that is playing with data to spare. *)
Definition wellFed : Video :=
  {| paused := false; readyState := 4; currentTime := 42.5%Q;
     currentSrc := "https://cdn.example/v/master.m3u8" |}.

(** An element that is paused ten seconds in. *)
Definition onHold : Video :=
  {| paused := true; readyState := 4; currentTime := 10%Q;
     currentSrc := "https://cdn.example/v/master.m3u8" |}.

(** A session that renders a frame, ends, and then sees every other
    trigger fire. *)
Definition fullSession : list Signal :=
  [loadstart 5%Q; loadedmetadata 12%Q; play 15%Q; playing 20%Q; waiting; playing 31%Q;
   ended; error_event; beforeunload; unmount].

(** A session that is abandoned before its first frame. *)
Definition abandonedSession : list Signal :=
  [loadstart 5%Q; loadedmetadata 12%Q; play 15%Q; waiting; ended; error_event;
   beforeunload; unmount].

(** The player once the adaptive runtime is bound to a manifest source,
    with the given element. *)
Definition streaming (video : Video) : Player :=
  (run browser [source_change "session-1" 0%Q;
                attach_source "https://cdn.example/v/master.m3u8"]
     (mounted "session-0" 0%Q video)).1.

(** The inventory of Scenario A: 1080p, 720p and 480p at indices 0, 1, 2. *)
Definition ladder : list Level := [{| height := 1080 |}; {| height := 720 |}; {| height := 480 |}].

(** The player after the manifest was parsed and the runtime settled on
    the level of the given index. *)
Definition playingLevel (video : Video) (level : Z) : Player :=
  (run browser [MANIFEST_PARSED ladder; runtime_update level level level;
                LEVEL_SWITCHED level]
     (streaming video)).1.

(** The paused element after the viewer dragged it to fifty seconds. *)
Definition dragged : Video :=
  {| paused := true; readyState := 4; currentTime := 50%Q;
     currentSrc := "https://cdn.example/v/master.m3u8" |}.

(** * Theorems *)

(** ** Double-precision numbers *)

Lemma pow2_pos e : (0 < Double.pow2 e)%Q.
Proof. apply Qpower_0_lt. reflexivity. Qed.

Lemma pow2_plus a b : (Double.pow2 (a + b) == Double.pow2 a * Double.pow2 b)%Q.
Proof. apply Qpower_plus. discriminate. Qed.

Lemma pow2_le a b : a <= b -> (Double.pow2 a <= Double.pow2 b)%Q.
Proof. intros H. apply Qpower_le_compat_l; [exact H|discriminate]. Qed.

Lemma pow2_lt a b : a < b -> (Double.pow2 a < Double.pow2 b)%Q.
Proof. intros H. apply Qpower_lt_compat_l; [exact H|reflexivity]. Qed.

Lemma pow2_Z k : 0 <= k -> (Double.pow2 k == inject_Z (2 ^ k))%Q.
Proof. intros H. symmetry. apply (Zpower_Qpower 2 k H). Qed.

Lemma pow2_succ e : (Double.pow2 (e + 1) == 2 * Double.pow2 e)%Q.
Proof. rewrite pow2_plus. change (Double.pow2 1) with 2%Q. ring. Qed.

(** Comparing two quotients of positive integers. *)
Lemma Zdiv_le_div p q r s :
  0 < q -> 0 < s -> p * s <= r * q ->
  (inject_Z p / inject_Z q <= inject_Z r / inject_Z s)%Q.
Proof.
  intros Hq Hs H.
  assert (Hq' : (0 < inject_Z q)%Q) by (rewrite <- (Zlt_Qlt 0); exact Hq).
  assert (Hs' : (0 < inject_Z s)%Q) by (rewrite <- (Zlt_Qlt 0); exact Hs).
  apply Qle_shift_div_l; [exact Hs'|].
  setoid_replace (inject_Z p / inject_Z q * inject_Z s)%Q
    with (inject_Z p * inject_Z s / inject_Z q)%Q using relation Qeq by (field; lra).
  apply Qle_shift_div_r; [exact Hq'|].
  rewrite <- !inject_Z_mult, <- Zle_Qle. exact H.
Qed.

Lemma Zdiv_lt_div p q r s :
  0 < q -> 0 < s -> p * s < r * q ->
  (inject_Z p / inject_Z q < inject_Z r / inject_Z s)%Q.
Proof.
  intros Hq Hs H.
  assert (Hq' : (0 < inject_Z q)%Q) by (rewrite <- (Zlt_Qlt 0); exact Hq).
  assert (Hs' : (0 < inject_Z s)%Q) by (rewrite <- (Zlt_Qlt 0); exact Hs).
  apply Qlt_shift_div_l; [exact Hs'|].
  setoid_replace (inject_Z p / inject_Z q * inject_Z s)%Q
    with (inject_Z p * inject_Z s / inject_Z q)%Q using relation Qeq by (field; lra).
  apply Qlt_shift_div_r; [exact Hq'|].
  rewrite <- !inject_Z_mult, <- Zlt_Qlt. exact H.
Qed.

Lemma pow2_minus_Z a b :
  0 <= a -> 0 <= b ->
  (Double.pow2 (a - b) == inject_Z (2 ^ a) / inject_Z (2 ^ b))%Q.
Proof.
  intros Ha Hb. unfold Double.pow2. rewrite Qpower_minus by discriminate.
  rewrite <- !(Zpower_Qpower 2) by assumption. reflexivity.
Qed.

Lemma binade_spec x :
  (0 < x)%Q ->
  (Double.pow2 (Double.binade x) <= x < Double.pow2 (Double.binade x + 1))%Q.
Proof.
  intros Hx.
  assert (Hn : 0 < Qnum x).
  { unfold Qlt in Hx. cbn in Hx. lia. }
  pose proof (Z.log2_spec (Qnum x) Hn) as Ha.
  pose proof (Z.log2_spec (Z.pos (Qden x)) ltac:(lia)) as Hb.
  pose proof (Z.log2_nonneg (Qnum x)) as Ha0.
  pose proof (Z.log2_nonneg (Z.pos (Qden x))) as Hb0.
  set (a := Z.log2 (Qnum x)) in *. set (b := Z.log2 (Z.pos (Qden x))) in *.
  assert (Hx' : (x == inject_Z (Qnum x) / inject_Z (Z.pos (Qden x)))%Q).
  { destruct x as [n d]. apply Qmake_Qdiv. }
  assert (Hpa : 0 < 2 ^ a) by (apply Z.pow_pos_nonneg; lia).
  assert (Hpb : 0 < 2 ^ b) by (apply Z.pow_pos_nonneg; lia).
  assert (Hsa : 2 ^ Z.succ a = 2 * 2 ^ a) by (apply Z.pow_succ_r; lia).
  assert (Hsb : 2 ^ Z.succ b = 2 * 2 ^ b) by (apply Z.pow_succ_r; lia).
  assert (Hlow : (Double.pow2 (a - b - 1) <= x)%Q).
  { replace (a - b - 1) with (a - Z.succ b) by lia.
    rewrite pow2_minus_Z by lia. rewrite Hx'.
    apply Zdiv_le_div; [lia|lia|]. nia. }
  assert (Hhigh : (x < Double.pow2 (a - b + 1))%Q).
  { replace (a - b + 1) with (Z.succ a - b) by lia.
    rewrite pow2_minus_Z by lia. rewrite Hx' at 1.
    apply Zdiv_lt_div; [lia|lia|]. nia. }
  unfold Double.binade. fold a b.
  destruct (Qle_bool (Double.pow2 (a - b)) x) eqn:Hle.
  - apply Qle_bool_iff in Hle. split; assumption.
  - split; [exact Hlow|].
    replace (a - b - 1 + 1) with (a - b) by lia.
    apply Qnot_le_lt. intros H. apply Qle_bool_iff in H. congruence.
Qed.

Lemma binade_unique e x :
  (Double.pow2 e <= x < Double.pow2 (e + 1))%Q -> Double.binade x = e.
Proof.
  intros [Hlow Hhigh].
  assert (Hx : (0 < x)%Q) by (pose proof (pow2_pos e); lra).
  destruct (binade_spec x Hx) as [Hlow' Hhigh'].
  destruct (Z.lt_trichotomy (Double.binade x) e) as [H | [H | H]]; [|exact H|].
  - pose proof (pow2_le (Double.binade x + 1) e ltac:(lia)). lra.
  - pose proof (pow2_le (e + 1) (Double.binade x) ltac:(lia)). lra.
Qed.

Lemma binade_monotone x y :
  (0 < x)%Q -> (x <= y)%Q -> Double.binade x <= Double.binade y.
Proof.
  intros Hx Hxy.
  destruct (binade_spec x Hx) as [Hlow _].
  destruct (binade_spec y ltac:(lra)) as [_ Hhigh].
  destruct (Z.le_gt_cases (Double.binade x) (Double.binade y)) as [H | H]; [exact H|].
  pose proof (pow2_le (Double.binade y + 1) (Double.binade x) ltac:(lia)). lra.
Qed.

Lemma nearestEven_floor x :
  Qfloor x <= Double.nearestEven x <= Qfloor x + 1.
Proof.
  unfold Double.nearestEven.
  destruct (_ ?= _)%Q; [destruct (Z.even _)| |]; lia.
Qed.

Lemma nearestEven_bounds x :
  (x - (1 # 2) <= inject_Z (Double.nearestEven x) <= x + (1 # 2))%Q.
Proof.
  pose proof (Qfloor_le x) as Hlow. pose proof (Qlt_floor x) as Hhigh.
  rewrite inject_Z_plus in Hhigh. change (inject_Z 1) with 1%Q in Hhigh.
  unfold Double.nearestEven.
  destruct (Qcompare_spec (x - inject_Z (Qfloor x)) (1 # 2)) as [H | H | H];
    [destruct (Z.even _)| |];
    rewrite ?inject_Z_plus; change (inject_Z 1) with 1%Q; lra.
Qed.

Lemma nearestEven_monotone x y :
  (x <= y)%Q -> Double.nearestEven x <= Double.nearestEven y.
Proof.
  intros Hxy.
  pose proof (Qfloor_resp_le x y Hxy) as Hf.
  destruct (Z.eq_dec (Qfloor x) (Qfloor y)) as [Heq | Hne].
  - unfold Double.nearestEven. rewrite Heq.
    destruct (Qcompare_spec (x - inject_Z (Qfloor y)) (1 # 2)) as [H | H | H];
      destruct (Qcompare_spec (y - inject_Z (Qfloor y)) (1 # 2)) as [H' | H' | H'];
      try destruct (Z.even _); try lia; exfalso; lra.
  - pose proof (nearestEven_floor x). pose proof (nearestEven_floor y). lia.
Qed.

Lemma nearestEven_Z z : Double.nearestEven (inject_Z z) = z.
Proof.
  unfold Double.nearestEven. rewrite Qfloor_Z.
  destruct (Qcompare_spec (inject_Z z - inject_Z z) (1 # 2)) as [H | H | H];
    [exfalso; lra|reflexivity|exfalso; lra].
Qed.

Lemma nearestEven_comp x y : (x == y)%Q -> Double.nearestEven x = Double.nearestEven y.
Proof.
  intros H. apply Z.le_antisymm; apply nearestEven_monotone; lra.
Qed.

Lemma ulp_pos x : (0 < Double.ulp x)%Q.
Proof. apply pow2_pos. Qed.

(** Above a positive [x]: the end of its binade, 2^53 spacings up. *)
Lemma ulp_above x :
  (0 < x)%Q -> (x < inject_Z (2 ^ 53) * Double.ulp x)%Q.
Proof.
  intros Hx. destruct (binade_spec x Hx) as [_ Hhigh].
  unfold Double.ulp. rewrite <- (pow2_Z 53) by lia. rewrite <- pow2_plus.
  pose proof (pow2_le (Double.binade x + 1)
                (53 + (Z.max (Double.binade x) (-1022) - 52)) ltac:(lia)).
  lra.
Qed.

(** Below a positive normal [x]: the start of its binade, 2^52 spacings. *)
Lemma ulp_below x :
  (Double.pow2 (-1022) <= x)%Q -> (inject_Z (2 ^ 52) * Double.ulp x <= x)%Q.
Proof.
  intros Hx.
  assert (Hpos : (0 < x)%Q) by (pose proof (pow2_pos (-1022)); lra).
  destruct (binade_spec x Hpos) as [Hlow Hhigh].
  assert (Hb : -1022 <= Double.binade x).
  { destruct (Z.le_gt_cases (-1022) (Double.binade x)) as [H | H]; [exact H|].
    pose proof (pow2_le (Double.binade x + 1) (-1022) ltac:(lia)). lra. }
  unfold Double.ulp. rewrite <- (pow2_Z 52) by lia. rewrite <- pow2_plus.
  replace (52 + (Z.max (Double.binade x) (-1022) - 52)) with (Double.binade x) by lia.
  exact Hlow.
Qed.

Lemma nearestPositive_bounds x :
  (0 < x)%Q ->
  (x - Double.ulp x / 2 <= Double.nearestPositive x <= x + Double.ulp x / 2)%Q.
Proof.
  intros Hx. unfold Double.nearestPositive.
  pose proof (ulp_pos x) as Hu.
  destruct (nearestEven_bounds (x / Double.ulp x)) as [Hlow Hhigh].
  assert (Hx' : (x / Double.ulp x * Double.ulp x == x)%Q) by (field; lra).
  revert Hlow Hhigh Hx'.
  generalize (inject_Z (Double.nearestEven (x / Double.ulp x))).
  generalize (x / Double.ulp x)%Q. revert Hu. generalize (Double.ulp x).
  intros u Hu q m Hlow Hhigh Hx'.
  apply (Qmult_le_compat_r _ _ u) in Hlow; [|lra].
  apply (Qmult_le_compat_r _ _ u) in Hhigh; [|lra].
  assert (Elow : ((q - (1 # 2)) * u == q * u - u / 2)%Q) by field.
  assert (Ehigh : ((q + (1 # 2)) * u == q * u + u / 2)%Q) by field.
  rewrite Elow in Hlow. rewrite Ehigh in Hhigh. rewrite Hx' in Hlow, Hhigh.
  split; assumption.
Qed.

Lemma nearestPositive_upper x :
  (0 < x)%Q -> (Double.nearestPositive x <= inject_Z (2 ^ 53) * Double.ulp x)%Q.
Proof.
  intros Hx. unfold Double.nearestPositive.
  pose proof (ulp_pos x) as Hu. pose proof (ulp_above x Hx) as Hhigh.
  apply Qmult_le_compat_r; [|lra].
  rewrite <- Zle_Qle. rewrite <- (nearestEven_Z (2 ^ 53)).
  apply nearestEven_monotone. apply Qle_shift_div_r; lra.
Qed.

Lemma nearestPositive_lower x :
  (Double.pow2 (-1022) <= x)%Q ->
  (inject_Z (2 ^ 52) * Double.ulp x <= Double.nearestPositive x)%Q.
Proof.
  intros Hx. unfold Double.nearestPositive.
  pose proof (ulp_pos x) as Hu. pose proof (ulp_below x Hx) as Hlow.
  apply Qmult_le_compat_r; [|lra].
  rewrite <- Zle_Qle. rewrite <- (nearestEven_Z (2 ^ 52)).
  apply nearestEven_monotone. apply Qle_shift_div_l; lra.
Qed.

Lemma nearestPositive_nonneg x : (0 < x)%Q -> (0 <= Double.nearestPositive x)%Q.
Proof.
  intros Hx. unfold Double.nearestPositive. pose proof (ulp_pos x) as Hu.
  apply Qmult_le_0_compat; [|lra].
  rewrite <- (Zle_Qle 0). rewrite <- (nearestEven_Z 0).
  apply nearestEven_monotone. change (inject_Z 0) with 0%Q.
  apply Qle_shift_div_l; lra.
Qed.

Lemma nearestPositive_monotone x y :
  (0 < x)%Q -> (x <= y)%Q -> (Double.nearestPositive x <= Double.nearestPositive y)%Q.
Proof.
  intros Hx Hxy.
  assert (Hy : (0 < y)%Q) by lra.
  pose proof (binade_monotone x y Hx Hxy) as Hb.
  destruct (Z.eq_dec (Z.max (Double.binade x) (-1022)) (Z.max (Double.binade y) (-1022)))
    as [Heq | Hne].
  - unfold Double.nearestPositive, Double.ulp. rewrite Heq.
    set (u := Double.pow2 _). assert (Hu : (0 < u)%Q) by apply pow2_pos.
    apply Qmult_le_compat_r; [|lra].
    rewrite <- Zle_Qle. apply nearestEven_monotone.
    apply Qle_shift_div_l; [exact Hu|].
    setoid_replace (x / u * u)%Q with x using relation Qeq by (field; lra). exact Hxy.
  - assert (Hnormal : -1022 < Double.binade y /\ Z.max (Double.binade x) (-1022) < Double.binade y)
      by lia.
    destruct Hnormal as [Hn Hlt].
    pose proof (nearestPositive_upper x Hx) as Hup.
    assert (Hy' : (Double.pow2 (-1022) <= y)%Q).
    { destruct (binade_spec y Hy) as [Hlow _].
      pose proof (pow2_le (-1022) (Double.binade y) ltac:(lia)). lra. }
    pose proof (nearestPositive_lower y Hy') as Hlow.
    unfold Double.ulp in Hup, Hlow.
    rewrite <- (pow2_Z 53), <- pow2_plus in Hup by lia.
    rewrite <- (pow2_Z 52), <- pow2_plus in Hlow by lia.
    pose proof (pow2_le (53 + (Z.max (Double.binade x) (-1022) - 52))
                  (52 + (Z.max (Double.binade y) (-1022) - 52)) ltac:(lia)).
    lra.
Qed.

Lemma nearest_positive x : (0 < x)%Q -> Double.nearest x = Double.nearestPositive x.
Proof.
  intros Hx. unfold Double.nearest.
  destruct (Qcompare_spec x 0) as [H | H | H]; [exfalso; lra|exfalso; lra|reflexivity].
Qed.

Lemma nearest_zero x : (x == 0)%Q -> Double.nearest x = 0%Q.
Proof.
  intros Hx. unfold Double.nearest.
  destruct (Qcompare_spec x 0) as [H | H | H]; [reflexivity|exfalso; lra|exfalso; lra].
Qed.

Lemma nearest_nonneg x : (0 <= x)%Q -> (0 <= Double.nearest x)%Q.
Proof.
  intros Hx. destruct (Qlt_le_dec 0 x) as [H | H].
  - rewrite nearest_positive by exact H. apply nearestPositive_nonneg, H.
  - rewrite nearest_zero by lra. lra.
Qed.

(** Rounding keeps the order of numbers that are not negative. *)
Lemma nearest_monotone x y :
  (0 <= x)%Q -> (x <= y)%Q -> (Double.nearest x <= Double.nearest y)%Q.
Proof.
  intros Hx Hxy. destruct (Qlt_le_dec 0 x) as [H | H].
  - rewrite !nearest_positive by lra. apply nearestPositive_monotone; assumption.
  - rewrite (nearest_zero x) by lra. apply nearest_nonneg. lra.
Qed.

Lemma nearest_comp x y :
  (0 <= x)%Q -> (x == y)%Q -> (Double.nearest x == Double.nearest y)%Q.
Proof.
  intros Hx H. apply Qle_antisym; apply nearest_monotone; lra.
Qed.

(** Rounding moves a positive number by half a spacing at most. *)
Lemma nearest_error x :
  (0 < x)%Q ->
  (x - Double.ulp x / 2 <= Double.nearest x <= x + Double.ulp x / 2)%Q.
Proof.
  intros Hx. rewrite nearest_positive by exact Hx. apply nearestPositive_bounds, Hx.
Qed.

(** In the normal range the spacing is at most 2^-52 of the number. *)
Lemma ulp_relative x :
  (Double.pow2 (-1022) <= x)%Q -> (Double.ulp x <= x * Double.pow2 (-52))%Q.
Proof.
  intros Hx. pose proof (ulp_below x Hx) as H.
  assert (Hp : (Double.pow2 (-52) * inject_Z (2 ^ 52) == 1)%Q) by reflexivity.
  pose proof (ulp_pos x) as Hu. pose proof (pow2_pos (-52)) as Hp'.
  apply (Qmult_le_compat_r _ _ (Double.pow2 (-52))) in H; [|lra].
  setoid_replace (inject_Z (2 ^ 52) * Double.ulp x * Double.pow2 (-52))%Q
    with (Double.ulp x * (Double.pow2 (-52) * inject_Z (2 ^ 52)))%Q using relation Qeq in H by ring.
  rewrite Hp in H. lra.
Qed.

(** A number that rounding leaves alone is a whole number of spacings. *)
Lemma nearest_exact_multiple x :
  (0 < x)%Q -> (Double.nearest x == x)%Q ->
  (x == inject_Z (Double.nearestEven (x / Double.ulp x)) * Double.ulp x)%Q.
Proof.
  intros Hx H. rewrite nearest_positive in H by exact Hx. symmetry. exact H.
Qed.

(** Integers up to 2^53 are doubles. *)
Lemma nearest_Z z : 0 <= z <= 2 ^ 53 -> (Double.nearest (inject_Z z) == inject_Z z)%Q.
Proof.
  intros [Hlow Hhigh].
  destruct (Z.eq_dec z 0) as [-> | Hz]; [reflexivity|].
  assert (Hpos : (0 < inject_Z z)%Q) by (rewrite <- (Zlt_Qlt 0); lia).
  rewrite nearest_positive by exact Hpos.
  assert (Hb : Double.binade (inject_Z z) = Z.log2 z).
  { apply binade_unique. pose proof (Z.log2_spec z ltac:(lia)) as Hspec.
    pose proof (Z.log2_nonneg z).
    rewrite !pow2_Z by lia. rewrite <- Zle_Qle, <- Zlt_Qlt.
    replace (Z.log2 z + 1) with (Z.succ (Z.log2 z)) by lia. exact Hspec. }
  pose proof (Z.log2_nonneg z) as Hl0.
  assert (Hl : Z.log2 z <= 53).
  { pose proof (Z.log2_le_mono z (2 ^ 53) Hhigh) as H.
    rewrite Z.log2_pow2 in H by lia. exact H. }
  unfold Double.nearestPositive, Double.ulp. rewrite Hb.
  replace (Z.max (Z.log2 z) (-1022)) with (Z.log2 z) by lia.
  destruct (Z.eq_dec (Z.log2 z) 53) as [H53 | H53].
  - assert (z = 2 ^ 53).
    { pose proof (Z.log2_spec z ltac:(lia)) as [Hspec _]. rewrite H53 in Hspec. lia. }
    subst z. rewrite H53. reflexivity.
  - set (k := 52 - Z.log2 z).
    assert (Hk : 0 <= k) by (unfold k; lia).
    replace (Z.log2 z - 52) with (- k) by (unfold k; lia).
    assert (Hu : (Double.pow2 (- k) == / inject_Z (2 ^ k))%Q).
    { unfold Double.pow2. rewrite Qpower_opp. rewrite <- (Zpower_Qpower 2) by lia.
      reflexivity. }
    assert (Hpk : (0 < inject_Z (2 ^ k))%Q).
    { rewrite <- (Zlt_Qlt 0). apply Z.pow_pos_nonneg; lia. }
    assert (Hq : (inject_Z z / Double.pow2 (- k) == inject_Z (z * 2 ^ k))%Q).
    { rewrite Hu, inject_Z_mult. field. lra. }
    rewrite (nearestEven_comp _ _ Hq), nearestEven_Z, Hu, inject_Z_mult.
    field. lra.
Qed.

Lemma inject_Z_nonneg z : 0 <= z -> (0 <= inject_Z z)%Q.
Proof. intros H. change 0%Q with (inject_Z 0). rewrite <- Zle_Qle. exact H. Qed.

Lemma inject_Z_pos z : 0 < z -> (0 < inject_Z z)%Q.
Proof. intros H. change 0%Q with (inject_Z 0). rewrite <- Zlt_Qlt. exact H. Qed.

Lemma Qltb_true a b : Qltb a b = true <-> (a < b)%Q.
Proof.
  unfold Qltb. destruct (Qle_bool b a) eqn:H; cbn [negb]; split; intros H';
    try discriminate; try reflexivity.
  - apply Qle_bool_iff in H. exfalso. eapply Qlt_not_le; eassumption.
  - apply Qnot_le_lt. intros Hle. apply Qle_bool_iff in Hle. congruence.
Qed.

Lemma Qltb_false a b : Qltb a b = false <-> (b <= a)%Q.
Proof.
  unfold Qltb. destruct (Qle_bool b a) eqn:H; cbn [negb]; split; intros H';
    try discriminate; try reflexivity.
  - apply Qle_bool_iff, H.
  - apply Qle_bool_iff in H'. congruence.
Qed.

(** A result strictly inside the range of the doubles is finite. *)
Lemma round_num x :
  (- Double.pow2 1024 < Double.nearest x < Double.pow2 1024)%Q ->
  Double.round x = num (Double.nearest x).
Proof.
  intros [Hlow Hhigh]. unfold Double.round.
  destruct (Qle_bool (Double.pow2 1024) (Double.nearest x)) eqn:H1.
  { apply Qle_bool_iff in H1. exfalso. lra. }
  destruct (Qle_bool (Double.nearest x) (- Double.pow2 1024)) eqn:H2.
  { apply Qle_bool_iff in H2. exfalso. lra. }
  reflexivity.
Qed.

Lemma nearest_nonpos x : (x <= 0)%Q -> (Double.nearest x <= 0)%Q.
Proof.
  intros Hx. unfold Double.nearest.
  destruct (Qcompare_spec x 0) as [H | H | H]; [lra| |exfalso; lra].
  pose proof (nearestPositive_nonneg (- x) ltac:(lra)). lra.
Qed.

(** What an operation yields: the nearest double, or an infinity when
    that lies beyond the largest double. *)
Lemma round_cases x :
  (Double.round x = num (Double.nearest x)
   /\ (- Double.pow2 1024 < Double.nearest x < Double.pow2 1024)%Q)
  \/ (Double.round x = Infinity /\ (Double.pow2 1024 <= Double.nearest x)%Q)
  \/ (Double.round x = NegInfinity /\ (Double.nearest x <= - Double.pow2 1024)%Q).
Proof.
  unfold Double.round.
  destruct (Qle_bool (Double.pow2 1024) (Double.nearest x)) eqn:H1.
  { right. left. split; [reflexivity|]. apply Qle_bool_iff, H1. }
  destruct (Qle_bool (Double.nearest x) (- Double.pow2 1024)) eqn:H2.
  { right. right. split; [reflexivity|]. apply Qle_bool_iff, H2. }
  left. split; [reflexivity|]. split; apply Qnot_le_lt; intros H;
    apply Qle_bool_iff in H; congruence.
Qed.

(** Rounding keeps a number that is not negative below a double above it. *)
Lemma nearest_bounded x b :
  (0 <= x <= b)%Q -> (Double.nearest b == b)%Q -> (0 <= Double.nearest x <= b)%Q.
Proof.
  intros [Hlow Hhigh] Hb. split; [apply nearest_nonneg, Hlow|].
  rewrite <- Hb. apply nearest_monotone; assumption.
Qed.

Lemma round_bounded x b :
  (0 <= x <= b)%Q -> (Double.nearest b == b)%Q -> (b < Double.pow2 1024)%Q ->
  Double.round x = num (Double.nearest x) /\ (0 <= Double.nearest x <= b)%Q.
Proof.
  intros Hx Hb Hfinite. pose proof (nearest_bounded x b Hx Hb) as Hr.
  split; [|exact Hr]. apply round_num.
  pose proof (pow2_pos 1024). lra.
Qed.

Lemma isDouble_spec d :
  Double.isDouble d = true -> (0 <= d)%Q ->
  (Double.nearest d == d)%Q /\ (d < Double.pow2 1024)%Q.
Proof.
  unfold Double.isDouble. intros H Hd. apply andb_true_iff in H as [Heq Hlt].
  split; [apply Qeq_bool_iff, Heq|].
  apply Qnot_le_lt. intros Hle. rewrite <- (Qabs_pos d Hd) in Hle.
  apply Qle_bool_iff in Hle. rewrite Hle in Hlt. discriminate.
Qed.

(** ** The classifier *)

Lemma toNumber_exact n :
  (n <= 2 ^ 53)%N -> (toNumber n == inject_Z (Z.of_N n))%Q.
Proof.
  intros Hn. unfold toNumber. apply nearest_Z.
  split; [lia|]. change (2 ^ 53) with (Z.of_N (2 ^ 53)). lia.
Qed.

Lemma toNumber_large n :
  (2 ^ 53 <= n)%N -> (inject_Z (2 ^ 53) <= toNumber n)%Q.
Proof.
  intros Hn. unfold toNumber.
  rewrite <- (nearest_Z (2 ^ 53)) at 1 by lia.
  apply nearest_monotone.
  - apply inject_Z_nonneg. lia.
  - rewrite <- Zle_Qle. change (2 ^ 53) with (Z.of_N (2 ^ 53)). lia.
Qed.

(** With a positive encoded size below 2^49 bytes the quotient of
    doubles is below the double 1.05 exactly when twenty times the
    network bytes stay below twenty-one times the encoded bytes. *)
Lemma sizeRatio_below (entry : PerformanceResourceTiming) :
  (0 < Timing.encodedBodySize entry < 2 ^ 49)%N ->
  Qltb (sizeRatio entry) (Double.nearest (105 # 100))
  = (20 * Timing.transferSize entry <? 21 * Timing.encodedBodySize entry)%N.
Proof.
  intros [Hpos Hsmall]. unfold sizeRatio.
  set (t := Timing.transferSize entry) in *. set (e := Timing.encodedBodySize entry) in *.
  assert (He : (toNumber e == inject_Z (Z.of_N e))%Q).
  { apply toNumber_exact. change (2 ^ 53)%N with 9007199254740992%N.
    change (2 ^ 49)%N with 562949953421312%N in Hsmall. lia. }
  assert (He0 : (0 < inject_Z (Z.of_N e))%Q) by (apply inject_Z_pos; lia).
  assert (Ht0 : (0 <= toNumber t)%Q).
  { unfold toNumber. apply nearest_nonneg. apply inject_Z_nonneg. lia. }
  assert (Hq0 : (0 <= toNumber t / toNumber e)%Q).
  { rewrite He. apply Qle_shift_div_l; [exact He0|]. lra. }
  destruct (N.le_gt_cases t (2 ^ 53)) as [Hexact | Hlarge].
  - assert (Ht : (toNumber t == inject_Z (Z.of_N t))%Q) by (apply toNumber_exact, Hexact).
    assert (Hq : (toNumber t / toNumber e
                  == inject_Z (Z.of_N t) / inject_Z (Z.of_N e))%Q)
      by (rewrite Ht, He; reflexivity).
    destruct (N.ltb_spec (20 * t) (21 * e)) as [Hlt | Hge].
    + apply Qltb_true.
      apply Qle_lt_trans with (Double.nearest (9457559217478041 # 9007199254740992)).
      * apply nearest_monotone; [exact Hq0|]. rewrite Hq.
        apply Qle_shift_div_r; [exact He0|].
        rewrite (Qmake_Qdiv 9457559217478041 9007199254740992).
        unfold Qdiv. rewrite <- Qmult_assoc, (Qmult_comm (/ _)), Qmult_assoc.
        apply Qle_shift_div_l; [reflexivity|].
        rewrite <- !inject_Z_mult, <- Zle_Qle.
        change (2 ^ 49)%N with 562949953421312%N in Hsmall. lia.
      * apply Qltb_true. vm_compute. reflexivity.
    + apply Qltb_false. apply nearest_monotone; [discriminate|]. rewrite Hq.
      apply Qle_shift_div_l; [exact He0|].
      rewrite (Qmake_Qdiv 105 100). unfold Qdiv.
      rewrite <- Qmult_assoc, (Qmult_comm (/ _)), Qmult_assoc.
      apply Qle_shift_div_r; [reflexivity|].
      rewrite <- !inject_Z_mult, <- Zle_Qle. lia.
  - assert (Ht : (inject_Z (2 ^ 53) <= toNumber t)%Q) by (apply toNumber_large; lia).
    assert (Hge : (20 * t <? 21 * e)%N = false).
    { apply N.ltb_ge. change (2 ^ 49)%N with 562949953421312%N in Hsmall.
      change (2 ^ 53)%N with 9007199254740992%N in Hlarge. lia. }
    rewrite Hge. apply Qltb_false.
    apply Qle_trans with (Double.nearest 16).
    + vm_compute. discriminate.
    + apply nearest_monotone; [discriminate|]. rewrite He.
      apply Qle_shift_div_l; [exact He0|].
      assert (Hbound : (16 * inject_Z (Z.of_N e) <= inject_Z (2 ^ 53))%Q).
      { change 16%Q with (inject_Z 16). rewrite <- inject_Z_mult, <- Zle_Qle.
        change (2 ^ 49)%N with 562949953421312%N in Hsmall.
        change (2 ^ 53) with 9007199254740992. lia. }
      lra.
Qed.

(** C5, as amended: the size heuristic, case by case, for encoded body
    sizes below 2^49 bytes, where the quotient of doubles stands on the
    same side of the double 1.05 as the exact quotient does of 105/100.
    The entry may be absent; the function is total, so it has a result on
    every input. *)
Theorem classifyDeliverySource_cases (entry : option PerformanceResourceTiming) :
  (forall e, entry = Some e -> (Timing.encodedBodySize e < 2 ^ 49)%N) ->
  classifyDeliverySource entry =
  match entry with
  | None => None
  | Some e =>
      if (Timing.transferSize e =? 0)%N then
        if (0 <? Timing.decodedBodySize e)%N then Some disk_cache else None
      else if (Timing.encodedBodySize e =? 0)%N then None
      else if (20 * Timing.transferSize e <? 21 * Timing.encodedBodySize e)%N
           then Some edge_cache
           else Some origin
  end.
Proof.
  intros Hsize.
  destruct entry as [e|]; [|reflexivity]. specialize (Hsize e eq_refl).
  unfold classifyDeliverySource.
  destruct (N.eqb_spec (Timing.transferSize e) 0) as [Ht|Ht].
  - rewrite Ht. cbn [andb N.ltb N.compare].
    destruct (0 <? Timing.decodedBodySize e)%N; reflexivity.
  - cbn [andb].
    assert (H0 : (0 <? Timing.transferSize e)%N = true) by (apply N.ltb_lt; lia).
    rewrite H0. cbn [andb].
    destruct (N.eqb_spec (Timing.encodedBodySize e) 0) as [He|He].
    + rewrite He. reflexivity.
    + assert (H1 : (0 <? Timing.encodedBodySize e)%N = true) by (apply N.ltb_lt; lia).
      rewrite H1, sizeRatio_below by lia. reflexivity.
Qed.

(** The theorem at the manifest entry of the example page. *)
Lemma classifyDeliverySource_cases_witness :
  classifyDeliverySource (Some (entryOfSizes 1040 1000 4000)) = Some edge_cache.
Proof.
  rewrite (classifyDeliverySource_cases (Some (entryOfSizes 1040 1000 4000))).
  - reflexivity.
  - intros e [= <-]. vm_compute. reflexivity.
Defined.

(** Beyond that size the double quotient can fall on the other side:
    twenty times the network bytes are below twenty-one times the encoded
    bytes, and the quotient rounds up to the double 1.05. *)
Example classifyDeliverySource_large_sizes :
  let entry := entryOfSizes 4728779608739026 4503599627370501 1 in
  (20 * Timing.transferSize entry <? 21 * Timing.encodedBodySize entry)%N = true
  /\ classifyDeliverySource (Some entry) = Some origin.
Proof. vm_compute. split; reflexivity. Qed.

(** C5, as stated, fails: a nonzero transfer size with no encoded size is
    left unclassified where the claim says [origin], and a transfer far
    below the encoded size is [edge_cache] although it is not within 5%
    of it. *)
Lemma classifyDeliverySource_not_as_specified :
  classifyDeliverySource (Some (entryOfSizes 5 0 0)) = None
  /\ classifyDelivery_as_specified (Some (entryOfSizes 5 0 0)) = Some origin
  /\ classifyDeliverySource (Some (entryOfSizes 300 1000 1000)) = Some edge_cache
  /\ classifyDelivery_as_specified (Some (entryOfSizes 300 1000 1000)) = Some origin.
Proof. repeat split; reflexivity. Qed.

(** ** The telemetry session *)

(** [captureResourceTiming] touches the transfer fields and the delivery
    source only. *)
Lemma captureResourceTiming_frame env url state :
  let state' := captureResourceTiming env url state in
  sessionId state' = sessionId state
  /\ mountTime state' = mountTime state
  /\ manifestRequestedAt state' = manifestRequestedAt state
  /\ manifestLoadedAt state' = manifestLoadedAt state
  /\ playbackRequestedAt state' = playbackRequestedAt state
  /\ firstFrameAt state' = firstFrameAt state
  /\ bufferingEvents state' = bufferingEvents state
  /\ metricsSent state' = metricsSent state.
Proof.
  unfold captureResourceTiming.
  destruct (resourceEntries env) as [entries|]; [|done].
  destruct (String.eqb url EmptyString); [done|].
  destruct (head _) as [found|]; [|done]. cbn [deliverySource set_transfer].
  destruct (deliverySource state); done.
Qed.

Lemma sendPlaybackMetrics_result env reason preferBeacon state :
  SendResult env reason preferBeacon state
    (sendPlaybackMetrics env reason preferBeacon state).
Proof.
  unfold sendPlaybackMetrics.
  destruct (metricsSent state) eqn:Hsent; [constructor; auto|].
  destruct (constructPayload env reason state) as [payload|] eqn:Hpayload;
    [|constructor; auto].
  destruct (preferBeacon && _); econstructor; eauto.
Qed.

Lemma constructPayload_needs_firstFrame env reason state payload :
  constructPayload env reason state = Some payload ->
  falsy_number (firstFrameAt state) = false.
Proof.
  unfold constructPayload. destruct (falsy_number (firstFrameAt state)); done.
Qed.

Lemma capture_sessionId env url s :
  sessionId (captureResourceTiming env url s) = sessionId s.
Proof. apply (captureResourceTiming_frame env url s). Qed.

Lemma capture_manifestRequestedAt env url s :
  manifestRequestedAt (captureResourceTiming env url s) = manifestRequestedAt s.
Proof. apply (captureResourceTiming_frame env url s). Qed.

Lemma capture_manifestLoadedAt env url s :
  manifestLoadedAt (captureResourceTiming env url s) = manifestLoadedAt s.
Proof. apply (captureResourceTiming_frame env url s). Qed.

Lemma capture_playbackRequestedAt env url s :
  playbackRequestedAt (captureResourceTiming env url s) = playbackRequestedAt s.
Proof. apply (captureResourceTiming_frame env url s). Qed.

Lemma capture_firstFrameAt env url s :
  firstFrameAt (captureResourceTiming env url s) = firstFrameAt s.
Proof. apply (captureResourceTiming_frame env url s). Qed.

Lemma capture_bufferingEvents env url s :
  bufferingEvents (captureResourceTiming env url s) = bufferingEvents s.
Proof. apply (captureResourceTiming_frame env url s). Qed.

Lemma capture_metricsSent env url s :
  metricsSent (captureResourceTiming env url s) = metricsSent s.
Proof. apply (captureResourceTiming_frame env url s). Qed.

Create Rewrite HintDb capture.
#[local] Hint Rewrite capture_sessionId capture_manifestRequestedAt capture_manifestLoadedAt
  capture_playbackRequestedAt capture_firstFrameAt capture_bufferingEvents
  capture_metricsSent : capture.

(** A first-frame time, once written, stays. *)
Lemma orNow_keeps x t v : x = Some v -> orNow x t = Some v.
Proof. intros ->. reflexivity. Qed.

Ltac quiet_fields :=
  unfold Quiet, sent, firstFrame, silent; cbn;
  autorewrite with capture; cbn;
  repeat split; auto using orNow_keeps.

Lemma quiet_same p q :
  playbackMetricsRef q = playbackMetricsRef p -> Quiet p (q, []).
Proof. intros H. unfold Quiet, sent, firstFrame. cbn. rewrite H. auto. Qed.

Lemma sending_telemetry env reason preferBeacon p q :
  playbackMetricsRef q = playbackMetricsRef p ->
  let r := sending env reason preferBeacon q in
  (Quiet p r /\ playbackMetricsRef r.1 = playbackMetricsRef p
   /\ (sent p = true \/ constructPayload env reason (playbackMetricsRef p) = None))
  \/ Reported p r.
Proof.
  intros Hq. unfold sending, Quiet, Reported, sent, firstFrame. rewrite Hq.
  destruct (sendPlaybackMetrics_result env reason preferBeacon (playbackMetricsRef p))
    as [Hskip | payload out Hsent Hpayload Hout]; cbn.
  - left. auto.
  - right. exists out.
    apply constructPayload_needs_firstFrame in Hpayload.
    destruct Hout as [-> | ->]; auto.
Qed.

Lemma handleQualityChange_metrics newQuality p :
  playbackMetricsRef (handleQualityChange newQuality p) = playbackMetricsRef p.
Proof. unfold handleQualityChange. repeat case_match; reflexivity. Qed.

Lemma attachSource_quiet env src p : Quiet p (attachSource env src p).
Proof. unfold attachSource. repeat case_match; apply quiet_same; reflexivity. Qed.

Lemma bufferAppended_dispatches handlers video out :
  dispatches
    (foldl (fun acc handler => handleBufferAppended handler acc) (video, out) handlers).2
  = dispatches out.
Proof.
  revert video out. induction handlers as [|h handlers IH]; intros video out; [reflexivity|].
  cbn [foldl]. unfold handleBufferAppended at 2. cbn [fst snd].
  destruct video as [v|]; [|apply IH].
  rewrite IH. unfold dispatches. rewrite List.filter_app. cbn.
  destruct (resumePlayback h); cbn; apply app_nil_r.
Qed.

Lemma onBufferAppended_quiet hls p : Quiet p (onBufferAppended hls p).
Proof.
  unfold onBufferAppended, Quiet, sent, firstFrame. cbn [fst snd].
  rewrite bufferAppended_dispatches. auto.
Qed.

Lemma sending_step env reason preferBeacon p q :
  playbackMetricsRef q = playbackMetricsRef p ->
  Quiet p (sending env reason preferBeacon q)
  \/ Reported p (sending env reason preferBeacon q).
Proof.
  intros Hq. destruct (sending_telemetry env reason preferBeacon p q Hq) as [[H _] | H]; auto.
Qed.

Lemma handleBeforeUnload_step env p :
  Quiet p (handleBeforeUnload env p) \/ Reported p (handleBeforeUnload env p).
Proof.
  unfold handleBeforeUnload.
  destruct (metricsSent (playbackMetricsRef p)); [left; apply quiet_same; reflexivity|].
  destruct (falsy_number _); [left; apply quiet_same; reflexivity|].
  apply sending_step. reflexivity.
Qed.

Lemma unmountCleanup_step env p :
  Quiet p (unmountCleanup env p) \/ Reported p (unmountCleanup env p).
Proof.
  unfold unmountCleanup.
  destruct (negb _ && negb _); [|left; apply quiet_same; reflexivity].
  apply sending_step. reflexivity.
Qed.

(** One signal that keeps the session either reports nothing and leaves
    the sent flag and a written first-frame time as they are, or sends
    exactly one payload out of a session that had rendered a frame and had
    not reported yet. *)
Lemma step_telemetry env sig p :
  keepsSession sig = true ->
  Quiet p (step env sig p) \/ Reported p (step env sig p).
Proof.
  intros Hkeep.
  destruct sig; try discriminate Hkeep; unfold step;
    destruct (videoRef p) as [elem|] eqn:Hvideo;
    destruct (hlsRef p) as [rt|] eqn:Hhls;
    try (left; apply quiet_same; reflexivity);
    try (left; apply attachSource_quiet);
    try (left; apply onBufferAppended_quiet);
    try apply handleBeforeUnload_step;
    try apply unmountCleanup_step;
    try (left; apply quiet_same; apply handleQualityChange_metrics);
    try (unfold handleEnded, handleError; apply sending_step; reflexivity).
  all: try (left; unfold handleLoadedMetadata, handlePlay, handlePause, handlePlaying,
              handleCanPlay, handleLoadStart, onManifestLoading, onManifestLoaded,
              onManifestParsed, onFragLoaded; quiet_fields; fail).
  all: left; unfold handleWaiting, handleStalled, onLevelSwitched, onManifestLoaded,
              onFragLoaded;
       repeat case_match; quiet_fields.
Qed.

(** The source-change effect reports at most the session that ends. *)
Lemma sourceChangeEffect_dispatches env id t p :
  let r := sourceChangeEffect env id t p in
  dispatches r.2 = []
  \/ (exists o, dispatches r.2 = [o] /\ sent p = false /\ falsy_number (firstFrame p) = false).
Proof.
  unfold sourceChangeEffect.
  destruct (negb _ && negb _) eqn:Hgate; [|left; reflexivity].
  destruct (sending_telemetry env "source_change" false p p eq_refl) as [[H _] | H].
  - left. destruct (sending _ _ _ _) as [q out]. apply H.
  - right. destruct H as [o (Hd & Hs & _ & Hf & _)].
    destruct (sending _ _ _ _) as [q out]. exists o. auto.
Qed.

(** Any one signal dispatches at most one payload, none once the session
    has reported and none before a first frame was recorded. *)
Lemma step_dispatches env sig p :
  let r := step env sig p in
  (length (dispatches r.2) <= 1)%nat
  /\ (sent p = true -> dispatches r.2 = [])
  /\ (firstFrame p = None -> dispatches r.2 = []).
Proof.
  destruct (keepsSession sig) eqn:Hkeep.
  - destruct (step_telemetry env sig p Hkeep) as [(Hd & _) | (o & Hd & Hs & _ & Hf & _)];
      cbn zeta; rewrite Hd; cbn.
    + auto.
    + split; [lia|]. split.
      * intros H. congruence.
      * intros H. rewrite H in Hf. discriminate.
  - destruct sig; try discriminate Hkeep. unfold step.
    assert (H := sourceChangeEffect_dispatches env id t p).
    assert (Hgoal :
      (length (dispatches (sourceChangeEffect env id t p).2) <= 1)%nat
      /\ (sent p = true -> dispatches (sourceChangeEffect env id t p).2 = [])
      /\ (firstFrame p = None -> dispatches (sourceChangeEffect env id t p).2 = [])).
    { destruct H as [Hd | (o & Hd & Hs & Hf)]; rewrite Hd; cbn.
      - auto.
      - split; [lia|]. split; intros H.
        + congruence.
        + rewrite H in Hf. discriminate. }
    destruct (videoRef p), (hlsRef p); exact Hgoal.
Qed.

Lemma run_app env sigs sigs' p :
  run env (sigs ++ sigs') p
  = let r := run env sigs p in
    let r' := run env sigs' r.1 in
    (r'.1, (r.2 ++ r'.2)%list).
Proof.
  revert p. induction sigs as [|sig sigs IH]; intros p; cbn [run app].
  - cbn [fst snd app]. destruct (run env sigs' p); reflexivity.
  - destruct (step env sig p) as [p1 out1]. rewrite IH. cbn zeta.
    destruct (run env sigs p1) as [p2 out2]. cbn [fst snd].
    destruct (run env sigs' p2) as [p3 out3]. cbn [fst snd].
    rewrite app_assoc. reflexivity.
Qed.

Lemma dispatches_app out out' :
  dispatches (out ++ out') = (dispatches out ++ dispatches out')%list.
Proof. apply List.filter_app. Qed.

Lemma risingEdges_cons b b' trace :
  risingEdges (b :: b' :: trace)
  = ((if negb b && b' then 1 else 0) + risingEdges (b' :: trace))%nat.
Proof. reflexivity. Qed.

(** Within a session, a run started after the report dispatches nothing
    and the flag never falls back. *)
Lemma session_run_sent env sigs p :
  forallb keepsSession sigs = true ->
  sent p = true ->
  dispatches (run env sigs p).2 = []
  /\ sent (run env sigs p).1 = true
  /\ risingEdges (sentTrace env sigs p) = 0%nat.
Proof.
  revert p. induction sigs as [|sig sigs IH]; intros p Hkeep Hsent.
  - cbn. auto.
  - cbn [forallb] in Hkeep. apply andb_true_iff in Hkeep as [Hsig Hkeep].
    cbn [run sentTrace].
    destruct (step_telemetry env sig p Hsig) as [(Hd & Hs & _) | (o & _ & Hs & _)];
      [|congruence].
    destruct (step env sig p) as [p1 out1]. cbn [fst snd] in *.
    rewrite Hsent in Hs.
    destruct (IH p1 Hkeep Hs) as (Hd' & Hs' & He).
    destruct (run env sigs p1) as [p2 out2]. cbn [fst snd] in *.
    rewrite dispatches_app, Hd, Hd'. repeat split; auto.
    assert (Htrace : sentTrace env sigs p1 = sent p1 :: tail (sentTrace env sigs p1))
      by (destruct sigs; reflexivity).
    rewrite Htrace in He |- *. rewrite risingEdges_cons, Hsent. exact He.
Qed.

(** Within a session a first-frame time, once written, is there at the
    end. *)
Lemma session_run_firstFrame env sigs p v :
  forallb keepsSession sigs = true ->
  firstFrame p = Some v ->
  firstFrame (run env sigs p).1 = Some v.
Proof.
  revert p. induction sigs as [|sig sigs IH]; intros p Hkeep Hv; [exact Hv|].
  cbn [forallb] in Hkeep. apply andb_true_iff in Hkeep as [Hsig Hkeep].
  cbn [run].
  assert (Hv1 : firstFrame (step env sig p).1 = Some v).
  { destruct (step_telemetry env sig p Hsig) as [(_ & _ & Hf) | (o & _ & _ & _ & _ & Hf)].
    - apply Hf, Hv.
    - rewrite Hf. exact Hv. }
  specialize (IH (step env sig p).1 Hkeep Hv1).
  destruct (step env sig p) as [p1 out1]. cbn [fst] in IH.
  destruct (run env sigs p1) as [p2 out2]. exact IH.
Qed.

(** Within a session: at most one payload, at most one raising of the
    flag, the flag raised whenever a payload went out, and nothing at all
    when the first-frame time is still unwritten at the end. *)
Lemma session_run env sigs p :
  forallb keepsSession sigs = true ->
  (length (dispatches (run env sigs p).2) <= 1)%nat
  /\ (risingEdges (sentTrace env sigs p) <= 1)%nat
  /\ (dispatches (run env sigs p).2 <> [] -> sent (run env sigs p).1 = true)
  /\ (firstFrame (run env sigs p).1 = None ->
      dispatches (run env sigs p).2 = [] /\ firstFrame p = None).
Proof.
  revert p. induction sigs as [|sig sigs IH]; intros p Hkeep.
  - cbn. split; [lia|]. split; [lia|]. split; [congruence|auto].
  - cbn [forallb] in Hkeep. apply andb_true_iff in Hkeep as [Hsig Hkeep].
    cbn [run sentTrace].
    assert (Htrace : forall q, sentTrace env sigs q = sent q :: tail (sentTrace env sigs q))
      by (intros q; destruct sigs; reflexivity).
    destruct (step_telemetry env sig p Hsig)
      as [(Hd & Hs & Hf) | (o & Hd & Hs & Hs1 & Hfalsy & Hf)].
    + destruct (IH (step env sig p).1 Hkeep) as (Hlen & Hedge & Hraised & Hnone).
      destruct (step env sig p) as [p1 out1]. cbn [fst snd] in *.
      destruct (run env sigs p1) as [p2 out2] eqn:Hrun. cbn [fst snd] in *.
      rewrite dispatches_app, Hd. cbn [app].
      split; [exact Hlen|]. split; [|split; [exact Hraised|]].
      * rewrite Htrace in Hedge |- *. rewrite risingEdges_cons, Hs in *.
        destruct (sent p); cbn [negb andb]; lia.
      * intros Hend. destruct (Hnone Hend) as [Hnil Hp1]. split; [exact Hnil|].
        destruct (firstFrame p) as [v|] eqn:Hp; [|reflexivity].
        rewrite (Hf v eq_refl) in Hp1. discriminate.
    + destruct (session_run_sent env sigs (step env sig p).1 Hkeep Hs1) as (Hd' & Hs' & He).
      destruct (step env sig p) as [p1 out1]. cbn [fst snd] in *.
      destruct (run env sigs p1) as [p2 out2] eqn:Hrun. cbn [fst snd] in *.
      rewrite dispatches_app, Hd, Hd'. cbn [app length].
      split; [lia|]. split; [|split; [intros _; exact Hs'|]].
      * rewrite Htrace in He |- *. rewrite risingEdges_cons.
        rewrite Hs, Hs1 in *. cbn [negb andb]. lia.
      * intros Hend. exfalso.
        destruct (firstFrame p) as [v|] eqn:Hp; [|discriminate Hfalsy].
        assert (Hkept := session_run_firstFrame env sigs p1 v Hkeep Hf).
        rewrite Hrun in Hkept. cbn [fst] in Hkept. congruence.
Qed.

(** C1. Within a session (a run of signals none of which replaces the
    session, closed or not by the source change that ends it):
    [sendPlaybackMetrics] returns without dispatching when [metricsSent]
    is already true; a payload is constructed only from a state whose
    [firstFrameAt] is set; [metricsSent] goes from false to true at most
    once; at most one payload is dispatched; and when [firstFrameAt] was
    never written (it is never cleared, so it is unset at the end), no
    trigger dispatches anything. *)
Theorem metrics_dispatched_at_most_once env sigs closing p :
  forallb keepsSession sigs = true ->
  (length closing <= 1)%nat ->
  (forall reason preferBeacon state,
      metricsSent state = true ->
      sendPlaybackMetrics env reason preferBeacon state = (state, []))
  /\ (forall reason state payload,
         constructPayload env reason state = Some payload ->
         exists v, firstFrameAt state = Some v)
  /\ (risingEdges (sentTrace env sigs p) <= 1)%nat
  /\ (length (dispatches (run env (sigs ++ closing) p).2) <= 1)%nat
  /\ (firstFrame (run env sigs p).1 = None ->
      dispatches (run env (sigs ++ closing) p).2 = []).
Proof.
  intros Hkeep Hclosing.
  split; [|split].
  { intros reason preferBeacon state Hsent. unfold sendPlaybackMetrics.
    rewrite Hsent. reflexivity. }
  { intros reason state payload Hpayload.
    apply constructPayload_needs_firstFrame in Hpayload.
    destruct (firstFrameAt state) as [v|]; [eauto|discriminate]. }
  destruct (session_run env sigs p Hkeep) as (Hlen & Hedge & Hraised & Hnone).
  split; [exact Hedge|].
  rewrite run_app. cbn zeta. cbn [fst snd]. rewrite dispatches_app.
  set (r := run env sigs p) in *.
  assert (Hclose :
    (length (dispatches (run env closing r.1).2) <= 1)%nat
    /\ (sent r.1 = true -> dispatches (run env closing r.1).2 = [])
    /\ (firstFrame r.1 = None -> dispatches (run env closing r.1).2 = [])).
  { destruct closing as [|sig [|sig' closing]]; cbn [length] in Hclosing; [| |lia].
    - cbn. auto.
    - cbn [run]. generalize (step_dispatches env sig r.1).
      destruct (step env sig r.1) as [q out]. cbn [fst snd].
      rewrite app_nil_r. auto. }
  destruct Hclose as (Hc1 & Hc2 & Hc3).
  split.
  - destruct (dispatches r.2) as [|o rest] eqn:Hd.
    + exact Hc1.
    + rewrite Hc2 by (apply Hraised; discriminate).
      rewrite app_nil_r. exact Hlen.
  - intros Hend. destruct (Hnone Hend) as [-> _]. apply Hc3, Hend.
Qed.

(** The theorem at a session that plays to its end and then sees every
    trigger again, closed by a source change. *)
Lemma metrics_dispatched_at_most_once_witness :
  forallb keepsSession fullSession = true
  /\ (length [source_change "session-2" 900%Q] <= 1)%nat
  /\ (risingEdges (sentTrace browser fullSession (mounted "session-1" 0%Q starved)) <= 1)%nat
  /\ (length (dispatches
               (run browser (fullSession ++ [source_change "session-2" 900%Q])
                  (mounted "session-1" 0%Q starved)).2) <= 1)%nat.
Proof.
  assert (Hkeep : forallb keepsSession fullSession = true) by reflexivity.
  assert (Hlen : (length [source_change "session-2" 900%Q] <= 1)%nat) by (cbn; lia).
  destruct (metrics_dispatched_at_most_once browser fullSession
              [source_change "session-2" 900%Q] (mounted "session-1" 0%Q starved) Hkeep Hlen)
    as (_ & _ & Hedge & Hone & _).
  exact (conj Hkeep (conj Hlen (conj Hedge Hone))).
Defined.

(** That session does report: exactly one payload leaves, through the API
    client, with reason [ended]. *)
Example fullSession_reports_once :
  map (fun o => match o with
                | RecordPlaybackMetric payload => reason (benchmark_metadata payload)
                | _ => EmptyString
                end)
      (dispatches (run browser (fullSession ++ [source_change "session-2" 900%Q])
                     (mounted "session-1" 0%Q starved)).2)
  = ["ended"].
Proof. vm_compute. reflexivity. Qed.

(** A session abandoned before its first frame reports nothing, whatever
    triggers fire. *)
Example abandonedSession_reports_nothing :
  dispatches (run browser (abandonedSession ++ [source_change "session-2" 900%Q])
                (mounted "session-1" 0%Q starved)).2 = [].
Proof. vm_compute. reflexivity. Qed.

(** ** Timestamps *)

Lemma sending_timestamps env reason preferBeacon q :
  let s := playbackMetricsRef q in
  let s' := playbackMetricsRef (sending env reason preferBeacon q).1 in
  manifestRequestedAt s' = manifestRequestedAt s
  /\ manifestLoadedAt s' = manifestLoadedAt s
  /\ playbackRequestedAt s' = playbackRequestedAt s
  /\ firstFrameAt s' = firstFrameAt s
  /\ bufferingEvents s' = bufferingEvents s.
Proof.
  unfold sending.
  destruct (sendPlaybackMetrics_result env reason preferBeacon (playbackMetricsRef q));
    cbn; auto.
Qed.

Ltac kept_fields :=
  unfold keptOnce, silent; cbn; autorewrite with capture; cbn;
  repeat split; auto using orNow_keeps.

(** Every handler that keeps the session leaves a written play-request
    and first-frame time alone; so do all of them for the
    manifest-requested time except the runtime's manifest-loading
    handler, and for the manifest-loaded time except the runtime's
    manifest-loaded handler. *)
Lemma step_first_write_wins env sig p :
  keepsSession sig = true ->
  let s := playbackMetricsRef p in
  let s' := playbackMetricsRef (step env sig p).1 in
  keptOnce (playbackRequestedAt s) (playbackRequestedAt s')
  /\ keptOnce (firstFrameAt s) (firstFrameAt s')
  /\ ((forall t, sig <> MANIFEST_LOADING t) ->
      keptOnce (manifestRequestedAt s) (manifestRequestedAt s'))
  /\ ((forall t networkDetails, sig <> MANIFEST_LOADED t networkDetails) ->
      keptOnce (manifestLoadedAt s) (manifestLoadedAt s')).
Proof.
  intros Hkeep.
  assert (Hsame : forall q, playbackMetricsRef q = playbackMetricsRef p ->
            keptOnce (playbackRequestedAt (playbackMetricsRef p))
                     (playbackRequestedAt (playbackMetricsRef q))
            /\ keptOnce (firstFrameAt (playbackMetricsRef p))
                        (firstFrameAt (playbackMetricsRef q))
            /\ ((forall t, sig <> MANIFEST_LOADING t) ->
                keptOnce (manifestRequestedAt (playbackMetricsRef p))
                         (manifestRequestedAt (playbackMetricsRef q)))
            /\ ((forall t networkDetails, sig <> MANIFEST_LOADED t networkDetails) ->
                keptOnce (manifestLoadedAt (playbackMetricsRef p))
                         (manifestLoadedAt (playbackMetricsRef q)))).
  { intros q ->. unfold keptOnce. auto. }
  assert (Hsend : forall reason preferBeacon q, playbackMetricsRef q = playbackMetricsRef p ->
            let s' := playbackMetricsRef (sending env reason preferBeacon q).1 in
            keptOnce (playbackRequestedAt (playbackMetricsRef p)) (playbackRequestedAt s')
            /\ keptOnce (firstFrameAt (playbackMetricsRef p)) (firstFrameAt s')
            /\ ((forall t, sig <> MANIFEST_LOADING t) ->
                keptOnce (manifestRequestedAt (playbackMetricsRef p)) (manifestRequestedAt s'))
            /\ ((forall t networkDetails, sig <> MANIFEST_LOADED t networkDetails) ->
                keptOnce (manifestLoadedAt (playbackMetricsRef p)) (manifestLoadedAt s'))).
  { intros reason preferBeacon q Hq.
    destruct (sending_timestamps env reason preferBeacon q) as (H1 & H2 & H3 & H4 & _).
    cbn zeta. rewrite H1, H2, H3, H4, Hq. unfold keptOnce. auto. }
  cbn zeta.
  destruct sig; try discriminate Hkeep; unfold step;
    destruct (videoRef p) as [elem|] eqn:Hvideo;
    destruct (hlsRef p) as [rt|] eqn:Hhls;
    try (apply Hsame; reflexivity);
    try (apply Hsame; apply handleQualityChange_metrics);
    try (unfold handleEnded, handleError; apply Hsend; reflexivity).
  all: try (unfold handleBeforeUnload, unmountCleanup; repeat case_match;
            solve [apply Hsame; reflexivity | apply Hsend; reflexivity]).
  all: try (unfold attachSource; repeat case_match; apply Hsame; reflexivity).
  all: try (unfold handleLoadedMetadata, handlePlay, handlePause, handlePlaying,
              handleCanPlay, handleLoadStart, onManifestParsed, onBufferAppended;
            kept_fields; fail).
  all: try (unfold handleWaiting, handleStalled, onLevelSwitched, onFragLoaded;
            repeat case_match; kept_fields; fail).
  all: try (unfold onManifestLoading; kept_fields;
            intros Hne; exfalso; eapply Hne; reflexivity).
  all: try (unfold onManifestLoaded; repeat case_match; kept_fields;
            intros Hne; exfalso; eapply Hne; reflexivity).
Qed.

(** C2 fails on the code: the element's handlers keep the first value,
    the runtime's manifest handlers assign unconditionally. With the
    runtime bound, a manifest-loading signal after [loadstart] replaces
    the manifest-requested time, and a manifest-loaded signal after
    [loadedmetadata] replaces the manifest-loaded time. *)
Theorem manifest_signals_overwrite_timestamps :
  let p := streaming starved in
  let requested sigs := manifestRequestedAt (playbackMetricsRef (run browser sigs p).1) in
  let loaded sigs := manifestLoadedAt (playbackMetricsRef (run browser sigs p).1) in
  requested [loadstart 5%Q] = Some 5%Q
  /\ requested [loadstart 5%Q; MANIFEST_LOADING 9%Q] = Some 9%Q
  /\ requested [MANIFEST_LOADING 5%Q; MANIFEST_LOADING 9%Q] = Some 9%Q
  /\ requested [MANIFEST_LOADING 5%Q; loadstart 9%Q] = Some 5%Q
  /\ loaded [loadedmetadata 12%Q] = Some 12%Q
  /\ loaded [loadedmetadata 12%Q; MANIFEST_LOADED 30%Q None] = Some 30%Q.
Proof. vm_compute. repeat split; reflexivity. Qed.

(** ** Buffering *)

Lemma sending_session_fields env reason preferBeacon q :
  let s := playbackMetricsRef q in
  let s' := playbackMetricsRef (sending env reason preferBeacon q).1 in
  deliverySource s' = deliverySource s
  /\ bufferingEvents s' = bufferingEvents s
  /\ sessionId s' = sessionId s
  /\ mountTime s' = mountTime s.
Proof.
  unfold sending.
  destruct (sendPlaybackMetrics_result env reason preferBeacon (playbackMetricsRef q));
    cbn; auto.
Qed.

Lemma step_bufferingEvents env sig p :
  keepsSession sig = true ->
  let before := bufferingEvents (playbackMetricsRef p) in
  let after := bufferingEvents (playbackMetricsRef (step env sig p).1) in
  after = before \/ (isStall sig = true /\ after = (before + 1)%N).
Proof.
  intros Hkeep. cbn zeta.
  assert (Hsame : forall q, playbackMetricsRef q = playbackMetricsRef p ->
                            bufferingEvents (playbackMetricsRef q)
                            = bufferingEvents (playbackMetricsRef p))
    by (intros q ->; reflexivity).
  assert (Hsend : forall reason preferBeacon q,
             playbackMetricsRef q = playbackMetricsRef p ->
             bufferingEvents (playbackMetricsRef (sending env reason preferBeacon q).1)
             = bufferingEvents (playbackMetricsRef p)).
  { intros reason preferBeacon q Hq.
    destruct (sending_session_fields env reason preferBeacon q) as (_ & -> & _).
    rewrite Hq. reflexivity. }
  destruct sig; try discriminate Hkeep; unfold step;
    destruct (videoRef p) as [elem|] eqn:Hvideo;
    destruct (hlsRef p) as [rt|] eqn:Hhls;
    try (left; apply Hsame; reflexivity);
    try (left; apply Hsame; apply handleQualityChange_metrics);
    try (left; unfold handleEnded, handleError; apply Hsend; reflexivity).
  all: try (left; unfold handleBeforeUnload, unmountCleanup; repeat case_match;
            solve [apply Hsame; reflexivity | apply Hsend; reflexivity]).
  all: try (left; unfold attachSource; repeat case_match; apply Hsame; reflexivity).
  all: try (left; unfold handleLoadedMetadata, handleCanPlay, handlePlay, handlePause,
              handlePlaying, handleLoadStart, onManifestLoading, onManifestLoaded,
              onManifestParsed, onBufferAppended; cbn;
            autorewrite with capture; reflexivity).
  all: try (left; unfold onLevelSwitched, onFragLoaded, onManifestLoaded;
            repeat case_match; cbn; autorewrite with capture; reflexivity).
  all: unfold handleWaiting, handleStalled; case_match; cbn; auto.
Qed.

Lemma step_sessionId env sig p :
  keepsSession sig = true ->
  sessionId (playbackMetricsRef (step env sig p).1) = sessionId (playbackMetricsRef p).
Proof.
  intros Hkeep.
  assert (Hsame : forall q, playbackMetricsRef q = playbackMetricsRef p ->
                            sessionId (playbackMetricsRef q)
                            = sessionId (playbackMetricsRef p))
    by (intros q ->; reflexivity).
  assert (Hsend : forall reason preferBeacon q,
             playbackMetricsRef q = playbackMetricsRef p ->
             sessionId (playbackMetricsRef (sending env reason preferBeacon q).1)
             = sessionId (playbackMetricsRef p)).
  { intros reason preferBeacon q Hq.
    destruct (sending_session_fields env reason preferBeacon q) as (_ & _ & -> & _).
    rewrite Hq. reflexivity. }
  destruct sig; try discriminate Hkeep; unfold step;
    destruct (videoRef p) as [elem|] eqn:Hvideo;
    destruct (hlsRef p) as [rt|] eqn:Hhls;
    try (apply Hsame; reflexivity);
    try (apply Hsame; apply handleQualityChange_metrics);
    try (unfold handleEnded, handleError; apply Hsend; reflexivity).
  all: try (unfold handleBeforeUnload, unmountCleanup; repeat case_match;
            solve [apply Hsame; reflexivity | apply Hsend; reflexivity]).
  all: try (unfold attachSource; repeat case_match; apply Hsame; reflexivity).
  all: try (unfold handleLoadedMetadata, handleCanPlay, handlePlay, handlePause,
              handlePlaying, handleLoadStart, onManifestLoading, onManifestLoaded,
              onManifestParsed, onBufferAppended; cbn;
            autorewrite with capture; reflexivity).
  all: try (unfold onLevelSwitched, onFragLoaded, onManifestLoaded;
            repeat case_match; cbn; autorewrite with capture; reflexivity).
  all: unfold handleWaiting, handleStalled; case_match; cbn; auto.
Qed.

Lemma run_sessionId env sigs p :
  forallb keepsSession sigs = true ->
  sessionId (playbackMetricsRef (run env sigs p).1) = sessionId (playbackMetricsRef p).
Proof.
  revert p. induction sigs as [|sig sigs IH]; intros p Hkeep; [reflexivity|].
  cbn [forallb] in Hkeep. apply andb_true_iff in Hkeep as [Hsig Hkeep].
  cbn [run]. pose proof (step_sessionId env sig p Hsig) as Hstep.
  specialize (IH (step env sig p).1 Hkeep).
  destruct (step env sig p) as [q out]. cbn [fst] in *.
  destruct (run env sigs q) as [q' out']. cbn [fst] in *. congruence.
Qed.

Lemma step_stall env sig p video :
  videoRef p = Some video ->
  isStall sig = true ->
  let q := (step env sig p).1 in
  videoRef q = Some video
  /\ bufferingEvents (playbackMetricsRef q)
     = (bufferingEvents (playbackMetricsRef p) + (if accepted video sig then 1 else 0))%N
  /\ isBuffering q = isBuffering p || accepted video sig
  /\ (step env sig p).2 = [].
Proof.
  intros Hvideo Hstall.
  destruct sig; try discriminate Hstall; unfold step; rewrite Hvideo;
    destruct (hlsRef p); cbn [silent fst snd accepted];
    unfold handleWaiting, handleStalled;
    destruct (paused video); cbn [negb andb]; try destruct (readyState video <? 3);
    cbn; rewrite ?orb_true_r, ?orb_false_r, ?N.add_0_r; auto.
Qed.

(** What one signal of a session adds to the counter: one for a stall
    signal that its handler acts on, nothing otherwise. *)
Lemma step_counts env sig p :
  keepsSession sig = true ->
  bufferingEvents (playbackMetricsRef (step env sig p).1)
  = (bufferingEvents (playbackMetricsRef p)
     + (if isStall sig && from_option (fun video => accepted video sig) false (videoRef p)
        then 1 else 0))%N.
Proof.
  intros Hkeep. destruct (isStall sig) eqn:Hstall; cbn [andb].
  - destruct (videoRef p) as [video|] eqn:Hvideo; cbn [from_option].
    + destruct (step_stall env sig p video Hvideo Hstall) as (_ & Hcount & _).
      exact Hcount.
    + destruct sig; try discriminate Hstall; unfold step; rewrite Hvideo;
        destruct (hlsRef p); cbn [silent fst]; lia.
  - destruct (step_bufferingEvents env sig p Hkeep) as [Hsame | [Hstall' _]];
      [|congruence].
    cbn zeta in Hsame. rewrite Hsame. lia.
Qed.

(** C3, as amended: within a session, over any run of signals in which
    no [stalled] signal finds the element playing with readiness to
    spare, [bufferingEvents] grows by one for every stall signal
    ([waiting] or [stalled]) that finds the element not paused with a
    ready state below 3, and by nothing else; and such a signal counts
    and sets [isBuffering] whether or not the player is buffering
    already. *)
Theorem bufferingEvents_counts_every_genuine_stall env sigs p :
  forallb keepsSession sigs = true ->
  noSpuriousStalled env sigs p = true ->
  bufferingEvents (playbackMetricsRef (run env sigs p).1)
  = (bufferingEvents (playbackMetricsRef p) + N.of_nat (genuineStalls env sigs p))%N
  /\ (forall sig video,
         isStall sig = true -> videoRef p = Some video -> starving video = true ->
         isBuffering (step env sig p).1 = true
         /\ bufferingEvents (playbackMetricsRef (step env sig p).1)
            = (bufferingEvents (playbackMetricsRef p) + 1)%N).
Proof.
  intros Hkeep Hclean. split.
  - revert p Hclean. induction sigs as [|sig sigs IH]; intros p Hclean.
    + cbn. lia.
    + cbn [forallb] in Hkeep. apply andb_true_iff in Hkeep as [Hsig Hkeep].
      cbn [noSpuriousStalled] in Hclean. apply andb_true_iff in Hclean as [Hhead Hclean].
      pose proof (step_counts env sig p Hsig) as Hstep.
      specialize (IH Hkeep (step env sig p).1 Hclean).
      cbn [run genuineStalls].
      destruct (step env sig p) as [q out]. cbn [fst] in *.
      destruct (run env sigs q) as [q' out']. cbn [fst] in *.
      rewrite IH, Hstep.
      assert (Hsame : isStall sig && from_option (fun video => accepted video sig) false
                                                 (videoRef p)
                      = isStall sig && from_option starving false (videoRef p)).
      { destruct (videoRef p) as [video|]; [|reflexivity]. cbn [from_option].
        destruct sig; try reflexivity. cbn [accepted isStall andb]. unfold starving.
        destruct (paused video); [reflexivity|]. cbn [negb orb andb] in Hhead |- *.
        rewrite Hhead. reflexivity. }
      rewrite Hsame, Nat2N.inj_add.
      destruct (isStall sig && from_option starving false (videoRef p));
        [change (N.of_nat 1) with 1%N|change (N.of_nat 0) with 0%N]; lia.
  - intros sig video Hstall Hvideo Hstarving.
    destruct (step_stall env sig p video Hvideo Hstall) as (_ & Hcount & Hbuffering & _).
    assert (Haccepted : accepted video sig = true).
    { unfold starving in Hstarving. apply andb_true_iff in Hstarving as [Hplaying Hready].
      destruct sig; try discriminate Hstall; cbn [accepted];
        rewrite ?Hplaying, ?Hready; reflexivity. }
    rewrite Haccepted in Hcount, Hbuffering. rewrite orb_true_r in Hbuffering.
    split; [exact Hbuffering|exact Hcount].
Qed.

(** The theorem at a starved element: three stall signals before the
    next [playing], and one after it. *)
Lemma bufferingEvents_counts_every_genuine_stall_witness :
  let sigs := [stalled; waiting; stalled; playing 31%Q; waiting] in
  forallb keepsSession sigs = true
  /\ noSpuriousStalled browser sigs (streaming starved) = true
  /\ bufferingEvents (playbackMetricsRef (run browser sigs (streaming starved)).1)
     = (bufferingEvents (playbackMetricsRef (streaming starved)) + 4)%N.
Proof.
  cbn zeta.
  assert (Hkeep : forallb keepsSession [stalled; waiting; stalled; playing 31%Q; waiting]
                  = true) by reflexivity.
  assert (Hclean : noSpuriousStalled browser
                     [stalled; waiting; stalled; playing 31%Q; waiting]
                     (streaming starved) = true) by reflexivity.
  destruct (bufferingEvents_counts_every_genuine_stall browser
              [stalled; waiting; stalled; playing 31%Q; waiting]
              (streaming starved) Hkeep Hclean) as [Hcount _].
  exact (conj Hkeep (conj Hclean Hcount)).
Defined.

(** C3, as stated, fails: the player is buffering after the first
    [stalled], no [playing] comes in between, and the next [stalled] or
    [waiting] still raises the counter. *)
Lemma bufferingEvents_counts_repeated_stall :
  let p1 := (step browser stalled (streaming starved)).1 in
  isBuffering (streaming starved) = false
  /\ isBuffering p1 = true
  /\ bufferingEvents (playbackMetricsRef p1) = 1%N
  /\ bufferingEvents (playbackMetricsRef (step browser stalled p1).1) = 2%N
  /\ bufferingEvents (playbackMetricsRef (step browser waiting p1).1) = 2%N.
Proof. vm_compute. repeat split; reflexivity. Qed.

(** The [waiting] handler does ignore a stall signal when the element
    is ready enough. *)
Lemma handleWaiting_ready video p :
  3 <= readyState video -> handleWaiting video p = p.
Proof.
  intros Hready. unfold handleWaiting.
  destruct (Z.ltb_spec (readyState video) 3); [lia|].
  rewrite andb_false_r. reflexivity.
Qed.

(** C4 fails on the code for the [stalled] signal: the element is not
    paused and its ready state is 4, the player is not buffering, and
    [stalled] turns [isBuffering] on; [waiting] on the same state does
    not. *)
Theorem stalled_enters_buffering_despite_readiness :
  paused wellFed = false
  /\ 3 <= readyState wellFed
  /\ isBuffering (streaming wellFed) = false
  /\ isBuffering (step browser stalled (streaming wellFed)).1 = true
  /\ isBuffering (step browser waiting (streaming wellFed)).1 = false.
Proof. vm_compute. repeat split; discriminate. Qed.

(** ** The manual quality switch *)

Lemma targetHeightOf_auto : targetHeightOf "auto" = None.
Proof. reflexivity. Qed.

(** Scenario A on the model: the menu lists the inventory behind "auto",
    the selection is "auto" and the displayed resolution follows the
    runtime's choice. *)
Example manifest_parsed_menu :
  let p := playingLevel wellFed 1 in
  availableQualities p = ["auto"; "1080p"; "720p"; "480p"]
  /\ quality p = "auto"
  /\ autoQualityLabel p = Some "720p".
Proof. vm_compute. repeat split; reflexivity. Qed.

(** A label that resolves to a level: the selection is recorded, the
    displayed automatic label is cleared, and the runtime is switched by
    the branch that the heights select. *)
Lemma handleQualityChange_found newQuality p hls targetHeight found :
  hlsRef p = Some hls ->
  targetHeightOf newQuality = Some targetHeight ->
  findIndex targetHeight (levels hls) = Some found ->
  handleQualityChange newQuality p
  = setAutoQualityLabel None
      (set_hls
         (Some (if isUpgrade hls targetHeight
                then upgraded (videoRef p) (Z.of_nat found) hls
                else scheduled (videoRef p) (Z.of_nat found) hls))
         (setQuality newQuality p)).
Proof.
  intros Hhls Htarget Hfound. unfold handleQualityChange. rewrite Hhls.
  destruct (String.eqb_spec newQuality "auto") as [->|_].
  { rewrite targetHeightOf_auto in Htarget. discriminate. }
  rewrite Htarget. cbn [mbind option_bind]. rewrite Hfound.
  cbn [fmap option_fmap option_map]. reflexivity.
Qed.

(** A label that resolves to no level: only the selection changes. *)
Lemma handleQualityChange_unmatched newQuality p hls :
  hlsRef p = Some hls ->
  newQuality <> "auto" ->
  (forall targetHeight, targetHeightOf newQuality = Some targetHeight ->
                        findIndex targetHeight (levels hls) = None) ->
  handleQualityChange newQuality p = setQuality newQuality p.
Proof.
  intros Hhls Hauto Hnone. unfold handleQualityChange. rewrite Hhls.
  destruct (String.eqb_spec newQuality "auto") as [->|_]; [congruence|].
  destruct (targetHeightOf newQuality) as [h|] eqn:Htarget; [|reflexivity].
  cbn [mbind option_bind]. rewrite (Hnone h eq_refl). reflexivity.
Qed.

(** The closures subscribed to buffer-appended move the element's
    position and nothing else of it. *)
Lemma bufferAppended_video handlers video out :
  exists video',
    (foldl (fun acc handler => handleBufferAppended handler acc) (Some video, out) handlers).1
    = Some video'
    /\ paused video' = paused video
    /\ readyState video' = readyState video
    /\ currentSrc video' = currentSrc video.
Proof.
  revert video out. induction handlers as [|h handlers IH]; intros video out.
  - exists video. auto.
  - cbn [foldl]. unfold handleBufferAppended at 2. cbn [fst snd].
    destruct (IH (set_currentTime (currentPlaybackTime h) video)
                 (out ++ VideoSeek (currentPlaybackTime h)
                      :: (if resumePlayback h then [VideoPlay] else []))%list)
      as (video' & Hfold & Hp & Hr & Hs).
    exists video'. auto.
Qed.

(** C6, as amended: an upgrade requested while the element is paused
    switches the runtime's current, next and load level to the target
    index at once and still subscribes the position restore: at the next
    buffer-appended signal, wherever the element is by then, the restores
    that were pending before the request run as they would have, and
    then the closure of this request writes the position captured at the
    call back to the element, with no play command; the subscriptions
    are gone afterwards. With no restore pending before the request, the
    seek is all that is handed to the element. *)
Theorem paused_upgrade_switches_now_and_restores_position
    env newQuality p hls video targetHeight found moved :
  hlsRef p = Some hls ->
  videoRef p = Some video ->
  paused video = true ->
  targetHeightOf newQuality = Some targetHeight ->
  findIndex targetHeight (levels hls) = Some found ->
  0 < currentHeight hls ->
  currentHeight hls < targetHeight ->
  let p' := handleQualityChange newQuality p in
  (exists hls',
      hlsRef p' = Some hls'
      /\ currentLevel hls' = Z.of_nat found
      /\ nextLevel hls' = Z.of_nat found
      /\ loadLevel hls' = Z.of_nat found
      /\ bufferAppended hls'
         = (bufferAppended hls
            ++ [{| currentPlaybackTime := currentTime video; resumePlayback := false |}])%list)
  /\ let r := step env BUFFER_APPENDED (set_video (Some moved) p') in
     r.2 = ((step env BUFFER_APPENDED (set_video (Some moved) p)).2
            ++ [VideoSeek (currentTime video)])%list
     /\ (bufferAppended hls = [] -> r.2 = [VideoSeek (currentTime video)])
     /\ last r.2 = Some (VideoSeek (currentTime video))
     /\ currentTime <$> videoRef r.1 = Some (currentTime video)
     /\ bufferAppended <$> hlsRef r.1 = Some [].
Proof.
  intros Hhls Hvideo Hpaused Htarget Hfound Hpos Hup. cbn zeta.
  rewrite (handleQualityChange_found _ _ _ _ _ Hhls Htarget Hfound).
  assert (Hupgrade : isUpgrade hls targetHeight = true).
  { unfold isUpgrade. apply andb_true_iff. split; apply Z.ltb_lt; assumption. }
  rewrite Hupgrade, Hvideo. unfold upgraded. rewrite Hpaused. cbn [negb].
  split.
  - eexists. split; [reflexivity|]. cbn. auto.
  - unfold step. cbn [videoRef hlsRef set_video setAutoQualityLabel set_hls setQuality].
    rewrite Hhls. unfold onBufferAppended.
    cbn [fst snd videoRef hlsRef set_video set_hls bufferAppended set_bufferAppended
         set_loadLevel set_nextLevel set_currentLevel].
    rewrite foldl_app. cbn [foldl].
    destruct (bufferAppended_video (bufferAppended hls) moved []) as (v' & Hfold & _).
    assert (Hidle : bufferAppended hls = [] ->
                    (foldl (fun acc handler => handleBufferAppended handler acc)
                           (Some moved, []) (bufferAppended hls)).2 = [])
      by (intros ->; reflexivity).
    destruct (foldl _ _ (bufferAppended hls)) as [v'' out]. cbn [fst snd] in *. subst v''.
    unfold handleBufferAppended. cbn [fst snd resumePlayback currentPlaybackTime].
    split; [reflexivity|]. split; [intros Hnone; rewrite (Hidle Hnone); reflexivity|].
    rewrite last_snoc. auto.
Qed.

(** The theorem at Scenario B: paused on the runtime-selected 480p, the
    viewer asks for 1080p and then drags the paused element. *)
Lemma paused_upgrade_switches_now_and_restores_position_witness :
  let p' := handleQualityChange "1080p" (playingLevel onHold 2) in
  let r := step browser BUFFER_APPENDED (set_video (Some dragged) p') in
  paused onHold = true
  /\ currentLevel <$> hlsRef p' = Some 0
  /\ r.2 = [VideoSeek (currentTime onHold)]
  /\ currentTime <$> videoRef r.1 = Some (currentTime onHold).
Proof.
  destruct (paused_upgrade_switches_now_and_restores_position browser "1080p"
              (playingLevel onHold 2)
              {| levels := ladder; currentLevel := 2; nextLevel := 2; loadLevel := 2;
                 autoLevelCapping := -1; source := "https://cdn.example/v/master.m3u8";
                 bufferAppended := [] |}
              onHold 1080 0%nat dragged
              eq_refl eq_refl eq_refl eq_refl eq_refl eq_refl eq_refl)
    as [(hls' & Hhls' & Hcurrent & _) (_ & Honly & _ & Htime & _)].
  cbn zeta. rewrite Hhls'. cbn [fmap option_fmap option_map]. rewrite Hcurrent.
  exact (conj eq_refl (conj eq_refl (conj (Honly eq_refl) Htime))).
Defined.

(** A restore left pending by an upgrade made while playing still
    resumes playback when a later upgrade is made while paused: the play
    command at that buffer-appended signal is the earlier closure's, and
    the closure of the paused request adds its seek after it. *)
Example paused_upgrade_after_playing_upgrade :
  let p := playingLevel wellFed 2 in
  let r := run browser [quality_change "720p"; element_update onHold;
                        quality_change "1080p"; BUFFER_APPENDED] p in
  r.2 = [VideoSeek (currentTime wellFed); VideoPlay; VideoSeek (currentTime onHold)].
Proof. vm_compute. reflexivity. Qed.

(** C6, as stated, fails: in Scenario B the restore is subscribed, and
    after the viewer drags the paused element to 50 s the next
    buffer-appended signal seeks it back to the 10 s captured at the
    call. *)
Lemma paused_upgrade_restore_takes_effect :
  let p := playingLevel onHold 2 in
  let r := run browser [quality_change "1080p"; element_update dragged; BUFFER_APPENDED] p in
  paused <$> videoRef p = Some true
  /\ (currentHeight <$> hlsRef p) = Some 480
  /\ targetHeightOf "1080p" = Some 1080
  /\ (bufferAppended <$> hlsRef (handleQualityChange "1080p" p))
     = Some [{| currentPlaybackTime := 10%Q; resumePlayback := false |}]
  /\ r.2 = [VideoSeek 10%Q]
  /\ currentTime <$> videoRef r.1 = Some 10%Q.
Proof. vm_compute. repeat split; reflexivity. Qed.

(** C7. A request for a level no higher than the current one sets the
    runtime's next and load level to the target index and subscribes no
    position restore (nothing is handed to the element either); the
    current level stays as it is while the element is playing and is
    switched to the target index when the element is paused. *)
Theorem downgrade_defers_current_level_unless_paused
    env newQuality p hls targetHeight found :
  hlsRef p = Some hls ->
  targetHeightOf newQuality = Some targetHeight ->
  findIndex targetHeight (levels hls) = Some found ->
  targetHeight <= currentHeight hls ->
  let p' := handleQualityChange newQuality p in
  step env (quality_change newQuality) p = (p', [])
  /\ videoRef p' = videoRef p
  /\ exists hls',
      hlsRef p' = Some hls'
      /\ nextLevel hls' = Z.of_nat found
      /\ loadLevel hls' = Z.of_nat found
      /\ bufferAppended hls' = bufferAppended hls
      /\ levels hls' = levels hls
      /\ autoLevelCapping hls' = autoLevelCapping hls
      /\ (forall video, videoRef p = Some video -> paused video = false ->
                        currentLevel hls' = currentLevel hls)
      /\ (forall video, videoRef p = Some video -> paused video = true ->
                        currentLevel hls' = Z.of_nat found).
Proof.
  intros Hhls Htarget Hfound Hle. cbn zeta.
  split; [unfold step; destruct (videoRef p), (hlsRef p); reflexivity|].
  rewrite (handleQualityChange_found _ _ _ _ _ Hhls Htarget Hfound).
  assert (Hupgrade : isUpgrade hls targetHeight = false).
  { unfold isUpgrade. apply andb_false_iff. right. apply Z.ltb_ge. exact Hle. }
  rewrite Hupgrade. split; [reflexivity|].
  eexists. split; [reflexivity|]. unfold scheduled.
  destruct (videoRef p) as [v|]; cbn [from_option].
  - destruct (paused v) eqn:Hpaused; cbn; repeat split; auto;
      intros video [= <-] Hp; congruence.
  - cbn. repeat split; auto; intros video [=].
Qed.

(** The theorem at Scenario C: playing 1080p at 42.5 s, the viewer asks
    for 480p. *)
Lemma downgrade_defers_current_level_unless_paused_witness :
  let p := playingLevel wellFed 0 in
  let p' := handleQualityChange "480p" p in
  (480 <= 1080)
  /\ step browser (quality_change "480p") p = (p', [])
  /\ videoRef p' = videoRef p
  /\ (currentLevel <$> hlsRef p') = Some 0
  /\ (nextLevel <$> hlsRef p') = Some 2
  /\ (loadLevel <$> hlsRef p') = Some 2.
Proof.
  destruct (downgrade_defers_current_level_unless_paused browser "480p"
              (playingLevel wellFed 0)
              {| levels := ladder; currentLevel := 0; nextLevel := 0; loadLevel := 0;
                 autoLevelCapping := -1; source := "https://cdn.example/v/master.m3u8";
                 bufferAppended := [] |}
              480 2%nat eq_refl eq_refl eq_refl ltac:(vm_compute; discriminate))
    as (Hstep & Hvideo & hls' & Hhls' & Hnext & Hload & _ & _ & _ & Hplaying & _).
  cbn zeta. rewrite Hhls'. cbn [fmap option_fmap option_map].
  rewrite Hnext, Hload, (Hplaying wellFed eq_refl eq_refl).
  assert (Hle : 480 <= 1080) by lia.
  exact (conj Hle (conj Hstep (conj Hvideo (conj eq_refl (conj eq_refl eq_refl))))).
Defined.

(** C8 fails on the code: the selection is written before the level is
    looked up. Before the manifest is parsed the menu offers 720p; picking
    it changes no runtime level and hands nothing out, but the displayed
    selection goes from "auto" to "720p". *)
Theorem unmatched_label_changes_displayed_quality :
  let p := streaming wellFed in
  let r := step browser (quality_change "720p") p in
  (levels <$> hlsRef p) = Some []
  /\ quality p = "auto"
  /\ hlsRef r.1 = hlsRef p
  /\ r.2 = []
  /\ error r.1 = error p
  /\ quality r.1 = "720p".
Proof. vm_compute. repeat split; reflexivity. Qed.

(** C9. With no runtime bound, a quality request, ["auto"] included,
    returns at once: the whole component state is as it was, the
    displayed selection and any runtime field with it, and nothing is
    handed out. *)
Theorem quality_change_without_runtime_is_noop env newQuality p :
  hlsRef p = None ->
  handleQualityChange newQuality p = p
  /\ step env (quality_change newQuality) p = (p, []).
Proof.
  intros Hhls.
  assert (H : handleQualityChange newQuality p = p)
    by (unfold handleQualityChange; rewrite Hhls; reflexivity).
  split; [exact H|]. unfold step. rewrite H.
  destruct (videoRef p), (hlsRef p); reflexivity.
Qed.

(** The theorem on a freshly mounted player playing a progressive file. *)
Lemma quality_change_without_runtime_is_noop_witness :
  hlsRef (mounted "session-1" 0%Q wellFed) = None
  /\ handleQualityChange "auto" (mounted "session-1" 0%Q wellFed)
     = mounted "session-1" 0%Q wellFed
  /\ step browser (quality_change "auto") (mounted "session-1" 0%Q wellFed)
     = (mounted "session-1" 0%Q wellFed, []).
Proof.
  exact (conj eq_refl
           (quality_change_without_runtime_is_noop browser "auto"
              (mounted "session-1" 0%Q wellFed) eq_refl)).
Defined.

(** ** Attempts that cannot report *)

Lemma constructPayload_none env reason state :
  firstFrameAt state = None \/ navigator env = None ->
  constructPayload env reason state = None.
Proof.
  intros [H | H]; unfold constructPayload; rewrite H; cbn [falsy_number]; [reflexivity|].
  destruct (falsy_number (firstFrameAt state)); reflexivity.
Qed.

Lemma constructPayload_some env reason state :
  navigator env <> None ->
  falsy_number (firstFrameAt state) = false ->
  exists payload, constructPayload env reason state = Some payload.
Proof.
  intros Hnav Hframe. unfold constructPayload. rewrite Hframe.
  destruct (navigator env) as [nav|]; [eauto|congruence].
Qed.

Lemma constructPayload_fields env why state payload :
  constructPayload env why state = Some payload ->
  reason (benchmark_metadata payload) = why
  /\ session_id (benchmark_metadata payload) = sessionId state
  /\ buffering_events payload = bufferingEvents state
  /\ video_id payload = videoId env
  /\ delivery_source (benchmark_metadata payload) = deliverySource state.
Proof.
  unfold constructPayload. destruct (falsy_number _); [discriminate|].
  destruct (navigator env); [|discriminate].
  intros [= <-]. cbn. auto.
Qed.

(** Within a session, a run that dispatches nothing leaves the sent
    flag as it was. *)
Lemma session_run_quiet env sigs p :
  forallb keepsSession sigs = true ->
  dispatches (run env sigs p).2 = [] ->
  sent (run env sigs p).1 = sent p.
Proof.
  revert p. induction sigs as [|sig sigs IH]; intros p Hkeep Hquiet; [reflexivity|].
  cbn [forallb] in Hkeep. apply andb_true_iff in Hkeep as [Hsig Hkeep].
  cbn [run] in Hquiet |- *.
  pose proof (step_telemetry env sig p Hsig) as Hstep.
  specialize (IH (step env sig p).1 Hkeep).
  destruct (step env sig p) as [q out]. cbn [fst snd] in *.
  destruct (run env sigs q) as [q' out']. cbn [fst snd] in *.
  rewrite dispatches_app in Hquiet. apply app_eq_nil in Hquiet as [Hout Hout'].
  destruct Hstep as [(_ & Hsent & _) | (o & Hd & _)];
    [|cbn [snd] in Hd; congruence].
  rewrite IH by exact Hout'. exact Hsent.
Qed.

(** A trigger that reaches its handler on a session that has rendered a
    frame and has not reported, where a navigator exists, dispatches the
    session's payload and, unless it is the source change, raises the
    flag and leaves the rest of the session as it is. *)
Lemma trigger_dispatches env sig q nav :
  fires sig q = true ->
  sent q = false ->
  falsy_number (firstFrame q) = false ->
  navigator env = Some nav ->
  exists payload,
    constructPayload env (reasonOf sig) (playbackMetricsRef q) = Some payload
    /\ (step env sig q).2
       = [if prefersBeacon sig && hasSendBeacon nav
          then SendBeacon payload else RecordPlaybackMetric payload]
    /\ (keepsSession sig = true ->
        playbackMetricsRef (step env sig q).1 = set_metricsSent true (playbackMetricsRef q)).
Proof.
  unfold sent, firstFrame. intros Hfires Hsent Hframe Hnav.
  assert (Hnav' : navigator env <> None) by congruence.
  assert (Hsend : forall why beacon q',
             playbackMetricsRef q' = playbackMetricsRef q ->
             exists payload,
               constructPayload env why (playbackMetricsRef q) = Some payload
               /\ sending env why beacon q'
                  = (set_metrics (set_metricsSent true (playbackMetricsRef q)) q',
                     [if beacon && hasSendBeacon nav
                      then SendBeacon payload else RecordPlaybackMetric payload])).
  { intros why beacon q' Hq'.
    destruct (constructPayload_some env why _ Hnav' Hframe) as [payload Hpayload].
    exists payload. split; [exact Hpayload|].
    unfold sending, sendPlaybackMetrics. rewrite Hq', Hsent, Hpayload, Hnav.
    cbn [from_option]. destruct (beacon && hasSendBeacon nav); reflexivity. }
  destruct sig; try discriminate Hfires; unfold step; cbn [fires] in Hfires.
  - destruct (videoRef q) as [elem|]; [|discriminate Hfires]. destruct (hlsRef q);
      unfold handleEnded;
      destruct (Hsend "ended" false (setIsPlaying false q) eq_refl) as (payload & Hp & ->);
      exists payload; cbn; auto.
  - destruct (videoRef q) as [elem|]; [|discriminate Hfires]. destruct (hlsRef q);
      unfold handleError;
      destruct (Hsend "error" false (setError "Playback error" q) eq_refl)
        as (payload & Hp & ->);
      exists payload; cbn; auto.
  - assert (Hstep : (let '(_, _) := (videoRef q, hlsRef q) in sourceChangeEffect env id t q)
                    = sourceChangeEffect env id t q)
      by (destruct (videoRef q), (hlsRef q); reflexivity).
    destruct (Hsend "source_change" false q eq_refl) as (payload & Hp & Hs).
    exists payload. split; [exact Hp|].
    assert (Heffect : (sourceChangeEffect env id t q).2 = [RecordPlaybackMetric payload]).
    { unfold sourceChangeEffect. rewrite Hframe, Hsent, Hs. reflexivity. }
    split; [|discriminate].
    destruct (videoRef q), (hlsRef q); exact Heffect.
  - destruct (Hsend "beforeunload" true q eq_refl) as (payload & Hp & Hs).
    exists payload. split; [exact Hp|].
    assert (Hhandler : handleBeforeUnload env q
                       = (set_metrics (set_metricsSent true (playbackMetricsRef q)) q,
                          [if true && hasSendBeacon nav
                           then SendBeacon payload else RecordPlaybackMetric payload])).
    { unfold handleBeforeUnload. rewrite Hsent, Hframe. exact Hs. }
    destruct (videoRef q), (hlsRef q); rewrite Hhandler; cbn; auto.
  - destruct (Hsend "unmount" true q eq_refl) as (payload & Hp & Hs).
    exists payload. split; [exact Hp|].
    assert (Hhandler : unmountCleanup env q
                       = (set_metrics (set_metricsSent true (playbackMetricsRef q)) q,
                          [if true && hasSendBeacon nav
                           then SendBeacon payload else RecordPlaybackMetric payload])).
    { unfold unmountCleanup. rewrite Hsent, Hframe. exact Hs. }
    destruct (videoRef q), (hlsRef q); rewrite Hhandler; cbn; auto.
Qed.

(** C10. A trigger that fires while the payload cannot be constructed
    (no first frame yet, or no navigator) leaves the session as it was,
    [metricsSent] included, and hands nothing out, as does
    [sendPlaybackMetrics] itself. So when the session has not reported
    and goes on without a dispatch until a frame has been recorded and a
    navigator is there, any trigger that then reaches its handler
    constructs the payload of that same session, dispatches exactly it,
    and, unless it is the source change that replaces the session, leaves
    [metricsSent] true. *)
Theorem failed_attempt_leaves_session_reportable env sig p :
  isTrigger sig = true ->
  firstFrame p = None \/ navigator env = None ->
  let r := step env sig p in
  playbackMetricsRef r.1 = playbackMetricsRef p
  /\ r.2 = []
  /\ metricsSent (playbackMetricsRef r.1) = metricsSent (playbackMetricsRef p)
  /\ (forall reason preferBeacon,
         sendPlaybackMetrics env reason preferBeacon (playbackMetricsRef p)
         = (playbackMetricsRef p, []))
  /\ (forall env' sigs sig' nav,
         metricsSent (playbackMetricsRef p) = false ->
         forallb keepsSession sigs = true ->
         dispatches (run env' sigs r.1).2 = [] ->
         let q := (run env' sigs r.1).1 in
         falsy_number (firstFrameAt (playbackMetricsRef q)) = false ->
         navigator env' = Some nav ->
         fires sig' q = true ->
         exists payload,
           constructPayload env' (reasonOf sig') (playbackMetricsRef q) = Some payload
           /\ session_id (benchmark_metadata payload) = sessionId (playbackMetricsRef p)
           /\ (step env' sig' q).2
              = [if prefersBeacon sig' && hasSendBeacon nav
                 then SendBeacon payload else RecordPlaybackMetric payload]
           /\ (keepsSession sig' = true ->
               metricsSent (playbackMetricsRef (step env' sig' q).1) = true)).
Proof.
  intros Htrigger Hcannot. cbn zeta.
  assert (Hnone : forall why, constructPayload env why (playbackMetricsRef p) = None)
    by (intros why; apply constructPayload_none, Hcannot).
  assert (Hsend : forall why beacon,
             sendPlaybackMetrics env why beacon (playbackMetricsRef p)
             = (playbackMetricsRef p, [])).
  { intros why beacon. unfold sendPlaybackMetrics. rewrite Hnone.
    destruct (metricsSent (playbackMetricsRef p)); reflexivity. }
  assert (Hstep : playbackMetricsRef (step env sig p).1 = playbackMetricsRef p
                  /\ (step env sig p).2 = []).
  { assert (Hsending : forall why beacon q,
               playbackMetricsRef q = playbackMetricsRef p ->
               playbackMetricsRef (sending env why beacon q).1 = playbackMetricsRef p
               /\ (sending env why beacon q).2 = []).
    { intros why beacon q Hq. unfold sending. rewrite Hq, Hsend. cbn. auto. }
    destruct sig; try discriminate Htrigger; unfold step;
      destruct (videoRef p), (hlsRef p); cbn [silent fst snd]; auto;
      unfold handleEnded, handleError, handleBeforeUnload, unmountCleanup;
      repeat case_match; cbn [fst snd]; auto; apply Hsending; cbn; auto. }
  destruct Hstep as [Hsession Hout].
  split; [exact Hsession|]. split; [exact Hout|]. split; [rewrite Hsession; reflexivity|].
  split; [exact Hsend|].
  intros env' sigs sig' nav Hfresh Hkeep Hquiet Hframe Hnav Hfires.
  pose proof (session_run_quiet env' sigs (step env sig p).1 Hkeep Hquiet) as Hsent.
  unfold sent in Hsent. rewrite Hsession, Hfresh in Hsent.
  pose proof (run_sessionId env' sigs (step env sig p).1 Hkeep) as Hid.
  rewrite Hsession in Hid.
  destruct (trigger_dispatches env' sig' _ nav Hfires Hsent Hframe Hnav)
    as (payload & Hpayload & Hdispatch & Hraised).
  exists payload. split; [exact Hpayload|].
  destruct (constructPayload_fields _ _ _ _ Hpayload) as (_ & Hpid & _).
  split; [rewrite Hpid; exact Hid|]. split; [exact Hdispatch|].
  intros Hkeeps. rewrite (Hraised Hkeeps). reflexivity.
Qed.

(** The theorem at a session that ends before any frame was rendered,
    renders one, and ends again. *)
Lemma failed_attempt_leaves_session_reportable_witness :
  let p := streaming starved in
  let q := (run browser [playing 20%Q] (step browser ended p).1).1 in
  (step browser ended p).2 = []
  /\ exists payload,
      constructPayload browser "ended" (playbackMetricsRef q) = Some payload
      /\ (step browser ended q).2 = [RecordPlaybackMetric payload]
      /\ metricsSent (playbackMetricsRef (step browser ended q).1) = true.
Proof.
  cbn zeta.
  destruct (failed_attempt_leaves_session_reportable browser ended (streaming starved)
              eq_refl (or_introl eq_refl)) as (_ & Hout & _ & _ & Hlater).
  split; [exact Hout|].
  destruct (Hlater browser [playing 20%Q] ended _ eq_refl eq_refl eq_refl eq_refl eq_refl
              eq_refl) as (payload & Hpayload & _ & Hdispatch & Hraised).
  exists payload. split; [exact Hpayload|]. split; [exact Hdispatch|].
  exact (Hraised eq_refl).
Defined.

(** After such an attempt the session still reports once a frame has
    been rendered: [ended] before the first frame, then [playing], then
    [ended] again, and one payload leaves. *)
Example late_frame_still_reported :
  length (dispatches (run browser [ended; playing 20%Q; ended; unmount]
                        (streaming starved)).2) = 1%nat.
Proof. vm_compute. reflexivity. Qed.

(** Without a navigator a session that did render a frame is left as it
    is, too. *)
Example no_navigator_no_report :
  let state := set_firstFrameAt (Some 20%Q) (newSession "session-1" 0%Q) in
  sendPlaybackMetrics headless "ended" false state = (state, [])
  /\ exists payload,
      sendPlaybackMetrics browser "unmount" true state
      = (set_metricsSent true state, [SendBeacon payload])
      /\ first_frame_ms payload = Some 20
      /\ reason (benchmark_metadata payload) = "unmount".
Proof. split; [reflexivity|]. eexists. vm_compute. repeat split; reflexivity. Qed.

(** * Further properties of the player's code *)

(** ** Strings *)

Lemma append_cons c a b : String c a +:+ b = String c (a +:+ b).
Proof. reflexivity. Qed.

Lemma append_nil b : EmptyString +:+ b = b.
Proof. reflexivity. Qed.

Lemma prefix_spec a b :
  String.prefix a b = true <-> exists post, b = a +:+ post.
Proof.
  revert a. induction b as [|d b IH]; intros [|c a]; cbn [String.prefix].
  - split; [eauto|reflexivity].
  - split; [discriminate|intros [post H]; discriminate].
  - split; [eauto|reflexivity].
  - setoid_rewrite append_cons.
    destruct (Ascii.ascii_dec c d) as [->|Hne].
    + rewrite IH. split; intros [post H]; exists post; congruence.
    + split; [discriminate|intros [post H]; congruence].
Qed.

(** [includes] is substring search. *)
Lemma includes_spec needle hay :
  Str.includes needle hay = true <-> exists pre post, hay = pre +:+ needle +:+ post.
Proof.
  induction hay as [|c hay IH]; cbn [Str.includes].
  - rewrite orb_false_r, prefix_spec. split.
    + intros [post H]. exists EmptyString, post. exact H.
    + intros [pre [post H]]. destruct pre; [eauto|discriminate].
  - rewrite orb_true_iff, prefix_spec, IH. split.
    + intros [[post H] | [pre [post H]]].
      * exists EmptyString, post. exact H.
      * exists (String c pre), post. rewrite append_cons. congruence.
    + intros [[|d pre] [post H]]; [left; eauto|].
      right. rewrite append_cons in H. injection H as -> ->. eauto.
Qed.

Lemma lower_idempotent c : Str.lower (Str.lower c) = Str.lower c.
Proof. destruct c as [[] [] [] [] [] [] [] []]; reflexivity. Qed.

Lemma toLowerCase_idempotent s : Str.toLowerCase (Str.toLowerCase s) = Str.toLowerCase s.
Proof.
  induction s as [|c s IH]; [reflexivity|]. cbn. rewrite lower_idempotent, IH. reflexivity.
Qed.

Lemma toLowerCase_empty s : Str.toLowerCase s = EmptyString <-> s = EmptyString.
Proof. destruct s; cbn; split; congruence. Qed.

(** ** Device classification *)

(** X1. The device class depends on the user agent only up to letter
    case. *)
Theorem getDeviceType_ignores_case ua ua' :
  Str.toLowerCase ua = Str.toLowerCase ua' ->
  getDeviceType (Some ua) = getDeviceType (Some ua').
Proof.
  intros Hlower. unfold getDeviceType, truthy. cbn [default from_option id].
  rewrite Hlower.
  destruct (String.eqb_spec ua EmptyString) as [Hua|Hua];
    destruct (String.eqb_spec ua' EmptyString) as [Hua'|Hua']; try reflexivity; exfalso.
  - subst ua. symmetry in Hlower. apply (proj1 (toLowerCase_empty ua')) in Hlower.
    congruence.
  - subst ua'. apply (proj1 (toLowerCase_empty ua)) in Hlower. congruence.
Qed.

Lemma getDeviceType_ignores_case_witness :
  Str.toLowerCase "Mozilla/5.0 (iPhone; CPU)" = Str.toLowerCase "MOZILLA/5.0 (IPHONE; cpu)"
  /\ getDeviceType (Some "Mozilla/5.0 (iPhone; CPU)")
     = getDeviceType (Some "MOZILLA/5.0 (IPHONE; cpu)").
Proof.
  assert (H : Str.toLowerCase "Mozilla/5.0 (iPhone; CPU)"
              = Str.toLowerCase "MOZILLA/5.0 (IPHONE; cpu)") by reflexivity.
  exact (conj H (getDeviceType_ignores_case _ _ H)).
Defined.

(** X2. A user agent that mentions a handset keyword anywhere, in any
    case, is [mobile] even when it also mentions a television keyword;
    one that mentions a television keyword and no handset keyword is
    [tv]. *)
Theorem getDeviceType_handset_before_tv ua pre keyword post :
  Str.toLowerCase ua = pre +:+ keyword +:+ post ->
  (In keyword ["mobile"; "android"; "iphone"; "ipad"] ->
   getDeviceType (Some ua) = Some mobile)
  /\ (In keyword ["smart-tv"; "appletv"; "hbbtv"] ->
      Forall (fun handset => Str.includes handset (Str.toLowerCase ua) = false)
             ["mobile"; "android"; "iphone"; "ipad"] ->
      getDeviceType (Some ua) = Some tv).
Proof.
  intros Hua.
  assert (Hin : Str.includes keyword (Str.toLowerCase ua) = true)
    by (apply includes_spec; eauto).
  assert (Hne : keyword <> EmptyString -> String.eqb ua EmptyString = false).
  { intros Hkw. destruct (String.eqb_spec ua EmptyString) as [->|]; [|reflexivity].
    exfalso. destruct pre; [|discriminate Hua].
    destruct keyword; [congruence|discriminate Hua]. }
  unfold getDeviceType, truthy. cbn [default from_option id].
  split.
  - intros Hkw. cbn in Hkw.
    destruct Hkw as [<-|[<-|[<-|[<-|[]]]]]; rewrite Hne by discriminate;
      cbn [negb]; rewrite Hin, ?orb_true_r; reflexivity.
  - intros Hkw Hnone.
    repeat (apply Forall_cons in Hnone as [? Hnone]).
    repeat match goal with H : Str.includes _ _ = false |- _ => rewrite H; clear H end.
    cbn [orb]. cbn in Hkw.
    destruct Hkw as [<-|[<-|[<-|[]]]]; rewrite Hne by discriminate;
      cbn [negb]; rewrite Hin, ?orb_true_r; reflexivity.
Qed.

Lemma getDeviceType_handset_before_tv_witness :
  Str.toLowerCase "Mozilla/5.0 (Linux; Android 12; SMART-TV)"
  = "mozilla/5.0 (linux; " +:+ "android" +:+ " 12; smart-tv)"
  /\ getDeviceType (Some "Mozilla/5.0 (Linux; Android 12; SMART-TV)") = Some mobile.
Proof.
  assert (H : Str.toLowerCase "Mozilla/5.0 (Linux; Android 12; SMART-TV)"
              = "mozilla/5.0 (linux; " +:+ "android" +:+ " 12; smart-tv)") by reflexivity.
  destruct (getDeviceType_handset_before_tv _ _ _ _ H) as [Hmobile _].
  exact (conj H (Hmobile ltac:(cbn; auto))).
Defined.

(** ** Labels and heights *)

Lemma digit_pretty_N_char d :
  (d < 10)%N -> Str.digit 10 (pretty_N_char d) = Some (Z.of_N d).
Proof.
  intros Hd.
  assert (d = 0 \/ d = 1 \/ d = 2 \/ d = 3 \/ d = 4 \/ d = 5 \/ d = 6 \/ d = 7
          \/ d = 8 \/ d = 9)%N as H by lia.
  repeat (destruct H as [-> | H]; [reflexivity|]). subst d. reflexivity.
Qed.

(** Reading back the digits that [pretty] wrote for a positive number. *)
Lemma digits_pretty_N_go x :
  (0 < x)%N ->
  exists k, forall s acc,
    Str.digits 10 acc (pretty_N_go x s)
    = Str.digits 10 (Some (default 0 acc * 10 ^ Z.of_nat k + Z.of_N x)) s.
Proof.
  induction (N.lt_wf_0 x) as [x _ IH]. intros Hpos.
  assert (Hmod : (x `mod` 10 < 10)%N) by (apply N.mod_lt; lia).
  assert (Hx : Z.of_N x = 10 * Z.of_N (x `div` 10) + Z.of_N (x `mod` 10)).
  { rewrite <- (N2Z.inj_mul 10), <- N2Z.inj_add. f_equal. apply N.div_mod. lia. }
  destruct (N.eq_dec (x `div` 10)%N 0%N) as [Hsmall|Hbig].
  - exists 1%nat. intros s acc.
    rewrite pretty_N_go_step, Hsmall, pretty_N_go_0 by exact Hpos.
    cbn [Str.digits]. rewrite digit_pretty_N_char by exact Hmod.
    rewrite Hsmall in Hx. do 2 f_equal. cbn [Z.of_nat]. lia.
  - destruct (IH (x `div` 10)%N) as [k Hk]; [apply N.div_lt; lia | lia |].
    exists (S k). intros s acc.
    rewrite pretty_N_go_step, Hk by exact Hpos.
    cbn [Str.digits]. rewrite digit_pretty_N_char by exact Hmod.
    cbn [default from_option id]. do 2 f_equal.
    rewrite Nat2Z.inj_succ, Z.pow_succ_r by lia. rewrite Hx. ring.
Qed.

Lemma isDecimal_pretty_N_go x s :
  isDecimal s = true -> isDecimal (pretty_N_go x s) = true.
Proof.
  revert s. induction (N.lt_wf_0 x) as [x _ IH]. intros s Hs.
  destruct (N.eq_dec x 0%N) as [->|Hx]; [rewrite pretty_N_go_0; exact Hs|].
  rewrite pretty_N_go_step by lia. apply IH; [apply N.div_lt; lia|].
  cbn [isDecimal]. rewrite digit_pretty_N_char by (apply N.mod_lt; lia). exact Hs.
Qed.

Lemma pretty_N_go_nonempty x : (0 < x)%N -> pretty_N_go x EmptyString <> EmptyString.
Proof.
  intros Hpos Hempty.
  destruct (digits_pretty_N_go x Hpos) as [k Hk].
  specialize (Hk EmptyString None). rewrite Hempty in Hk. discriminate.
Qed.

(** A decimal string has no sign, no blank, no hexadecimal prefix and
    no letter "p". *)
Lemma decimal_head c s :
  isDecimal (String c s) = true ->
  Str.isWhite c = false /\ c <> "-"%char /\ c <> "+"%char /\ c <> "p"%char
  /\ isDecimal s = true.
Proof.
  cbn [isDecimal]. destruct (Str.digit 10 c) eqn:Hdigit; [|discriminate].
  intros Hs. repeat split; try exact Hs; try (intros ->; discriminate).
  destruct c as [[] [] [] [] [] [] [] []]; try reflexivity; discriminate.
Qed.

Lemma removeFirst_decimal s rest :
  isDecimal s = true ->
  Str.removeFirst "p" (s +:+ String "p" rest) = s +:+ rest.
Proof.
  induction s as [|c s IH]; intros Hs; [reflexivity|].
  destruct (decimal_head c s Hs) as (_ & _ & _ & Hp & Hs').
  rewrite !append_cons. cbn [Str.removeFirst].
  destruct (Ascii.eqb_spec c "p"); [congruence|]. rewrite IH by exact Hs'. reflexivity.
Qed.

Lemma parseInt_decimal hexPrefix s :
  isDecimal s = true -> s <> EmptyString ->
  Str.parseInt hexPrefix s = Str.digits 10 None s ≫= Some.
Proof.
  intros Hs Hne. destruct s as [|c s]; [congruence|].
  destruct (decimal_head c s Hs) as (Hwhite & Hminus & Hplus & _ & Hs').
  unfold Str.parseInt. cbn [Str.skipWhite]. rewrite Hwhite.
  assert (Hsign : match String c s with
                  | String "-" rest => (true, rest)
                  | String "+" rest => (false, rest)
                  | _ => (false, String c s)
                  end = (false, String c s)).
  { destruct c as [[] [] [] [] [] [] [] []]; try reflexivity; congruence. }
  rewrite Hsign.
  assert (Hhex : (if hexPrefix then Str.stripHex (String c s) else None) = None).
  { destruct hexPrefix; [|reflexivity]. unfold Str.stripHex.
    destruct s as [|d s]; [destruct c as [[] [] [] [] [] [] [] []]; reflexivity|].
    cbn [isDecimal] in Hs'.
    destruct c as [[] [] [] [] [] [] [] []]; try reflexivity;
      destruct d as [[] [] [] [] [] [] [] []]; try reflexivity; discriminate. }
  rewrite Hhex. destruct (Str.digits 10 None (String c s)); reflexivity.
Qed.

(** [parseInt] reads back what number formatting wrote, with or without
    a radix. *)
Lemma parseInt_pretty hexPrefix (h : Z) : Str.parseInt hexPrefix (pretty h) = Some h.
Proof.
  assert (Hpos : forall x : positive,
             Str.parseInt hexPrefix (pretty_N_go (N.pos x) EmptyString)
             = Some (Z.pos x)).
  { intros x. rewrite parseInt_decimal.
    - destruct (digits_pretty_N_go (N.pos x)) as [k Hk]; [lia|].
      rewrite Hk. reflexivity.
    - apply isDecimal_pretty_N_go. reflexivity.
    - apply pretty_N_go_nonempty. lia. }
  destruct h as [|x|x].
  - destruct hexPrefix; reflexivity.
  - exact (Hpos x).
  - change (pretty (Z.neg x)) with (String "-" (pretty_N_go (N.pos x) EmptyString)).
    specialize (Hpos x). unfold Str.parseInt in *.
    cbn [Str.skipWhite]. change (Str.isWhite "-") with false. cbn iota.
    assert (Hdec : isDecimal (pretty_N_go (N.pos x) EmptyString) = true)
      by (apply isDecimal_pretty_N_go; reflexivity).
    destruct (pretty_N_go (N.pos x) EmptyString) as [|c s] eqn:Hs.
    { exfalso. apply (pretty_N_go_nonempty (N.pos x)); [lia|exact Hs]. }
    destruct (decimal_head c s Hdec) as (Hwhite & Hminus & Hplus & _).
    cbn [Str.skipWhite] in Hpos. rewrite Hwhite in Hpos.
    assert (Hsign : match String c s with
                    | String "-" rest => (true, rest)
                    | String "+" rest => (false, rest)
                    | _ => (false, String c s)
                    end = (false, String c s)).
    { destruct c as [[] [] [] [] [] [] [] []]; try reflexivity; congruence. }
    rewrite Hsign in Hpos.
    destruct (if hexPrefix then Str.stripHex (String c s) else None) as [rest|];
      destruct (Str.digits _ None _) as [v|]; try discriminate;
      injection Hpos as ->; reflexivity.
Qed.

Lemma append_empty_r s : s +:+ EmptyString = s.
Proof. induction s as [|c s IH]; [reflexivity|]. rewrite append_cons, IH. reflexivity. Qed.

(** The label written for a height reads back as that height. *)
Lemma targetHeightOf_label (h : Z) : targetHeightOf (pretty h +:+ "p") = Some h.
Proof.
  unfold targetHeightOf.
  assert (Hstrip : Str.removeFirst "p" (pretty h +:+ "p") = pretty h).
  { destruct h as [|x|x].
    - reflexivity.
    - change (pretty (Z.pos x)) with (pretty_N_go (N.pos x) EmptyString).
      rewrite removeFirst_decimal by (apply isDecimal_pretty_N_go; reflexivity).
      apply append_empty_r.
    - change (pretty (Z.neg x)) with (String "-" (pretty_N_go (N.pos x) EmptyString)).
      rewrite append_cons. cbn [Str.removeFirst]. change (Ascii.eqb "-" "p") with false.
      cbn iota. rewrite removeFirst_decimal by (apply isDecimal_pretty_N_go; reflexivity).
      rewrite append_empty_r. reflexivity. }
  rewrite Hstrip. apply parseInt_pretty.
Qed.

Lemma insertByHeight_perm x l : insertByHeight x l ≡ₚ x :: l.
Proof.
  induction l as [|y l IH]; cbn [insertByHeight]; [reflexivity|].
  destruct (QualityLevel.height y <=? QualityLevel.height x); [reflexivity|].
  rewrite IH. apply Permutation_swap.
Qed.

Lemma qualitiesOf_perm levels :
  qualitiesOf levels
  ≡ₚ imap (fun index level =>
             {| QualityLevel.height := height level;
                QualityLevel.index := index;
                QualityLevel.label := pretty (height level) +:+ "p" |}) levels.
Proof.
  unfold qualitiesOf. generalize (imap (fun index level =>
             {| QualityLevel.height := height level;
                QualityLevel.index := index;
                QualityLevel.label := pretty (height level) +:+ "p" |}) levels).
  intros l. induction l as [|x l IH]; cbn [foldr]; [reflexivity|].
  rewrite insertByHeight_perm, IH. reflexivity.
Qed.

Lemma insertByHeight_sorted x l :
  StronglySorted (fun a b => QualityLevel.height b <= QualityLevel.height a) l ->
  StronglySorted (fun a b => QualityLevel.height b <= QualityLevel.height a)
                 (insertByHeight x l).
Proof.
  induction l as [|y l IH]; intros Hsorted; cbn [insertByHeight].
  - repeat constructor.
  - apply StronglySorted_inv in Hsorted as [Hl Hy].
    destruct (Z.leb_spec (QualityLevel.height y) (QualityLevel.height x)) as [Hle|Hlt].
    + constructor; [constructor; assumption|].
      constructor; [exact Hle|].
      eapply Forall_impl; [exact Hy|]. cbn. intros z Hz. lia.
    + constructor; [apply IH, Hl|].
      rewrite insertByHeight_perm. constructor; [lia|exact Hy].
Qed.

(** The inventory lists every level once, highest first, each entry
    with the index of its level and the label of its height. *)
Lemma qualitiesOf_entries levels :
  length (qualitiesOf levels) = length levels
  /\ StronglySorted (fun a b => QualityLevel.height b <= QualityLevel.height a)
                    (qualitiesOf levels)
  /\ (forall q, q ∈ qualitiesOf levels ->
                (height <$> levels !! QualityLevel.index q) = Some (QualityLevel.height q)
                /\ QualityLevel.label q = pretty (QualityLevel.height q) +:+ "p")
  /\ (forall i level, levels !! i = Some level ->
                      exists q, q ∈ qualitiesOf levels /\ QualityLevel.index q = i).
Proof.
  split; [rewrite qualitiesOf_perm; apply length_imap|].
  split.
  { unfold qualitiesOf. induction (imap _ levels) as [|x l IH]; cbn [foldr].
    - constructor.
    - apply insertByHeight_sorted, IH. }
  split.
  - intros q Hq. rewrite qualitiesOf_perm in Hq.
    apply elem_of_lookup_imap in Hq as (i & level & -> & Hlevel). cbn.
    rewrite Hlevel. auto.
  - intros i level Hlevel. eexists. split.
    + rewrite qualitiesOf_perm. apply elem_of_lookup_imap_2. exact Hlevel.
    + reflexivity.
Qed.

(** X3. The inventory built when the manifest is parsed lists every
    level exactly once, highest first, each entry carrying the index of
    its level in the runtime's list and the label of its height. *)
Theorem qualitiesOf_inventory levels :
  length (qualitiesOf levels) = length levels
  /\ StronglySorted (fun a b => QualityLevel.height b <= QualityLevel.height a)
                    (qualitiesOf levels)
  /\ (forall q, q ∈ qualitiesOf levels ->
                (height <$> levels !! QualityLevel.index q) = Some (QualityLevel.height q)
                /\ QualityLevel.label q = pretty (QualityLevel.height q) +:+ "p")
  /\ (forall i level, levels !! i = Some level ->
                      exists q, q ∈ qualitiesOf levels /\ QualityLevel.index q = i).
Proof. exact (qualitiesOf_entries levels). Qed.

(** X4. Every entry that the menu offers after the manifest was parsed,
    apart from "auto", resolves: its label parses to a height, the
    lookup finds the lowest index of a level of that height, and a
    request for it sets the runtime's next and load level to that
    index, whatever the element and the current level are. *)
Theorem menu_labels_resolve found hls0 p0 label p hls :
  label ∈ availableQualities (onManifestParsed found hls0 p0) ->
  label <> "auto" ->
  hlsRef p = Some hls ->
  levels hls = found ->
  exists h i,
    targetHeightOf label = Some h
    /\ findIndex h found = Some i
    /\ (height <$> found !! i) = Some h
    /\ (forall j level, found !! j = Some level -> (j < i)%nat -> height level <> h)
    /\ (nextLevel <$> hlsRef (handleQualityChange label p)) = Some (Z.of_nat i)
    /\ (loadLevel <$> hlsRef (handleQualityChange label p)) = Some (Z.of_nat i)
    /\ quality (handleQualityChange label p) = label.
Proof.
  intros Hmenu Hauto Hhls Hlevels.
  unfold onManifestParsed in Hmenu. cbn in Hmenu.
  apply elem_of_cons in Hmenu as [Hmenu|Hmenu]; [congruence|].
  apply list_elem_of_In, in_map_iff in Hmenu as (q & <- & Hq).
  apply list_elem_of_In in Hq.
  destruct (qualitiesOf_entries found) as (_ & _ & Hentries & _).
  destruct (Hentries q Hq) as [Hheight Hlabel].
  destruct (found !! QualityLevel.index q) as [level|] eqn:Hlevel; [|discriminate].
  injection Hheight as Hheight.
  assert (Hfind : is_Some (list_find (fun level => height level = QualityLevel.height q) found)).
  { eapply list_find_elem_of; [|exact Hheight]. eapply list_elem_of_lookup_2, Hlevel. }
  destruct Hfind as [[i level'] Hfind].
  pose proof Hfind as Hfound. apply list_find_Some in Hfound as (Hi & Hi' & Hlow).
  assert (Hindex : findIndex (QualityLevel.height q) found = Some i)
    by (unfold findIndex; rewrite Hfind; reflexivity).
  assert (Htarget : targetHeightOf (QualityLevel.label q) = Some (QualityLevel.height q))
    by (rewrite Hlabel; apply targetHeightOf_label).
  exists (QualityLevel.height q), i.
  split; [exact Htarget|]. split; [exact Hindex|].
  split; [rewrite Hi; cbn; congruence|].
  split; [intros j lv Hj Hlt; exact (Hlow j lv Hj Hlt)|].
  subst found.
  rewrite (handleQualityChange_found _ _ _ _ _ Hhls Htarget Hindex).
  cbn [hlsRef quality setAutoQualityLabel set_hls setQuality fmap option_fmap option_map].
  unfold upgraded, scheduled.
  destruct (isUpgrade hls _), (videoRef p) as [v|]; cbn [from_option];
    try destruct (paused v); auto.
Qed.

(** The theorem at the paused player of Scenario B and the 720p entry. *)
Lemma menu_labels_resolve_witness :
  "720p" ∈ availableQualities (playingLevel onHold 2)
  /\ (nextLevel <$> hlsRef (handleQualityChange "720p" (playingLevel onHold 2))) = Some 1.
Proof.
  assert (Hmenu : "720p" ∈ availableQualities
                    (onManifestParsed ladder (newHls "https://cdn.example/v/master.m3u8")
                       (streaming onHold))).
  { apply elem_of_cons. right. apply elem_of_cons. right. apply elem_of_cons. left.
    reflexivity. }
  destruct (menu_labels_resolve ladder (newHls "https://cdn.example/v/master.m3u8")
              (streaming onHold) "720p" (playingLevel onHold 2)
              {| levels := ladder; currentLevel := 2; nextLevel := 2; loadLevel := 2;
                 autoLevelCapping := -1; source := "https://cdn.example/v/master.m3u8";
                 bufferAppended := [] |}
              Hmenu ltac:(discriminate) eq_refl eq_refl)
    as (h & i & Htarget & Hindex & _ & _ & Hnext & _).
  assert (Hi : i = 1%nat).
  { injection Htarget as <-. injection Hindex as <-. reflexivity. }
  subst i. split; [|exact Hnext].
  apply elem_of_cons. right. apply elem_of_cons. right. apply elem_of_cons. left.
  reflexivity.
Defined.

(** ** Resource timing *)

Lemma insertByResponseEnd_perm x l : insertByResponseEnd x l ≡ₚ x :: l.
Proof.
  induction l as [|y l IH]; cbn [insertByResponseEnd]; [reflexivity|].
  destruct (Qle_bool (Timing.responseEnd y) (Timing.responseEnd x)); [reflexivity|].
  rewrite IH. apply Permutation_swap.
Qed.

Lemma sortByResponseEnd_perm l : sortByResponseEnd l ≡ₚ l.
Proof.
  unfold sortByResponseEnd. induction l as [|x l IH]; cbn [foldr]; [reflexivity|].
  rewrite insertByResponseEnd_perm, IH. reflexivity.
Qed.

Lemma insertByResponseEnd_sorted x l :
  StronglySorted (fun a b => noLaterThan b a) l ->
  StronglySorted (fun a b => noLaterThan b a) (insertByResponseEnd x l).
Proof.
  unfold noLaterThan.
  induction l as [|y l IH]; intros Hsorted; cbn [insertByResponseEnd].
  - repeat constructor.
  - apply StronglySorted_inv in Hsorted as [Hl Hy].
    destruct (Qle_bool (Timing.responseEnd y) (Timing.responseEnd x)) eqn:Hle.
    + apply Qle_bool_iff in Hle.
      constructor; [constructor; assumption|].
      constructor; [exact Hle|].
      eapply Forall_impl; [exact Hy|]. cbn. intros z Hz.
      eapply Qle_trans; eassumption.
    + assert (Hlt : (Timing.responseEnd x < Timing.responseEnd y)%Q).
      { apply Qnot_le_lt. intros H. apply Qle_bool_iff in H. congruence. }
      constructor; [apply IH, Hl|].
      rewrite insertByResponseEnd_perm. constructor; [apply Qlt_le_weak, Hlt|exact Hy].
Qed.

Lemma sortByResponseEnd_sorted l :
  StronglySorted (fun a b => noLaterThan b a) (sortByResponseEnd l).
Proof.
  unfold sortByResponseEnd. induction l as [|x l IH]; cbn [foldr].
  - constructor.
  - apply insertByResponseEnd_sorted, IH.
Qed.

(** The first entry after sorting is one of the entries and none was
    completed later. *)
Lemma sortByResponseEnd_head l found :
  head (sortByResponseEnd l) = Some found ->
  found ∈ l /\ forall entry, entry ∈ l -> noLaterThan entry found.
Proof.
  intros Hhead.
  pose proof (sortByResponseEnd_sorted l) as Hsorted.
  pose proof (sortByResponseEnd_perm l) as Hperm.
  destruct (sortByResponseEnd l) as [|first rest]; [discriminate|].
  injection Hhead as ->.
  apply StronglySorted_inv in Hsorted as [_ Hrest].
  split.
  - rewrite <- Hperm. apply elem_of_cons. auto.
  - intros entry Hentry. rewrite <- Hperm in Hentry.
    apply elem_of_cons in Hentry as [->|Hentry].
    + unfold noLaterThan. apply Qle_refl.
    + rewrite Forall_forall in Hrest. apply Hrest, Hentry.
Qed.

(** X5. [captureResourceTiming] records the sizes and the protocol of a
    matching resource-timing entry that no other matching entry was
    completed after, keeps a delivery source that is already set and
    otherwise classifies that entry; with no matching entry, no
    resource-timing interface or an empty address it changes nothing. *)
Theorem captureResourceTiming_most_recent env url state :
  let matching :=
    match resourceEntries env with
    | Some entries => if String.eqb url EmptyString then []
                      else List.filter (resourceMatches url) entries
    | None => []
    end in
  (matching = [] -> captureResourceTiming env url state = state)
  /\ (matching <> [] ->
      exists found,
        found ∈ matching
        /\ (forall entry, entry ∈ matching -> noLaterThan entry found)
        /\ transferSize (captureResourceTiming env url state)
           = Some (Timing.transferSize found)
        /\ encodedBodySize (captureResourceTiming env url state)
           = Some (Timing.encodedBodySize found)
        /\ nextHopProtocol (captureResourceTiming env url state)
           = Some (Timing.nextHopProtocol found)
        /\ deliverySource (captureResourceTiming env url state)
           = match deliverySource state with
             | Some known => Some known
             | None => classifyDeliverySource (Some found)
             end).
Proof.
  unfold captureResourceTiming. cbn zeta.
  destruct (resourceEntries env) as [entries|]; [|split; [reflexivity|congruence]].
  destruct (String.eqb url EmptyString); [split; [reflexivity|congruence]|].
  change (List.filter _ entries) with (List.filter (resourceMatches url) entries).
  set (matching := List.filter (resourceMatches url) entries).
  destruct (head (sortByResponseEnd matching)) as [found|] eqn:Hhead.
  - destruct (sortByResponseEnd_head _ _ Hhead) as [Hin Hmax].
    split.
    + intros Hnil. rewrite Hnil in Hin. inversion Hin.
    + intros _. exists found. cbn [deliverySource set_transfer].
      destruct (deliverySource state) eqn:Hknown; cbn; rewrite ?Hknown; repeat split; auto.
  - split; [reflexivity|]. intros Hne. exfalso.
    pose proof (sortByResponseEnd_perm matching) as Hperm.
    destruct (sortByResponseEnd matching); [|discriminate].
    apply Permutation_nil_l in Hperm. congruence.
Qed.

(** ** What the signals of a session leave alone *)

Lemma capture_deliverySource_kept env url state known :
  deliverySource state = Some known ->
  deliverySource (captureResourceTiming env url state) = Some known.
Proof.
  intros Hknown. unfold captureResourceTiming.
  destruct (resourceEntries env); [|exact Hknown].
  destruct (String.eqb url EmptyString); [exact Hknown|].
  destruct (head _); [|exact Hknown].
  cbn [deliverySource set_transfer]. rewrite Hknown. exact Hknown.
Qed.

Lemma onFragLoaded_deliverySource_kept bwEstimate networkDetails p known :
  deliverySource (playbackMetricsRef p) = Some known ->
  deliverySource (playbackMetricsRef (onFragLoaded bwEstimate networkDetails p))
  = Some known.
Proof.
  intros Hknown. unfold onFragLoaded. cbn [playbackMetricsRef set_metrics].
  set (state := match bwEstimate with Some _ => _ | None => _ end).
  assert (Hstate : deliverySource state = Some known).
  { subst state. destruct bwEstimate as [bw|]; [|exact Hknown].
    destruct (negb _ && _); exact Hknown. }
  rewrite Hstate. exact Hstate.
Qed.

(** X6. Within a session a delivery source, once classified, is kept by
    every handler but the runtime's manifest-loaded one, which replaces
    it when the manifest response's headers classify. *)
Theorem deliverySource_first_classification_wins env sig p known :
  keepsSession sig = true ->
  deliverySource (playbackMetricsRef p) = Some known ->
  ((forall t networkDetails, sig <> MANIFEST_LOADED t networkDetails) ->
   deliverySource (playbackMetricsRef (step env sig p).1) = Some known)
  /\ (forall t networkDetails hls,
         sig = MANIFEST_LOADED t networkDetails -> hlsRef p = Some hls ->
         deliverySource (playbackMetricsRef (step env sig p).1)
         = Some (default known (extractDeliverySource networkDetails))).
Proof.
  intros Hkeep Hknown.
  assert (Hsame : forall q, playbackMetricsRef q = playbackMetricsRef p ->
                            deliverySource (playbackMetricsRef q) = Some known)
    by (intros q ->; exact Hknown).
  assert (Hsend : forall reason preferBeacon q,
             playbackMetricsRef q = playbackMetricsRef p ->
             deliverySource (playbackMetricsRef (sending env reason preferBeacon q).1)
             = Some known).
  { intros reason preferBeacon q Hq.
    destruct (sending_session_fields env reason preferBeacon q) as [-> _].
    rewrite Hq. exact Hknown. }
  split.
  - intros Hother.
    destruct sig; try discriminate Hkeep; unfold step;
      destruct (videoRef p) as [elem|] eqn:Hvideo;
      destruct (hlsRef p) as [rt|] eqn:Hhls;
      try (apply Hsame; reflexivity);
      try (apply Hsame; apply handleQualityChange_metrics);
      try (unfold handleEnded, handleError; apply Hsend; reflexivity);
      try (exfalso; eapply Hother; reflexivity).
    all: try (unfold handleBeforeUnload, unmountCleanup; repeat case_match;
              solve [apply Hsame; reflexivity | apply Hsend; reflexivity]).
    all: try (unfold attachSource; repeat case_match; apply Hsame; reflexivity).
    all: try (unfold handleLoadedMetadata, handleCanPlay; cbn;
              apply capture_deliverySource_kept; exact Hknown).
    all: try (unfold handlePlay, handlePause, handlePlaying, handleLoadStart,
                onManifestLoading, onManifestParsed, onBufferAppended; cbn; exact Hknown).
    all: try (apply onFragLoaded_deliverySource_kept; exact Hknown).
    all: unfold handleWaiting, handleStalled, onLevelSwitched;
      repeat case_match; cbn; exact Hknown.
  - intros t networkDetails hls -> Hhls. unfold step. rewrite Hhls.
    destruct (videoRef p); cbn [silent fst]; unfold onManifestLoaded; cbn;
      destruct (extractDeliverySource networkDetails) as [delivery|];
      apply capture_deliverySource_kept; cbn; auto.
Qed.

(** The theorem at a session classified by the manifest response and
    then shown a cached segment. *)
Lemma deliverySource_first_classification_wins_witness :
  let p := (run browser [MANIFEST_LOADED 9%Q (Some {["x-cache" := "MISS"]})]
              (streaming starved)).1 in
  deliverySource (playbackMetricsRef p) = Some origin
  /\ deliverySource
       (playbackMetricsRef
          (step browser (FRAG_LOADED None (Some {["x-cache" := "HIT"]})) p).1)
     = Some origin.
Proof.
  assert (Hknown : deliverySource
                     (playbackMetricsRef
                        (run browser [MANIFEST_LOADED 9%Q (Some {["x-cache" := "MISS"]})]
                           (streaming starved)).1) = Some origin)
    by (vm_compute; reflexivity).
  destruct (deliverySource_first_classification_wins browser
              (FRAG_LOADED None (Some {["x-cache" := "HIT"]})) _ origin eq_refl Hknown)
    as [Hkept _].
  exact (conj Hknown (Hkept ltac:(discriminate))).
Defined.

(** X7. Within a session the buffering counter never goes down, and it
    grows by no more than the number of [waiting] and [stalled] signals
    received: no other signal touches it. *)
Theorem bufferingEvents_bounded_by_stall_signals env sigs p :
  forallb keepsSession sigs = true ->
  (bufferingEvents (playbackMetricsRef p)
   <= bufferingEvents (playbackMetricsRef (run env sigs p).1))%N
  /\ (bufferingEvents (playbackMetricsRef (run env sigs p).1)
      <= bufferingEvents (playbackMetricsRef p)
         + N.of_nat (length (List.filter isStall sigs)))%N.
Proof.
  revert p. induction sigs as [|sig sigs IH]; intros p Hkeep.
  - cbn. lia.
  - cbn [forallb] in Hkeep. apply andb_true_iff in Hkeep as [Hsig Hkeep].
    pose proof (step_bufferingEvents env sig p Hsig) as Hstep. cbn zeta in Hstep.
    specialize (IH (step env sig p).1 Hkeep).
    cbn [run List.filter].
    destruct (step env sig p) as [q out]. cbn [fst] in *.
    destruct (run env sigs q) as [q' out']. cbn [fst] in *.
    destruct Hstep as [Heq | [Hstall Heq]]; rewrite Heq in IH.
    + destruct (isStall sig); cbn [length]; lia.
    + rewrite Hstall. cbn [length]. lia.
Qed.

Lemma bufferingEvents_bounded_by_stall_signals_witness :
  forallb keepsSession fullSession = true
  /\ (bufferingEvents
        (playbackMetricsRef (run browser fullSession (streaming starved)).1)
      <= bufferingEvents (playbackMetricsRef (streaming starved))
         + N.of_nat (length (List.filter isStall fullSession)))%N.
Proof.
  assert (Hkeep : forallb keepsSession fullSession = true) by reflexivity.
  destruct (bufferingEvents_bounded_by_stall_signals browser fullSession
              (streaming starved) Hkeep) as [_ Hupper].
  exact (conj Hkeep Hupper).
Defined.

(** ** Cache headers *)

(** X8. Only the first non-empty header of the five, in the order
    cf-cache-status, x-cache, x-cache-status, x-served-by, age, is
    searched for keywords: two responses that agree on it and on the
    age header classify alike, whatever their later headers say. *)
Theorem extractDeliverySource_first_header_decides
    (headers headers' : gmap string string) k name value :
  cacheHeaderNames !! k = Some name ->
  headers !! name = Some value ->
  headers' !! name = Some value ->
  value <> EmptyString ->
  (forall earlier, earlier ∈ take k cacheHeaderNames ->
                   truthy (headers !! earlier) = false
                   /\ truthy (headers' !! earlier) = false) ->
  headers !! "age" = headers' !! "age" ->
  extractDeliverySource (Some headers) = extractDeliverySource (Some headers').
Proof.
  intros Hname Hvalue Hvalue' Hne Hearlier Hage.
  assert (Htruthy : truthy (Some value) = true).
  { unfold truthy. destruct (String.eqb_spec value EmptyString); [congruence|reflexivity]. }
  assert (Hchain : forall h : gmap string string,
             h !! name = Some value ->
             (forall earlier, earlier ∈ take k cacheHeaderNames ->
                              truthy (h !! earlier) = false) ->
             orElse (h !! "cf-cache-status")
               (orElse (h !! "x-cache")
                  (orElse (h !! "x-cache-status")
                     (orElse (h !! "x-served-by") (h !! "age")))) = Some value).
  { intros h Hh Hfalse. unfold orElse.
    destruct k as [|[|[|[|[|k]]]]]; cbn in Hname; try discriminate;
      injection Hname as <-;
      repeat match goal with
             | |- context [truthy (h !! ?n)] =>
                 first [ rewrite (Hfalse n) by (cbn; repeat constructor)
                       | rewrite Hh, Htruthy ]
             end;
      rewrite ?Hh; reflexivity. }
  unfold extractDeliverySource.
  rewrite (Hchain headers Hvalue (fun e He => proj1 (Hearlier e He))).
  rewrite (Hchain headers' Hvalue' (fun e He => proj2 (Hearlier e He))).
  rewrite Hage. reflexivity.
Qed.

Lemma extractDeliverySource_first_header_decides_witness :
  extractDeliverySource
    (Some ({["x-cache" := "HIT"; "x-served-by" := "cache-miss-fra"]} : gmap string string))
  = extractDeliverySource (Some ({["x-cache" := "HIT"]} : gmap string string)).
Proof.
  apply (extractDeliverySource_first_header_decides _ _ 1 "x-cache" "HIT");
    try reflexivity; try discriminate.
  intros earlier Hearlier. cbn in Hearlier.
  apply elem_of_cons in Hearlier as [->|Hearlier]; [split; reflexivity|].
  inversion Hearlier.
Defined.

Lemma decimal_char c d :
  Str.digit 10 c = Some d -> Str.lower c = c /\ Str.isWhite c = false.
Proof.
  destruct c as [[] [] [] [] [] [] [] []]; try discriminate; intros _; split; reflexivity.
Qed.

Lemma toLowerCase_decimal s : isDecimal s = true -> Str.toLowerCase s = s.
Proof.
  induction s as [|c s IH]; [reflexivity|]. cbn [isDecimal Str.toLowerCase].
  destruct (Str.digit 10 c) as [d|] eqn:Hd; [|discriminate].
  intros Hs. destruct (decimal_char c d Hd) as [-> _]. rewrite IH by exact Hs. reflexivity.
Qed.

(** A word that starts with a letter does not occur among digits. *)
Lemma includes_decimal c word s :
  Str.digit 10 c = None -> isDecimal s = true -> Str.includes (String c word) s = false.
Proof.
  intros Hc. induction s as [|d s IH]; intros Hs; [reflexivity|].
  cbn [isDecimal] in Hs. destruct (Str.digit 10 d) eqn:Hd; [|discriminate].
  cbn [Str.includes String.prefix].
  destruct (Ascii.ascii_dec c d) as [->|_]; [congruence|].
  rewrite IH by exact Hs. reflexivity.
Qed.

Lemma pretty_nonneg_decimal (n : Z) :
  0 <= n -> isDecimal (pretty n) = true /\ pretty n <> EmptyString.
Proof.
  destruct n as [|x|x]; intros Hn; [split; [reflexivity|discriminate]| |lia].
  change (pretty (Z.pos x)) with (pretty_N_go (N.pos x) EmptyString). split.
  - apply isDecimal_pretty_N_go. reflexivity.
  - apply pretty_N_go_nonempty. lia.
Qed.

(** X9. A response whose only cache header is a decimal age is served
    by an edge cache exactly when the age is positive; an age of zero
    classifies nothing. *)
Theorem extractDeliverySource_age_only (headers : gmap string string) (age : Z) :
  0 <= age ->
  headers !! "age" = Some (pretty age) ->
  (forall name, name ∈ take 4 cacheHeaderNames -> truthy (headers !! name) = false) ->
  extractDeliverySource (Some headers) = if 0 <? age then Some edge_cache else None.
Proof.
  intros Hage Hheader Hothers.
  destruct (pretty_nonneg_decimal age Hage) as [Hdecimal Hne].
  assert (Htruthy : truthy (Some (pretty age)) = true).
  { unfold truthy. destruct (String.eqb_spec (pretty age) EmptyString); [congruence|reflexivity]. }
  unfold extractDeliverySource, orElse.
  rewrite !Hothers by (cbn; repeat constructor).
  rewrite Hheader, Htruthy. cbn [negb default from_option id].
  rewrite toLowerCase_decimal by exact Hdecimal.
  rewrite !includes_decimal by (reflexivity || exact Hdecimal).
  rewrite parseInt_pretty. reflexivity.
Qed.

Lemma extractDeliverySource_age_only_witness :
  extractDeliverySource (Some ({["age" := "3600"]} : gmap string string)) = Some edge_cache
  /\ extractDeliverySource (Some ({["age" := "0"]} : gmap string string)) = None.
Proof.
  assert (Hothers : forall age : string, forall name, name ∈ take 4 cacheHeaderNames ->
                      truthy (({["age" := age]} : gmap string string) !! name) = false).
  { intros age name Hname. cbn in Hname.
    repeat (apply elem_of_cons in Hname as [->|Hname]; [reflexivity|]).
    inversion Hname. }
  split.
  - exact (extractDeliverySource_age_only {["age" := "3600"]} 3600 ltac:(lia) eq_refl
             (Hothers "3600")).
  - exact (extractDeliverySource_age_only {["age" := "0"]} 0 ltac:(lia) eq_refl
             (Hothers "0")).
Defined.

(** ** Payloads *)

(** What a handler that ends in [sendPlaybackMetrics] hands out. *)
Lemma sending_outputs env why preferBeacon q :
  (sending env why preferBeacon q).2 = []
  \/ exists payload,
      constructPayload env why (playbackMetricsRef q) = Some payload
      /\ (sending env why preferBeacon q).2
         = [if preferBeacon && from_option hasSendBeacon false (navigator env)
            then SendBeacon payload else RecordPlaybackMetric payload].
Proof.
  unfold sending, sendPlaybackMetrics.
  destruct (metricsSent (playbackMetricsRef q)); [left; reflexivity|].
  destruct (constructPayload env why (playbackMetricsRef q)) as [payload|];
    [|left; reflexivity].
  right. exists payload. split; [reflexivity|].
  destruct (preferBeacon && _); reflexivity.
Qed.




(** X11. The source-change effect always leaves a fresh session behind
    (no timestamps, counter at zero, nothing sent), touches nothing else
    of the player, and whatever it dispatches reports the session that
    ends, through the API client. *)
Theorem sourceChangeEffect_starts_clean env id t p :
  let r := step env (source_change id t) p in
  playbackMetricsRef r.1 = newSession id t
  /\ set_metrics (playbackMetricsRef p) r.1 = p
  /\ (r.2 = []
      \/ exists payload,
          r.2 = [RecordPlaybackMetric payload]
          /\ session_id (benchmark_metadata payload) = sessionId (playbackMetricsRef p)
          /\ reason (benchmark_metadata payload) = "source_change").
Proof.
  cbn zeta.
  assert (Hstep : step env (source_change id t) p = sourceChangeEffect env id t p)
    by (unfold step; destruct (videoRef p), (hlsRef p); reflexivity).
  rewrite Hstep. unfold sourceChangeEffect.
  destruct (negb _ && negb _).
  - destruct (sending_outputs env "source_change" false p) as [Hnil | (payload & Hp & Hout)];
      unfold sending in *;
      destruct (sendPlaybackMetrics env "source_change" false (playbackMetricsRef p))
        as [state out]; cbn [fst snd] in *.
    + split; [reflexivity|]. split; [destruct p; reflexivity|]. left. exact Hnil.
    + split; [reflexivity|]. split; [destruct p; reflexivity|]. right.
      exists payload. destruct (constructPayload_fields _ _ _ _ Hp) as (Hr & Hi & _).
      auto.
  - cbn. split; [reflexivity|]. split; [destruct p; reflexivity|]. left. reflexivity.
Qed.

Lemma round_monotone x y : (x <= y)%Q -> round x <= round y.
Proof. intros H. unfold round. apply Qfloor_resp_le. lra. Qed.

Lemma round_zero : round 0 = 0.
Proof. reflexivity. Qed.

(** X12. In a payload the first-frame latency is the rounded time
    from the mount to the first frame; the startup latency is the rounded
    time from the play request to the first frame and falls back to the
    first-frame latency when no play request was recorded; with the
    mount, the play request and the first frame in that order, it lies
    between zero and the first-frame latency. The manifest latency is the
    rounded time from the manifest request to its arrival, there exactly
    when both timestamps are. Each difference is one of doubles. *)
Theorem payload_latencies env why state payload :
  constructPayload env why state = Some payload ->
  (exists frame,
      firstFrameAt state = Some frame
      /\ first_frame_ms payload
         = (fun mount => round (Double.nearest (frame - mount))) <$> mountTime state
      /\ (forall requested,
             playbackRequestedAt state = Some requested ->
             total_startup_ms payload = Some (round (Double.nearest (frame - requested)))))
  /\ (playbackRequestedAt state = None -> total_startup_ms payload = first_frame_ms payload)
  /\ (forall mount requested frame,
         mountTime state = Some mount ->
         playbackRequestedAt state = Some requested ->
         firstFrameAt state = Some frame ->
         (mount <= requested)%Q -> (requested <= frame)%Q ->
         exists first startup,
           first_frame_ms payload = Some first
           /\ total_startup_ms payload = Some startup
           /\ 0 <= startup <= first)
  /\ (forall loaded requested,
         manifestLoadedAt state = Some loaded ->
         manifestRequestedAt state = Some requested ->
         manifest_latency_ms (benchmark_metadata payload)
         = Some (round (Double.nearest (loaded - requested))))
  /\ (manifest_latency_ms (benchmark_metadata payload) = None <->
      manifestLoadedAt state = None \/ manifestRequestedAt state = None).
Proof.
  unfold constructPayload. destruct (falsy_number _) eqn:Hframe; [discriminate|].
  destruct (navigator env); [|discriminate].
  intros [= <-]. cbn -[round Qminus]. split; [|split; [|split; [|split]]].
  - destruct (firstFrameAt state) as [frame|]; [|discriminate Hframe].
    exists frame. split; [reflexivity|]. split.
    + destruct (mountTime state); reflexivity.
    + intros requested ->. reflexivity.
  - intros ->. reflexivity.
  - intros mount requested frame -> -> -> Hmr Hrf. cbn -[round Qminus].
    eexists _, _. split; [reflexivity|]. split; [reflexivity|]. split.
    + rewrite <- round_zero. apply round_monotone. apply nearest_nonneg. lra.
    + apply round_monotone. apply nearest_monotone; lra.
  - intros loaded requested -> ->. reflexivity.
  - destruct (manifestLoadedAt state), (manifestRequestedAt state); split;
      try discriminate; auto; intros [|]; discriminate.
Qed.

Lemma payload_latencies_witness :
  exists payload,
    constructPayload browser "ended"
      (playbackMetricsRef (run browser [play 15%Q; playing 20.4%Q] (streaming starved)).1)
    = Some payload
    /\ first_frame_ms payload = Some 20
    /\ total_startup_ms payload = Some 5.
Proof.
  assert (Hpayload : exists payload,
             constructPayload browser "ended"
               (playbackMetricsRef
                  (run browser [play 15%Q; playing 20.4%Q] (streaming starved)).1)
             = Some payload) by (vm_compute; eauto).
  destruct Hpayload as [payload Hpayload]. exists payload. split; [exact Hpayload|].
  destruct (payload_latencies _ _ _ _ Hpayload) as (_ & _ & Hbounds & _).
  destruct (Hbounds 0%Q 15%Q 20.4%Q eq_refl eq_refl eq_refl ltac:(lra) ltac:(lra))
    as (first & startup & Hfirst & Hstartup & _).
  rewrite Hfirst, Hstartup. revert Hpayload Hfirst Hstartup. vm_compute.
  intros [= <-]. cbn. intros [= <-] [= <-]. split; reflexivity.
Defined.

(** ** Progress and buffered range *)

(** X13. The buffered percentage is always between 0 and 100; it is 0
    when nothing is buffered or the duration is not a positive finite
    number, and 100 when the last buffered range reaches the end of the
    media. *)
Theorem updateBufferedState_within_bounds buffered mediaDuration :
  (0 <= updateBufferedState buffered mediaDuration <= 100)%Q
  /\ (buffered = [] -> updateBufferedState buffered mediaDuration = 0%Q)
  /\ (forall duration, mediaDuration = Some duration -> (duration <= 0)%Q ->
                       updateBufferedState buffered mediaDuration = 0%Q)
  /\ (mediaDuration = None -> updateBufferedState buffered mediaDuration = 0%Q)
  /\ (forall start finish duration,
         last buffered = Some (start, finish) -> mediaDuration = Some duration ->
         (0 < duration)%Q -> (duration <= finish)%Q ->
         (updateBufferedState buffered mediaDuration == 100)%Q).
Proof.
  assert (Hone : (Double.nearest 1 == 1)%Q) by (vm_compute; reflexivity).
  assert (Hhundred : (Double.nearest 100 == 100)%Q) by (vm_compute; reflexivity).
  unfold updateBufferedState.
  split; [|split; [|split; [|split]]].
  - destruct (last buffered) as [[start finish]|]; [|lra].
    destruct mediaDuration as [duration|]; [|lra].
    destruct (Qle_bool duration 0) eqn:Hle; [lra|].
    assert (Hpos : (0 < duration)%Q).
    { apply Qnot_le_lt. intros H. apply Qle_bool_iff in H. congruence. }
    assert (Hlow : (0 <= Qmin (Qmax finish 0) duration)%Q).
    { apply Q.min_glb; [apply Q.le_max_r|lra]. }
    assert (Hhigh : (Qmin (Qmax finish 0) duration <= duration)%Q) by apply Q.le_min_r.
    set (clampedEnd := Qmin (Qmax finish 0) duration) in *.
    assert (Hq : (0 <= clampedEnd / duration <= 1)%Q).
    { split.
      - apply Qle_shift_div_l; [exact Hpos|lra].
      - apply Qle_shift_div_r; [exact Hpos|lra]. }
    pose proof (nearest_bounded _ 1 Hq Hone) as Hx.
    apply nearest_bounded; [lra|exact Hhundred].
  - intros ->. reflexivity.
  - intros duration -> Hle. destruct (last buffered) as [[start finish]|]; [|reflexivity].
    apply Qle_bool_iff in Hle. rewrite Hle. reflexivity.
  - intros ->. destruct (last buffered) as [[start finish]|]; reflexivity.
  - intros start finish duration -> -> Hpos Hreach.
    destruct (Qle_bool duration 0) eqn:Hle; [apply Qle_bool_iff in Hle; lra|].
    assert (Hclamp : (Qmin (Qmax finish 0) duration == duration)%Q).
    { apply Q.min_r. eapply Qle_trans; [exact Hreach|apply Q.le_max_l]. }
    assert (Hq : (Qmin (Qmax finish 0) duration / duration == 1)%Q).
    { rewrite Hclamp. field. lra. }
    assert (Hx : (Double.nearest (Qmin (Qmax finish 0) duration / duration) == 1)%Q).
    { transitivity (Double.nearest 1); [|exact Hone].
      apply nearest_comp; [rewrite Hq; discriminate|exact Hq]. }
    transitivity (Double.nearest 100); [|exact Hhundred].
    apply nearest_comp; [rewrite Hx; discriminate|].
    rewrite Hx. reflexivity.
Qed.

Lemma updateBufferedState_within_bounds_witness :
  (updateBufferedState [(0, 12); (30, 75)]%Q (Some 60%Q) == 100)%Q.
Proof.
  destruct (updateBufferedState_within_bounds [(0, 12); (30, 75)]%Q (Some 60%Q))
    as (_ & _ & _ & _ & Hfull).
  apply (Hfull 30%Q 75%Q 60%Q eq_refl eq_refl); lra.
Defined.

(** A seek on media of a finite duration: the position assigned. *)
Lemma handleSeek_finite d value :
  (Double.nearest d == d)%Q -> (d < Double.pow2 1024)%Q -> (0 <= d)%Q ->
  (0 <= value <= 100)%Q ->
  handleSeek (num d) value = num (Double.nearest (Double.nearest (value / 100) * d))
  /\ (0 <= Double.nearest (value / 100) <= 1)%Q
  /\ (0 <= Double.nearest (Double.nearest (value / 100) * d) <= d)%Q.
Proof.
  intros Hexact Hfinite Hd [Hlow Hhigh]. unfold handleSeek.
  assert (Hone : (Double.nearest 1 == 1)%Q) by (vm_compute; reflexivity).
  assert (Hbig1 : (1 < Double.pow2 1024)%Q) by (vm_compute; reflexivity).
  assert (Hq : (0 <= value / 100 <= 1)%Q).
  { split; [apply Qle_shift_div_l; lra|apply Qle_shift_div_r; lra]. }
  destruct (round_bounded (value / 100) 1 Hq Hone Hbig1) as [-> Hx].
  cbn [Double.mul].
  assert (Hprod : (0 <= Double.nearest (value / 100) * d <= d)%Q).
  { split; [apply Qmult_le_0_compat; lra|].
    apply Qle_trans with (1 * d)%Q; [|lra].
    apply Qmult_le_compat_r; lra. }
  destruct (round_bounded _ d Hprod Hexact Hfinite) as [-> Ht].
  split; [reflexivity|]. split; assumption.
Qed.

(** X14. On media of a finite duration that is not negative, [skip]
    and a seek to a slider value between 0 and 100 assign a position
    within the media: for [skip] the sum of position and step when that
    lies within the media, the end when it lies past it and the start
    when it lies before it; for a seek the start at the value 0 and the
    end at the value 100.
    The progress percentage of a position within the media lies between
    0 and 100 and is 100 at the end; the clamp that both bars are drawn
    with keeps any finite value within 0 and 100 and leaves a value of
    that range as it is. On media without an end (a live stream, whose
    duration is infinite) every seek computes a position that is not
    finite, so that the assignment to the element raises. *)
Theorem positions_stay_within_media d currentTime seconds value :
  Double.isDouble d = true ->
  (0 <= d)%Q ->
  (exists t,
      skip (num d) currentTime seconds = num t
      /\ (0 <= t <= d)%Q
      /\ ((0 <= currentTime + seconds <= d)%Q ->
          (t == Double.nearest (currentTime + seconds))%Q)
      /\ ((d <= currentTime + seconds)%Q -> (t == d)%Q)
      /\ ((currentTime + seconds <= 0)%Q -> (t == 0)%Q))
  /\ ((0 <= value <= 100)%Q ->
      exists t, handleSeek (num d) value = num t /\ (0 <= t <= d)%Q)
  /\ (exists first final,
         handleSeek (num d) 0 = num first /\ (first == 0)%Q
         /\ handleSeek (num d) 100 = num final /\ (final == d)%Q)
  /\ ((0 <= currentTime <= d)%Q ->
      exists x, progressPercentage currentTime (num d) = num x /\ (0 <= x <= 100)%Q)
  /\ ((0 < d)%Q ->
      exists x, progressPercentage d (num d) = num x /\ (x == 100)%Q)
  /\ (forall x, exists y,
         clampPercent (num x) = num y
         /\ (0 <= y <= 100)%Q
         /\ ((0 <= x <= 100)%Q -> (y == x)%Q))
  /\ assignCurrentTime (handleSeek Infinity value) = None.
Proof.
  intros Hdouble Hd. destruct (isDouble_spec d Hdouble Hd) as [Hexact Hfinite].
  assert (Hone : (Double.nearest 1 == 1)%Q) by (vm_compute; reflexivity).
  assert (Hhundred : (Double.nearest 100 == 100)%Q) by (vm_compute; reflexivity).
  assert (Hbig1 : (1 < Double.pow2 1024)%Q) by (vm_compute; reflexivity).
  assert (Hbig100 : (100 < Double.pow2 1024)%Q) by (vm_compute; reflexivity).
  assert (Hprogress : forall position,
             (0 <= position <= d)%Q -> (0 < d)%Q ->
             progressPercentage position (num d)
             = num (Double.nearest (Double.nearest (position / d) * 100))
             /\ (0 <= Double.nearest (Double.nearest (position / d) * 100) <= 100)%Q).
  { intros position [Hlow Hhigh] Hpos. unfold progressPercentage.
    rewrite (proj2 (Qltb_true 0 d) Hpos).
    assert (Hq : (0 <= position / d <= 1)%Q).
    { split; [apply Qle_shift_div_l; lra|apply Qle_shift_div_r; lra]. }
    destruct (round_bounded (position / d) 1 Hq Hone Hbig1) as [-> Hx].
    cbn [Double.mul].
    assert (Hprod : (0 <= Double.nearest (position / d) * 100 <= 100)%Q) by lra.
    destruct (round_bounded _ 100 Hprod Hhundred Hbig100) as [-> Ht].
    split; [reflexivity|exact Ht]. }
  split; [|split; [|split; [|split; [|split; [|split]]]]].
  - unfold skip. pose proof (pow2_pos 1024) as Hhuge.
    assert (Hpast : (d <= currentTime + seconds)%Q ->
                    (d <= Double.nearest (currentTime + seconds))%Q).
    { intros H. rewrite <- Hexact at 1. apply nearest_monotone; assumption. }
    pose proof (nearest_nonpos (currentTime + seconds)) as Hbefore.
    destruct (round_cases (currentTime + seconds))
      as [[-> [Hr0 Hr1]] | [[-> Hr] | [-> Hr]]]; cbn [Double.min Double.max].
    + eexists. split; [reflexivity|]. split; [|split; [|split]].
      * split; [apply Q.le_max_l|]. apply Q.max_lub; [exact Hd|apply Q.le_min_l].
      * intros Hwithin.
        destruct (nearest_bounded _ d Hwithin Hexact) as [Hlow Hhigh].
        rewrite Q.min_r by exact Hhigh. apply Q.max_r. exact Hlow.
      * intros H. rewrite Q.min_l by (apply Hpast, H). apply Q.max_r. exact Hd.
      * intros H. rewrite Q.min_r by (specialize (Hbefore H); lra).
        apply Q.max_l. apply Hbefore, H.
    + eexists. split; [reflexivity|]. split; [|split; [|split]].
      * split; [apply Q.le_max_l|]. apply Q.max_lub; [exact Hd|apply Qle_refl].
      * intros Hwithin. destruct (nearest_bounded _ d Hwithin Hexact). exfalso. lra.
      * intros _. apply Q.max_r. exact Hd.
      * intros H. specialize (Hbefore H). exfalso. lra.
    + exists 0%Q. split; [reflexivity|]. split; [|split; [|split]].
      * split; [apply Qle_refl|exact Hd].
      * intros Hwithin. destruct (nearest_bounded _ d Hwithin Hexact). exfalso. lra.
      * intros H. specialize (Hpast H). exfalso. lra.
      * intros _. reflexivity.
  - intros Hvalue.
    destruct (handleSeek_finite d value Hexact Hfinite Hd Hvalue) as (-> & _ & Ht).
    eexists. split; [reflexivity|exact Ht].
  - destruct (handleSeek_finite d 0 Hexact Hfinite Hd ltac:(lra)) as (-> & _ & _).
    destruct (handleSeek_finite d 100 Hexact Hfinite Hd ltac:(lra)) as (-> & _ & _).
    eexists _, _. split; [reflexivity|]. split; [|split; [reflexivity|]].
    + assert (H0 : (Double.nearest (0 / 100) == 0)%Q) by (vm_compute; reflexivity).
      rewrite nearest_zero; [reflexivity|]. rewrite H0. ring.
    + assert (H1 : (Double.nearest (100 / 100) == 1)%Q) by (vm_compute; reflexivity).
      transitivity (Double.nearest d); [|exact Hexact].
      apply nearest_comp; rewrite H1; lra.
  - intros [Hlow Hhigh]. destruct (Qlt_le_dec 0 d) as [Hpos | Hzero].
    + destruct (Hprogress currentTime (conj Hlow Hhigh) Hpos) as [-> Hx].
      eexists. split; [reflexivity|exact Hx].
    + unfold progressPercentage. rewrite (proj2 (Qltb_false 0 d) Hzero).
      exists 0%Q. split; [reflexivity|lra].
  - intros Hpos. destruct (Hprogress d ltac:(lra) Hpos) as [-> _].
    eexists. split; [reflexivity|].
    assert (Hq : (d / d == 1)%Q) by (field; lra).
    assert (Hx : (Double.nearest (d / d) == 1)%Q).
    { transitivity (Double.nearest 1); [|exact Hone].
      apply nearest_comp; [rewrite Hq; discriminate|exact Hq]. }
    transitivity (Double.nearest 100); [|exact Hhundred].
    apply nearest_comp; rewrite Hx; [discriminate|reflexivity].
  - intros x. unfold clampPercent. cbn [Double.min Double.max].
    eexists. split; [reflexivity|]. split; [|intros [Hlow Hhigh]].
    + split; [apply Q.le_max_l|]. apply Q.max_lub; [lra|apply Q.le_min_r].
    + rewrite Q.min_l by exact Hhigh. apply Q.max_r. exact Hlow.
  - unfold handleSeek.
    destruct (Double.round (value / 100)) as [x| | |]; cbn [Double.mul];
      [destruct (x ?= 0)%Q| | |]; reflexivity.
Qed.

Lemma positions_stay_within_media_witness :
  (exists t, skip (num 60) 55 10 = num t /\ (0 <= t <= 60)%Q)
  /\ (exists t, handleSeek (num 60) 50 = num t /\ (0 <= t <= 60)%Q).
Proof.
  destruct (positions_stay_within_media 60 55 10 50 eq_refl ltac:(lra))
    as ((t & Hskip & Hwithin & _) & Hseek & _).
  split; [exists t; split; assumption|]. exact (Hseek ltac:(lra)).
Defined.

(** On a live stream the slider cannot seek and [skip] runs past no
    end. *)
Example seek_on_live_stream :
  handleSeek Infinity 50 = Infinity
  /\ handleSeek Infinity 0 = NaN
  /\ exists t, assignCurrentTime (skip Infinity 55 10) = Some t /\ (t == 65)%Q.
Proof.
  split; [reflexivity|]. split; [reflexivity|].
  eexists. split; [vm_compute; reflexivity|]. reflexivity.
Qed.

(** ** Time display *)

Lemma Qfloor_unique (z : Z) (x : Q) :
  (inject_Z z <= x)%Q -> (x < inject_Z (z + 1))%Q -> Qfloor x = z.
Proof.
  intros Hlow Hhigh.
  assert (H1 : z <= Qfloor x).
  { rewrite <- (Qfloor_Z z). apply Qfloor_resp_le, Hlow. }
  assert (H2 : Qfloor x < z + 1).
  { rewrite Zlt_Qlt. eapply Qle_lt_trans; [apply Qfloor_le|exact Hhigh]. }
  lia.
Qed.

Lemma seconds_field s :
  0 <= s < 60 ->
  String.length (padStart 2 "0" (pretty s)) = 2%nat
  /\ Str.parseInt false (padStart 2 "0" (pretty s)) = Some s.
Proof.
  intros Hs.
  assert (Hall : forallb (fun n =>
                   (String.length (padStart 2 "0" (pretty (Z.of_nat n))) =? 2)%nat
                   && bool_decide (Str.parseInt false (padStart 2 "0" (pretty (Z.of_nat n)))
                                   = Some (Z.of_nat n)))
                   (seq 0 60) = true) by (vm_compute; reflexivity).
  rewrite forallb_forall in Hall.
  specialize (Hall (Z.to_nat s)). rewrite Z2Nat.id in Hall by lia.
  assert (Hin : In (Z.to_nat s) (seq 0 60)) by (apply in_seq; lia).
  apply Hall, andb_true_iff in Hin as [Hlen Hparse].
  split; [apply Nat.eqb_eq, Hlen|]. apply bool_decide_eq_true in Hparse. exact Hparse.
Qed.

(** Below 2^53 a double is a whole number of spacings that are
    themselves one over a power of two, so it stays at least one spacing
    away from any integer above it. *)
Lemma double_below_integer time c :
  (0 < time)%Q -> (time < inject_Z (2 ^ 53))%Q ->
  (Double.nearest time == time)%Q ->
  (time < inject_Z c)%Q ->
  (time + Double.ulp time <= inject_Z c)%Q.
Proof.
  intros Hpos Hsmall Hexact Hbelow.
  pose proof (nearest_exact_multiple time Hpos Hexact) as Hmultiple.
  pose proof (ulp_pos time) as Hu.
  set (m := Double.nearestEven (time / Double.ulp time)) in *.
  destruct (binade_spec time Hpos) as [Hlow _].
  assert (Hbinade : Double.binade time <= 52).
  { destruct (Z.le_gt_cases (Double.binade time) 52) as [H | H]; [exact H|].
    pose proof (pow2_le 53 (Double.binade time) ltac:(lia)) as Hle.
    rewrite (pow2_Z 53) in Hle by lia. lra. }
  set (j := 52 - Z.max (Double.binade time) (-1022)).
  assert (Hj : 0 <= j) by (unfold j; lia).
  assert (Hinv : (inject_Z (2 ^ j) * Double.ulp time == 1)%Q).
  { unfold Double.ulp. rewrite <- (pow2_Z j) by exact Hj. rewrite <- pow2_plus.
    replace (j + (Z.max (Double.binade time) (-1022) - 52)) with 0 by (unfold j; lia).
    reflexivity. }
  assert (Hgap : (inject_Z c - time == inject_Z (c * 2 ^ j - m) * Double.ulp time)%Q).
  { unfold Z.sub. rewrite inject_Z_plus, inject_Z_opp, inject_Z_mult.
    transitivity (inject_Z c * (inject_Z (2 ^ j) * Double.ulp time)
                  - inject_Z m * Double.ulp time)%Q; [|ring].
    rewrite Hinv, <- Hmultiple. ring. }
  destruct (Z_lt_le_dec 0 (c * 2 ^ j - m)) as [Hone | Hnone].
  - assert (H1 : (1 <= inject_Z (c * 2 ^ j - m))%Q).
    { change 1%Q with (inject_Z 1). rewrite <- Zle_Qle. lia. }
    apply (Qmult_le_compat_r _ _ (Double.ulp time)) in H1; [|lra].
    rewrite <- Hgap in H1. lra.
  - exfalso.
    assert (H0 : (inject_Z (c * 2 ^ j - m) <= 0)%Q).
    { change 0%Q with (inject_Z 0). rewrite <- Zle_Qle. exact Hnone. }
    apply (Qmult_le_compat_r _ _ (Double.ulp time)) in H0; [|lra].
    rewrite <- Hgap in H0. lra.
Qed.

(** The quotient of a double below 2^53 by sixty, rounded to a double,
    has the whole part of the exact quotient. *)
Lemma floor_of_quotient time :
  (0 <= time)%Q -> (time < inject_Z (2 ^ 53))%Q ->
  (Double.nearest time == time)%Q ->
  Qfloor (Double.nearest (time / 60)) = Qfloor (time / 60).
Proof.
  intros Hnonneg Hsmall Hexact.
  set (k := Qfloor (time / 60)).
  assert (Hlow : (inject_Z k <= time / 60)%Q) by apply Qfloor_le.
  assert (Hhigh : (time / 60 < inject_Z (k + 1))%Q) by apply Qlt_floor.
  rewrite inject_Z_plus in Hhigh. change (inject_Z 1) with 1%Q in Hhigh.
  change (time / 60)%Q with (time * (1 # 60))%Q in Hlow, Hhigh.
  assert (Hquot : (0 <= time / 60)%Q).
  { change (time / 60)%Q with (time * (1 # 60))%Q. lra. }
  assert (Hk : 0 <= k).
  { unfold k. rewrite <- (Qfloor_Z 0). apply Qfloor_resp_le, Hquot. }
  assert (Hk' : k <= 2 ^ 53).
  { rewrite Zle_Qle. lra. }
  apply Qfloor_unique.
  - rewrite <- (nearest_Z k) by lia. apply nearest_monotone.
    + apply inject_Z_nonneg, Hk.
    + change (time / 60)%Q with (time * (1 # 60))%Q. exact Hlow.
  - rewrite inject_Z_plus. change (inject_Z 1) with 1%Q.
    destruct (Qlt_le_dec 0 time) as [Hpos | Hzero].
    2:{ rewrite nearest_zero.
        - pose proof (inject_Z_nonneg k Hk). lra.
        - change (time / 60)%Q with (time * (1 # 60))%Q.
          assert (Ht : (time == 0)%Q) by lra. rewrite Ht. reflexivity. }
    assert (Hc : (time < inject_Z (60 * (k + 1)))%Q).
    { rewrite inject_Z_mult, inject_Z_plus.
      change (inject_Z 60) with 60%Q. change (inject_Z 1) with 1%Q. lra. }
    pose proof (double_below_integer time (60 * (k + 1)) Hpos Hsmall Hexact Hc) as Hgap.
    rewrite inject_Z_mult, inject_Z_plus in Hgap.
    change (inject_Z 60) with 60%Q in Hgap. change (inject_Z 1) with 1%Q in Hgap.
    pose proof (ulp_above time Hpos) as Habove.
    change (inject_Z (2 ^ 53)) with 9007199254740992%Q in Habove.
    assert (Hqpos : (0 < time / 60)%Q).
    { change (time / 60)%Q with (time * (1 # 60))%Q. lra. }
    destruct (Qlt_le_dec (time / 60) (Double.pow2 (-1022))) as [Htiny | Hnormal].
    + apply Qle_lt_trans with (Double.nearest (Double.pow2 (-1022))).
      * apply nearest_monotone; lra.
      * apply Qlt_le_trans with 1%Q; [vm_compute; reflexivity|].
        pose proof (inject_Z_nonneg k Hk). lra.
    + destruct (nearest_error (time / 60) Hqpos) as [_ Herror].
      pose proof (ulp_relative (time / 60) Hnormal) as Hrelative.
      change (Double.pow2 (-52)) with (1 # 4503599627370496)%Q in Hrelative.
      change (time / 60)%Q with (time * (1 # 60))%Q in *.
      unfold Qdiv in Herror. change (/ 2)%Q with (1 # 2)%Q in Herror.
      lra.
Qed.

(** X15. For a time that is a double, not negative and below 2^53,
    [formatTime] writes the whole minutes, a colon and a seconds field
    of exactly two characters that reads back as a number below sixty;
    sixty times the minutes plus the seconds is the time rounded down.
    An infinite time (the duration of a live stream) is displayed as
    "Infinity:NaN", and a missing one as "NaN:NaN". *)
Theorem formatTime_minutes_and_seconds time :
  (formatTime Infinity = "Infinity:NaN" /\ formatTime NaN = "NaN:NaN")
  /\ (Double.isDouble time = true ->
      (0 <= time)%Q ->
      (time < inject_Z (2 ^ 53))%Q ->
      exists minutes seconds field,
        formatTime (num time) = pretty minutes +:+ ":" +:+ field
        /\ String.length field = 2%nat
        /\ Str.parseInt false field = Some seconds
        /\ 0 <= minutes /\ 0 <= seconds < 60
        /\ 60 * minutes + seconds = Qfloor time).
Proof.
  split; [split; reflexivity|].
  intros Hdouble Htime Hsmall.
  destruct (isDouble_spec time Hdouble Htime) as [Hexact _].
  unfold formatTime. rewrite (floor_of_quotient time Htime Hsmall Hexact).
  set (minutes := Qfloor (time / 60)).
  assert (Hlow : (inject_Z minutes <= time / 60)%Q) by apply Qfloor_le.
  assert (Hhigh : (time / 60 < inject_Z (minutes + 1))%Q) by apply Qlt_floor.
  rewrite inject_Z_plus in Hhigh.
  change (inject_Z 1) with 1%Q in Hhigh.
  assert (Hquot : (0 <= time / 60)%Q).
  { change (time / 60)%Q with (time * (1 # 60))%Q. lra. }
  change (time / 60)%Q with (time * (1 # 60))%Q in Hlow, Hhigh.
  assert (Hlow' : (inject_Z minutes * 60 <= time)%Q) by lra.
  assert (Hhigh' : (time < (inject_Z minutes + 1) * 60)%Q) by lra.
  assert (Hminutes : 0 <= minutes).
  { unfold minutes. rewrite <- (Qfloor_Z 0). apply Qfloor_resp_le, Hquot. }
  assert (Hprinted : Double.integerToString minutes = pretty minutes).
  { unfold Double.integerToString.
    assert (Hle : (Z.abs minutes <=? 2 ^ 53) = true).
    { apply Z.leb_le. rewrite Z.abs_eq by exact Hminutes. rewrite Zle_Qle. lra. }
    rewrite Hle. reflexivity. }
  rewrite Hprinted.
  assert (Htrunc : truncate (time / 60) = minutes).
  { unfold truncate, Qltb. destruct (Qle_bool 0 (time / 60)) eqn:H; [reflexivity|].
    apply Qle_bool_iff in Hquot. congruence. }
  unfold remainder. rewrite Htrunc.
  set (rest := (time - inject_Z minutes * 60)%Q).
  assert (Hrest : (0 <= rest < 60)%Q) by (unfold rest; lra).
  set (seconds := Qfloor rest).
  assert (Hs_low : (inject_Z seconds <= rest)%Q) by apply Qfloor_le.
  assert (Hs_high : (rest < inject_Z (seconds + 1))%Q) by apply Qlt_floor.
  assert (Hseconds : 0 <= seconds < 60).
  { split.
    - unfold seconds. rewrite <- (Qfloor_Z 0). apply Qfloor_resp_le.
      change (inject_Z 0) with 0%Q. lra.
    - rewrite Zlt_Qlt. change (inject_Z 60) with 60%Q. lra. }
  destruct (seconds_field seconds Hseconds) as [Hlen Hparse].
  exists minutes, seconds, (padStart 2 "0" (pretty seconds)).
  split; [reflexivity|]. split; [exact Hlen|]. split; [exact Hparse|].
  split; [exact Hminutes|]. split; [exact Hseconds|].
  symmetry. apply Qfloor_unique.
  - rewrite inject_Z_plus, inject_Z_mult. change (inject_Z 60) with 60%Q.
    unfold rest in Hs_low. lra.
  - rewrite !inject_Z_plus, inject_Z_mult. change (inject_Z 60) with 60%Q.
    rewrite inject_Z_plus in Hs_high. unfold rest in Hs_high.
    change (inject_Z 1) with 1%Q in *. lra.
Qed.

Lemma formatTime_minutes_and_seconds_witness :
  Double.isDouble 125.75 = true /\ formatTime (num 125.75) = "2:05".
Proof.
  assert (Hdouble : Double.isDouble 125.75 = true) by (vm_compute; reflexivity).
  destruct (formatTime_minutes_and_seconds 125.75%Q) as [_ Hfinite].
  destruct (Hfinite Hdouble ltac:(lra) ltac:(vm_compute; reflexivity))
    as (m & s & field & Hformat & _).
  split; [exact Hdouble|]. vm_compute. reflexivity.
Defined.

(** What the time display prints far beyond any media: the shortest
    decimal that reads back as the double. *)
Example integerToString_large :
  Double.integerToString (2 ^ 53) = "9007199254740992"
  /\ Double.integerToString (2 ^ 64) = "18446744073709552000"
  /\ Double.integerToString (2 ^ 70) = "1.1805916207174113e+21"
  /\ Double.integerToString (10 ^ 21) = "1e+21"
  /\ Double.integerToString (- 10 ^ 23) = "-1e+23".
Proof. vm_compute. repeat split; reflexivity. Qed.

(** ** Volume *)

(** X16. After the slider sets a volume the player is muted exactly
    when that volume is zero, and muting and unmuting again brings back
    the state the slider left, the element's volume included; muting
    never changes the stored volume. *)
Theorem mute_round_trip value s :
  videoVolume s <> None ->
  let set := handleVolumeChange value s in
  videoVolume set = Some (volume set)
  /\ (isMuted set = true <-> (value == 0)%Q)
  /\ volume (toggleMute set) = volume set
  /\ (isMuted set = false ->
      videoVolume (toggleMute set) = Some 0%Q
      /\ toggleMute (toggleMute set) = set).
Proof.
  intros Hvideo. unfold handleVolumeChange.
  destruct (videoVolume s) as [v|]; [|congruence]. cbn [videoVolume isMuted volume].
  split; [reflexivity|]. split; [|split].
  - rewrite Qeq_bool_iff. split; intros H.
    + assert (H' : (value == value / 100 * 100)%Q) by (field). rewrite H', H. reflexivity.
    + rewrite H. reflexivity.
  - unfold toggleMute. cbn [videoVolume isMuted volume].
    destruct (Qeq_bool (value / 100) 0); reflexivity.
  - intros Hmuted. unfold toggleMute. cbn [videoVolume isMuted volume].
    rewrite Hmuted. cbn [videoVolume isMuted volume]. auto.
Qed.

Lemma mute_round_trip_witness :
  let s := {| volume := 1; isMuted := false; videoVolume := Some 1%Q |} in
  videoVolume s <> None
  /\ toggleMute (toggleMute (handleVolumeChange 40 s)) = handleVolumeChange 40 s.
Proof.
  assert (Hvideo : videoVolume {| volume := 1; isMuted := false; videoVolume := Some 1%Q |}
                   <> None) by discriminate.
  destruct (mute_round_trip 40 _ Hvideo) as (_ & _ & _ & Hround).
  exact (conj Hvideo (proj2 (Hround eq_refl))).
Defined.

(** ** Binding a source *)

(** X17. Binding a source to an existing element never leaves the
    previous runtime bound: afterwards there is a fresh runtime for that
    source exactly when the source names a manifest and the adaptive
    runtime is supported, the element is given the source directly
    exactly when it is not a manifest or only native support exists, and
    the error is set exactly when a manifest can be played neither way.
    The selection goes back to "auto" and the telemetry session is not
    touched. *)
Theorem attachSource_binds_by_format env src p video :
  videoRef p = Some video ->
  src <> EmptyString ->
  let r := attachSource env src p in
  let manifest := Str.includes ".m3u8" src in
  hlsRef r.1 = (if manifest && hlsSupported env then Some (newHls src) else None)
  /\ r.2 = (if manifest && hlsSupported env then [LoadSource src]
            else if negb manifest || nativeHls env then [VideoSrc src]
            else [])
  /\ error r.1 = (if manifest && negb (hlsSupported env) && negb (nativeHls env)
                  then "HLS not supported in this browser" else EmptyString)
  /\ isLoading r.1 = manifest && hlsSupported env
  /\ quality r.1 = "auto"
  /\ autoQualityLabel r.1 = None
  /\ isBuffering r.1 = false
  /\ playbackMetricsRef r.1 = playbackMetricsRef p
  /\ videoRef r.1 = videoRef p.
Proof.
  intros Hvideo Hsrc. unfold attachSource. rewrite Hvideo.
  destruct (String.eqb_spec src EmptyString) as [|_]; [congruence|].
  destruct (Str.includes ".m3u8" src), (hlsSupported env), (nativeHls env); cbn;
    rewrite ?Hvideo; auto 10.
Qed.

Lemma attachSource_binds_by_format_witness :
  hlsRef (attachSource browser "https://cdn.example/v/master.m3u8"
            (mounted "session-1" 0%Q wellFed)).1
  = Some (newHls "https://cdn.example/v/master.m3u8")
  /\ (attachSource headless "https://cdn.example/v/master.m3u8"
        (mounted "session-1" 0%Q wellFed)).2 = []
  /\ (attachSource headless "https://cdn.example/v/film.mp4"
        (mounted "session-1" 0%Q wellFed)).2 = [VideoSrc "https://cdn.example/v/film.mp4"].
Proof.
  destruct (attachSource_binds_by_format browser "https://cdn.example/v/master.m3u8"
              (mounted "session-1" 0%Q wellFed) wellFed eq_refl ltac:(discriminate))
    as (Hbound & _).
  destruct (attachSource_binds_by_format headless "https://cdn.example/v/master.m3u8"
              (mounted "session-1" 0%Q wellFed) wellFed eq_refl ltac:(discriminate))
    as (_ & Hnone & _).
  destruct (attachSource_binds_by_format headless "https://cdn.example/v/film.mp4"
              (mounted "session-1" 0%Q wellFed) wellFed eq_refl ltac:(discriminate))
    as (_ & Hfile & _).
  exact (conj Hbound (conj Hnone Hfile)).
Defined.

(** ** Position restore *)

Lemma bufferAppended_outputs handlers video out :
  (foldl (fun acc handler => handleBufferAppended handler acc) (Some video, out) handlers).2
  = (out ++ flat_map (fun handler =>
                        VideoSeek (currentPlaybackTime handler)
                        :: (if resumePlayback handler then [VideoPlay] else []))
                     handlers)%list.
Proof.
  revert video out. induction handlers as [|h handlers IH]; intros video out.
  - cbn. rewrite app_nil_r. reflexivity.
  - cbn [foldl flat_map]. unfold handleBufferAppended at 2. cbn [fst snd].
    rewrite IH, <- app_assoc. reflexivity.
Qed.

(** X18. The position restores are one-shot: a buffer-appended signal
    runs every subscribed closure once, in subscription order, each
    seeking and the ones captured while playing also calling play, and
    leaves none subscribed, so the next buffer-appended signal changes
    nothing and hands nothing out. *)
Theorem bufferAppended_runs_each_restore_once env p hls video :
  hlsRef p = Some hls ->
  videoRef p = Some video ->
  let r := step env BUFFER_APPENDED p in
  r.2 = flat_map (fun handler =>
                    VideoSeek (currentPlaybackTime handler)
                    :: (if resumePlayback handler then [VideoPlay] else []))
                 (bufferAppended hls)
  /\ (bufferAppended <$> hlsRef r.1) = Some []
  /\ step env BUFFER_APPENDED r.1 = (r.1, []).
Proof.
  intros Hhls Hvideo. cbn zeta.
  assert (Hstep : step env BUFFER_APPENDED p = onBufferAppended hls p)
    by (unfold step; rewrite Hhls; destruct (videoRef p); reflexivity).
  rewrite Hstep. unfold onBufferAppended at 1 2 3 4. cbn [fst snd]. rewrite Hvideo.
  rewrite bufferAppended_outputs. cbn [app].
  destruct (bufferAppended_video (bufferAppended hls) video []) as (video' & Hfold & _).
  rewrite Hfold.
  split; [reflexivity|]. split; [reflexivity|].
  unfold step. cbn [hlsRef videoRef set_video set_hls].
  unfold onBufferAppended. cbn. reflexivity.
Qed.

Lemma bufferAppended_runs_each_restore_once_witness :
  let p := handleQualityChange "1080p" (playingLevel wellFed 2) in
  (step browser BUFFER_APPENDED p).2 = [VideoSeek 42.5%Q; VideoPlay]
  /\ step browser BUFFER_APPENDED (step browser BUFFER_APPENDED p).1
     = ((step browser BUFFER_APPENDED p).1, []).
Proof.
  destruct (bufferAppended_runs_each_restore_once browser
              (handleQualityChange "1080p" (playingLevel wellFed 2))
              {| levels := ladder; currentLevel := 0; nextLevel := 0; loadLevel := 0;
                 autoLevelCapping := -1; source := "https://cdn.example/v/master.m3u8";
                 bufferAppended := [{| currentPlaybackTime := 42.5%Q;
                                       resumePlayback := true |}] |}
              wellFed eq_refl eq_refl) as (Hout & _ & Hagain).
  exact (conj Hout Hagain).
Defined.

(** X19. An upgrade requested while the element is playing switches the
    runtime's three level properties at once and subscribes a restore
    that, at the next buffer-appended signal, seeks back to the position
    captured at the call and then calls play. *)
Theorem playing_upgrade_restores_and_resumes
    env newQuality p hls video targetHeight found moved :
  hlsRef p = Some hls ->
  videoRef p = Some video ->
  paused video = false ->
  targetHeightOf newQuality = Some targetHeight ->
  findIndex targetHeight (levels hls) = Some found ->
  0 < currentHeight hls ->
  currentHeight hls < targetHeight ->
  let p' := handleQualityChange newQuality p in
  hlsRef p'
  = Some (set_bufferAppended
            (bufferAppended hls
             ++ [{| currentPlaybackTime := currentTime video; resumePlayback := true |}])
            (set_loadLevel (Z.of_nat found)
               (set_nextLevel (Z.of_nat found) (set_currentLevel (Z.of_nat found) hls))))
  /\ exists earlier,
      (step env BUFFER_APPENDED (set_video (Some moved) p')).2
      = (earlier ++ [VideoSeek (currentTime video); VideoPlay])%list
      /\ currentTime <$> videoRef (step env BUFFER_APPENDED (set_video (Some moved) p')).1
         = Some (currentTime video).
Proof.
  intros Hhls Hvideo Hpaused Htarget Hfound Hpos Hup. cbn zeta.
  rewrite (handleQualityChange_found _ _ _ _ _ Hhls Htarget Hfound).
  assert (Hupgrade : isUpgrade hls targetHeight = true).
  { unfold isUpgrade. apply andb_true_iff. split; apply Z.ltb_lt; assumption. }
  rewrite Hupgrade, Hvideo. unfold upgraded. rewrite Hpaused. cbn [negb].
  split; [reflexivity|].
  unfold step. cbn [videoRef hlsRef set_video setAutoQualityLabel set_hls setQuality].
  unfold onBufferAppended.
  cbn [fst snd videoRef hlsRef set_video set_hls bufferAppended set_bufferAppended
       set_loadLevel set_nextLevel set_currentLevel].
  rewrite bufferAppended_outputs. rewrite foldl_app. cbn [foldl].
  destruct (bufferAppended_video (bufferAppended hls) moved []) as (v' & Hfold & _).
  destruct (foldl _ _ (bufferAppended hls)) as [v'' out]. cbn [fst] in Hfold. subst v''.
  unfold handleBufferAppended. cbn [fst snd currentPlaybackTime resumePlayback].
  rewrite flat_map_app. cbn [flat_map app]. eexists. split; [reflexivity|]. reflexivity.
Qed.

Lemma playing_upgrade_restores_and_resumes_witness :
  let p' := handleQualityChange "1080p" (playingLevel wellFed 2) in
  exists earlier,
    (step browser BUFFER_APPENDED (set_video (Some wellFed) p')).2
    = (earlier ++ [VideoSeek (currentTime wellFed); VideoPlay])%list.
Proof.
  destruct (playing_upgrade_restores_and_resumes browser "1080p" (playingLevel wellFed 2)
              {| levels := ladder; currentLevel := 2; nextLevel := 2; loadLevel := 2;
                 autoLevelCapping := -1; source := "https://cdn.example/v/master.m3u8";
                 bufferAppended := [] |}
              wellFed 1080 0%nat wellFed
              eq_refl eq_refl eq_refl eq_refl eq_refl eq_refl eq_refl)
    as (_ & earlier & Hout & _).
  exists earlier. exact Hout.
Defined.

(** ** Quality requests and the rest of the player *)

(** X20. A quality request touches the selection, the displayed
    automatic label and the runtime's three level properties and
    subscriptions only: the telemetry session, the element, the playback
    flags, the error, the menu, and the runtime's inventory, level cap
    and source stay as they are, earlier subscriptions are kept, and no
    command is handed out. *)
Theorem handleQualityChange_frame env newQuality p :
  let p' := handleQualityChange newQuality p in
  step env (quality_change newQuality) p = (p', [])
  /\ playbackMetricsRef p' = playbackMetricsRef p
  /\ videoRef p' = videoRef p
  /\ isPlaying p' = isPlaying p
  /\ isLoading p' = isLoading p
  /\ isBuffering p' = isBuffering p
  /\ error p' = error p
  /\ availableQualities p' = availableQualities p
  /\ match hlsRef p, hlsRef p' with
     | Some hls, Some hls' =>
         levels hls' = levels hls
         /\ autoLevelCapping hls' = autoLevelCapping hls
         /\ source hls' = source hls
         /\ exists added, bufferAppended hls' = (bufferAppended hls ++ added)%list
     | None, None => True
     | _, _ => False
     end.
Proof.
  cbn zeta. split; [unfold step; destruct (videoRef p), (hlsRef p); reflexivity|].
  unfold handleQualityChange.
  destruct (hlsRef p) as [hls|] eqn:Hhls; [|rewrite Hhls; auto 10].
  assert (Hkept : exists added, bufferAppended hls = (bufferAppended hls ++ added)%list)
    by (exists []; rewrite app_nil_r; reflexivity).
  destruct (String.eqb newQuality "auto"); [cbn; rewrite ?Hhls; auto 12|].
  destruct (targetHeightOf newQuality ≫= _) as [[targetHeight found]|];
    [|cbn; rewrite Hhls; auto 12].
  cbn [playbackMetricsRef videoRef isPlaying isLoading isBuffering error availableQualities
       hlsRef setAutoQualityLabel set_hls setQuality].
  repeat (split; [reflexivity|]).
  destruct (isUpgrade hls targetHeight); unfold upgraded, scheduled.
  - destruct (videoRef p); cbn; repeat (split; [reflexivity|]); eauto.
  - destruct (from_option paused false (videoRef p)); cbn;
      repeat (split; [reflexivity|]); exact Hkept.
Qed.

(** X21. Asking for "auto" hands level selection back to the runtime
    (current, next and load level all at -1, the selection "auto", no
    displayed override), and asking again changes nothing more. *)
Theorem handleQualityChange_auto_idempotent p hls :
  hlsRef p = Some hls ->
  let p' := handleQualityChange "auto" p in
  hlsRef p' = Some (set_nextLevel (-1) (set_loadLevel (-1) (set_currentLevel (-1) hls)))
  /\ quality p' = "auto"
  /\ autoQualityLabel p' = None
  /\ handleQualityChange "auto" p' = p'.
Proof.
  intros Hhls. unfold handleQualityChange. rewrite Hhls. cbn. auto.
Qed.

Lemma handleQualityChange_auto_idempotent_witness :
  let p' := handleQualityChange "auto" (handleQualityChange "480p" (playingLevel wellFed 0)) in
  quality p' = "auto" /\ handleQualityChange "auto" p' = p'.
Proof.
  destruct (handleQualityChange_auto_idempotent
              (handleQualityChange "480p" (playingLevel wellFed 0))
              {| levels := ladder; currentLevel := 0; nextLevel := 2; loadLevel := 2;
                 autoLevelCapping := -1; source := "https://cdn.example/v/master.m3u8";
                 bufferAppended := [] |} eq_refl) as (_ & Hquality & _ & Hagain).
  exact (conj Hquality Hagain).
Defined.

(** X22. The viewer's selection changes only through a quality request,
    the parsing of a manifest and the binding of a source: no other
    signal, a runtime-driven level switch included, alters it. *)
Theorem quality_changed_only_on_request env sig p :
  (forall newQuality, sig <> quality_change newQuality) ->
  (forall found, sig <> MANIFEST_PARSED found) ->
  (forall src, sig <> attach_source src) ->
  quality (step env sig p).1 = quality p.
Proof.
  intros Hrequest Hparsed Hattach.
  assert (Hsend : forall why preferBeacon q,
             quality q = quality p -> quality (sending env why preferBeacon q).1 = quality p).
  { intros why preferBeacon q Hq. unfold sending.
    destruct (sendPlaybackMetrics _ _ _ _). exact Hq. }
  destruct sig; unfold step;
    destruct (videoRef p) as [elem|]; destruct (hlsRef p) as [rt|];
    try reflexivity;
    try (exfalso; solve [eapply Hrequest; reflexivity | eapply Hparsed; reflexivity
                        | eapply Hattach; reflexivity]);
    try (unfold handleEnded, handleError; apply Hsend; reflexivity).
  all: try (unfold handleBeforeUnload; repeat case_match; try reflexivity;
            apply Hsend; reflexivity).
  all: try (unfold unmountCleanup; repeat case_match; try reflexivity;
            apply Hsend; reflexivity).
  all: try (unfold sourceChangeEffect;
            destruct (negb _ && negb _); [|reflexivity];
            pose proof (Hsend "source_change" false p eq_refl) as Hq;
            destruct (sending env "source_change" false p) as [q out];
            exact Hq).
  all: unfold handleWaiting, handleStalled, onLevelSwitched; repeat case_match; reflexivity.
Qed.

Lemma quality_changed_only_on_request_witness :
  quality (step browser (LEVEL_SWITCHED 0)
             (handleQualityChange "480p" (playingLevel wellFed 0))).1 = "480p".
Proof.
  exact (quality_changed_only_on_request browser (LEVEL_SWITCHED 0)
           (handleQualityChange "480p" (playingLevel wellFed 0))
           ltac:(discriminate) ltac:(discriminate) ltac:(discriminate)).
Defined.

(** ** Response headers *)

Lemma foldl_invariant {A B} (P : A -> Prop) (f : A -> B -> A) l acc :
  P acc -> (forall a b, P a -> P (f a b)) -> P (foldl f acc l).
Proof.
  intros Hacc Hstep. revert acc Hacc.
  induction l as [|x l IH]; intros acc Hacc; [exact Hacc|].
  cbn [foldl]. apply IH, Hstep, Hacc.
Qed.

Lemma lowerNames_insert (m : gmap string string) name value :
  (forall k v, m !! k = Some v -> Str.toLowerCase k = k) ->
  forall k v, <[Str.toLowerCase name := value]> m !! k = Some v -> Str.toLowerCase k = k.
Proof.
  intros Hm k v Hk. destruct (decide (Str.toLowerCase name = k)) as [<-|Hne].
  - apply toLowerCase_idempotent.
  - rewrite lookup_insert_ne in Hk by exact Hne. eapply Hm, Hk.
Qed.

Lemma lowerNames_setProperty (m : gmap string string) name value :
  (forall k v, m !! k = Some v -> Str.toLowerCase k = k) ->
  forall k v, setProperty (Str.toLowerCase name) value m !! k = Some v ->
              Str.toLowerCase k = k.
Proof.
  intros Hm. unfold setProperty. destruct (String.eqb _ "__proto__"); [exact Hm|].
  apply lowerNames_insert, Hm.
Qed.

(** An assignment never makes [__proto__] an own property. *)
Lemma setProperty_proto key value (m : gmap string string) :
  m !! "__proto__" = None -> setProperty key value m !! "__proto__" = None.
Proof.
  intros Hm. unfold setProperty.
  destruct (String.eqb_spec key "__proto__") as [_|Hne]; [exact Hm|].
  rewrite lookup_insert_ne by exact Hne. exact Hm.
Qed.

Lemma addHeaderLine_proto (m : gmap string string) line :
  m !! "__proto__" = None -> addHeaderLine m line !! "__proto__" = None.
Proof.
  intros Hm. unfold addHeaderLine.
  destruct (splitOn ":" line) as [|first [|second others]]; try exact Hm.
  destruct (String.eqb _ EmptyString); [exact Hm|]. apply setProperty_proto, Hm.
Qed.

(** X23. Whatever shape the network details have, the header names
    that [extractHeaders] returns are lower-case. *)
Theorem extractHeaders_names_lower networkDetails (headers : gmap string string) name value :
  extractHeaders networkDetails = Some headers ->
  headers !! name = Some value ->
  Str.toLowerCase name = name.
Proof.
  intros Hextract. revert name value.
  assert (Hempty : forall k v, (∅ : gmap string string) !! k = Some v ->
                               Str.toLowerCase k = k)
    by (intros k v H; rewrite lookup_empty in H; discriminate).
  destruct networkDetails as [|[raw|]|entries|entries|]; try discriminate; cbn in Hextract.
  - destruct (String.eqb raw EmptyString); [discriminate|]. injection Hextract as <-.
    apply (foldl_invariant (fun m : gmap string string =>
                              forall k v, m !! k = Some v -> Str.toLowerCase k = k));
      [exact Hempty|].
    intros m line Hm. unfold addHeaderLine.
    destruct (splitOn ":" line) as [|first [|second others]]; try exact Hm.
    destruct (String.eqb _ EmptyString); [exact Hm|].
    apply lowerNames_setProperty, Hm.
  - injection Hextract as <-.
    apply (foldl_invariant (fun m : gmap string string =>
                              forall k v, m !! k = Some v -> Str.toLowerCase k = k));
      [exact Hempty|].
    intros m entry Hm. apply lowerNames_setProperty, Hm.
  - injection Hextract as <-.
    apply (foldl_invariant (fun m : gmap string string =>
                              forall k v, m !! k = Some v -> Str.toLowerCase k = k));
      [exact Hempty|].
    intros m entry Hm. destruct (entry.2); [apply lowerNames_setProperty, Hm|exact Hm].
Qed.

Lemma extractHeaders_names_lower_witness :
  exists headers,
    extractHeaders (fetchDetails [("X-Cache", "HIT"); ("Age", "12")]) = Some headers
    /\ headers !! "x-cache" = Some "HIT"
    /\ Str.toLowerCase "x-cache" = "x-cache".
Proof.
  eexists. split; [reflexivity|].
  assert (Hlookup : foldl (fun (headersObj : gmap string string) (entry : string * string) =>
                             setProperty (Str.toLowerCase entry.1) entry.2 headersObj)
                          ∅ [("X-Cache", "HIT"); ("Age", "12")] !! "x-cache" = Some "HIT")
    by reflexivity.
  split; [exact Hlookup|].
  exact (extractHeaders_names_lower
           (fetchDetails [("X-Cache", "HIT"); ("Age", "12")]) _ "x-cache" "HIT"
           eq_refl Hlookup).
Defined.

(** X24. For a response whose headers are iterated, a header is found
    under its name in any case, and of several entries whose names agree
    up to case the last one wins; the one name that is never stored is
    [__proto__], which the plain object that collects the headers does
    not take as a key. *)
Theorem extractHeaders_fetch_lookup entries name :
  exists headers,
    extractHeaders (fetchDetails entries) = Some headers
    /\ headers !! "__proto__" = None
    /\ (Str.toLowerCase name <> "__proto__" ->
        headers !! Str.toLowerCase name
        = snd <$> last (List.filter
                          (fun entry => String.eqb (Str.toLowerCase entry.1)
                                                   (Str.toLowerCase name))
                          entries)).
Proof.
  eexists. split; [reflexivity|]. split.
  - apply (foldl_invariant (fun m : gmap string string => m !! "__proto__" = None));
      [apply lookup_empty|].
    intros m entry Hm. apply setProperty_proto, Hm.
  - intros Hname.
    induction entries as [|entry entries IH] using rev_ind; [apply lookup_empty|].
    rewrite foldl_app, List.filter_app. cbn [foldl List.filter].
    destruct (String.eqb_spec (Str.toLowerCase entry.1) (Str.toLowerCase name)) as [Heq|Hne].
    + unfold setProperty. rewrite Heq.
      destruct (String.eqb_spec (Str.toLowerCase name) "__proto__") as [Hp|_]; [congruence|].
      rewrite lookup_insert_eq, last_snoc. reflexivity.
    + rewrite app_nil_r. unfold setProperty.
      destruct (String.eqb _ "__proto__"); [exact IH|].
      rewrite lookup_insert_ne by exact Hne. exact IH.
Qed.

Lemma extractHeaders_fetch_lookup_witness :
  exists headers,
    extractHeaders (fetchDetails [("__proto__", "hit"); ("X-Cache", "MISS");
                                  ("x-cache", "HIT")]) = Some headers
    /\ headers !! "__proto__" = None
    /\ headers !! "x-cache" = Some "HIT".
Proof.
  destruct (extractHeaders_fetch_lookup
              [("__proto__", "hit"); ("X-Cache", "MISS"); ("x-cache", "HIT")] "X-Cache")
    as (headers & Hextract & Hproto & Hlookup).
  exists headers. split; [exact Hextract|]. split; [exact Hproto|].
  exact (Hlookup ltac:(discriminate)).
Defined.

Lemma splitOn_nonempty sep s : splitOn sep s <> [].
Proof.
  destruct s as [|c s]; cbn; [discriminate|].
  destruct (Ascii.eqb c sep); [discriminate|]. destruct (splitOn sep s); discriminate.
Qed.

Lemma join_cons_char sep c first others :
  join sep (String c first :: others) = String c (join sep (first :: others)).
Proof. destruct others; reflexivity. Qed.

Lemma join_cons_part sep part next others :
  join sep (part :: next :: others) = part +:+ String sep (join sep (next :: others)).
Proof. reflexivity. Qed.

(** Splitting on a character and joining with it gives the string back. *)
Lemma join_splitOn sep s : join sep (splitOn sep s) = s.
Proof.
  induction s as [|c s IH]; [reflexivity|]. cbn [splitOn].
  destruct (Ascii.eqb_spec c sep) as [->|_].
  - pose proof (splitOn_nonempty sep s) as Hne.
    destruct (splitOn sep s) as [|first others]; [congruence|].
    rewrite join_cons_part, IH. reflexivity.
  - pose proof (splitOn_nonempty sep s) as Hne.
    destruct (splitOn sep s) as [|first others]; [congruence|].
    rewrite join_cons_char, IH. reflexivity.
Qed.

Lemma splitOn_before sep name rest :
  noneOf (fun c => Ascii.eqb c sep) name = true ->
  splitOn sep (name +:+ String sep rest) = name :: splitOn sep rest.
Proof.
  induction name as [|c name IH]; intros Hname.
  - rewrite append_nil. cbn [splitOn]. rewrite Ascii.eqb_refl. reflexivity.
  - cbn [noneOf] in Hname. apply andb_true_iff in Hname as [Hc Hname].
    rewrite append_cons. cbn [splitOn].
    destruct (Ascii.eqb c sep); [discriminate|]. rewrite IH by exact Hname. reflexivity.
Qed.

Lemma splitOn_absent sep line :
  noneOf (fun c => Ascii.eqb c sep) line = true -> splitOn sep line = [line].
Proof.
  induction line as [|c line IH]; intros Hline; [reflexivity|].
  cbn [noneOf] in Hline. apply andb_true_iff in Hline as [Hc Hline].
  cbn [splitOn]. destruct (Ascii.eqb c sep); [discriminate|].
  rewrite IH by exact Hline. reflexivity.
Qed.

(** X25. A line of a raw header block is split at its first colon only:
    the name before it, trimmed and lower-cased, is the key, and all that
    follows, further colons included, is the value, trimmed. A line
    whose name is blank or [__proto__], or that has no colon, adds
    nothing. *)
Theorem addHeaderLine_first_colon (acc : gmap string string) name rest :
  noneOf (fun c => Ascii.eqb c ":") name = true ->
  addHeaderLine acc (name +:+ String ":" rest)
  = (if String.eqb (Str.toLowerCase (trim name)) EmptyString
        || String.eqb (Str.toLowerCase (trim name)) "__proto__"
     then acc
     else <[Str.toLowerCase (trim name) := trim rest]> acc)
  /\ addHeaderLine acc name = acc.
Proof.
  intros Hname. unfold addHeaderLine. split.
  - rewrite splitOn_before by exact Hname.
    pose proof (splitOn_nonempty ":" rest) as Hne.
    pose proof (join_splitOn ":" rest) as Hjoin.
    destruct (splitOn ":" rest) as [|second others]; [congruence|].
    rewrite Hjoin. unfold setProperty.
    destruct (String.eqb _ EmptyString); reflexivity.
  - rewrite splitOn_absent by exact Hname. reflexivity.
Qed.

Lemma addHeaderLine_first_colon_witness :
  addHeaderLine ∅ ("Date" +:+ String ":" " Tue, 03 Nov 2026 08:15:00 GMT ")
  = {["date" := "Tue, 03 Nov 2026 08:15:00 GMT"]}.
Proof.
  destruct (addHeaderLine_first_colon ∅ "Date" " Tue, 03 Nov 2026 08:15:00 GMT " eq_refl)
    as [Hline _].
  rewrite Hline. reflexivity.
Defined.

Lemma splitLinesFrom_nonempty inRun s : splitLinesFrom inRun s <> [].
Proof.
  revert inRun. induction s as [|c s IH]; intros inRun; cbn; [discriminate|].
  destruct (isLineBreak c).
  - destruct inRun; [apply IH|discriminate].
  - destruct (splitLinesFrom false s); discriminate.
Qed.

Lemma splitLinesFrom_text line rest :
  noneOf isLineBreak line = true ->
  splitLinesFrom false (line +:+ rest)
  = match splitLinesFrom false rest with
    | first :: others => (line +:+ first) :: others
    | [] => [line]
    end.
Proof.
  induction line as [|c line IH]; intros Hline.
  - rewrite append_nil. pose proof (splitLinesFrom_nonempty false rest).
    destruct (splitLinesFrom false rest); [congruence|reflexivity].
  - cbn [noneOf] in Hline. apply andb_true_iff in Hline as [Hc Hline].
    rewrite append_cons. cbn [splitLinesFrom].
    destruct (isLineBreak c); [discriminate|]. rewrite IH by exact Hline.
    pose proof (splitLinesFrom_nonempty false rest).
    destruct (splitLinesFrom false rest); [congruence|reflexivity].
Qed.

Lemma splitLinesFrom_after_run line rest :
  isHeaderLine line = true ->
  splitLinesFrom true (line +:+ rest) = splitLinesFrom false (line +:+ rest).
Proof.
  unfold isHeaderLine. intros Hline. apply andb_true_iff in Hline as [Hne Hline].
  destruct line as [|c line]; [discriminate|].
  cbn [noneOf] in Hline. apply andb_true_iff in Hline as [Hc _].
  rewrite append_cons. cbn [splitLinesFrom].
  destruct (isLineBreak c); [discriminate|reflexivity].
Qed.

Lemma splitLines_headerBlock lines :
  lines <> [] -> forallb isHeaderLine lines = true ->
  splitLines (headerBlock lines) = lines.
Proof.
  unfold splitLines.
  induction lines as [|line lines IH]; intros Hne Hlines; [congruence|].
  cbn [forallb] in Hlines. apply andb_true_iff in Hlines as [Hline Hlines].
  assert (Hclean : noneOf isLineBreak line = true)
    by (unfold isHeaderLine in Hline; apply andb_true_iff in Hline as [_ H]; exact H).
  destruct lines as [|next lines].
  - cbn [headerBlock]. rewrite <- (append_empty_r line) at 1.
    rewrite splitLinesFrom_text by exact Hclean. cbn. rewrite append_empty_r. reflexivity.
  - change (headerBlock (line :: next :: lines))
      with (line +:+ String "013" (String "010" (headerBlock (next :: lines)))).
    rewrite splitLinesFrom_text by exact Hclean.
    cbn [splitLinesFrom].
    change (isLineBreak "013") with true. change (isLineBreak "010") with true.
    cbn iota.
    assert (Hnext : exists tail, headerBlock (next :: lines) = next +:+ tail).
    { destruct lines; [exists EmptyString; cbn; rewrite append_empty_r; reflexivity|].
      eexists. reflexivity. }
    destruct Hnext as [tail Hnext]. cbn [forallb] in Hlines.
    pose proof Hlines as Hlines'. apply andb_true_iff in Hlines' as [Hnextline _].
    rewrite Hnext, splitLinesFrom_after_run, <- Hnext by exact Hnextline.
    rewrite IH by (congruence || exact Hlines).
    rewrite append_empty_r. reflexivity.
Qed.

(** X26. A raw header block of header lines separated by CR LF, with no
    blank space around it, is read line by line in order, so that of two
    lines with the same name the later one wins; a line named
    [__proto__] leaves no entry. *)
Theorem extractHeaders_reads_block_by_line lines :
  lines <> [] ->
  forallb isHeaderLine lines = true ->
  trim (headerBlock lines) = headerBlock lines ->
  extractHeaders (xhrDetails (Some (headerBlock lines)))
  = Some (foldl addHeaderLine ∅ lines)
  /\ foldl addHeaderLine ∅ lines !! "__proto__" = None.
Proof.
  intros Hne Hlines Htrim. cbn [extractHeaders].
  assert (Hblock : String.eqb (headerBlock lines) EmptyString = false).
  { destruct lines as [|line lines]; [congruence|].
    cbn [forallb] in Hlines. apply andb_true_iff in Hlines as [Hline _].
    unfold isHeaderLine in Hline. apply andb_true_iff in Hline as [Hline _].
    destruct line as [|c line]; [discriminate|]. destruct lines; reflexivity. }
  rewrite Hblock, Htrim, splitLines_headerBlock by assumption.
  split; [reflexivity|].
  apply (foldl_invariant (fun m : gmap string string => m !! "__proto__" = None));
    [apply lookup_empty|].
  intros m line Hm. apply addHeaderLine_proto, Hm.
Qed.

Lemma extractHeaders_reads_block_by_line_witness :
  extractDeliverySource
    (extractHeaders (xhrDetails (Some (headerBlock ["X-Cache: MISS"; "Age: 0";
                                                    "x-cache: HIT from edge:443"]))))
  = Some edge_cache.
Proof.
  destruct (extractHeaders_reads_block_by_line
              ["X-Cache: MISS"; "Age: 0"; "x-cache: HIT from edge:443"]
              ltac:(discriminate) eq_refl eq_refl) as [-> _].
  reflexivity.
Defined.

(** A block with a line named [__proto__]: the object keeps the other
    line only. *)
Example extractHeaders_drops_proto :
  extractHeaders (xhrDetails (Some (headerBlock ["__proto__: hit"; "Age: 4"])))
  = Some {["age" := "4"]}.
Proof. reflexivity. Qed.

(** ** Bandwidth estimate and first label *)

(** X27. A fragment's bandwidth estimate is recorded only when it is
    positive, in megabits per second rounded to hundredths: the estimate
    is divided by a million as a double, within half a spacing of the
    exact quotient; the whole number of hundredths closest to that double
    is taken, within half a hundredth of it; and the recorded value is
    the double that those hundredths read back as. Of two whole numbers
    of hundredths as close, the larger is taken. *)
Theorem onFragLoaded_bandwidth bwEstimate networkDetails p :
  let state := playbackMetricsRef (onFragLoaded (Some bwEstimate) networkDetails p) in
  let quotient := Double.nearest (bwEstimate / 1000000) in
  ((0 < bwEstimate)%Q -> (bwEstimate <= inject_Z (10 ^ 26))%Q ->
   exists hundredths,
     bandwidthEstimateMbps state = Some (Double.nearest (inject_Z hundredths / 100))
     /\ 0 <= hundredths
     /\ (- (1 # 200) < inject_Z hundredths / 100 - quotient)%Q
     /\ (inject_Z hundredths / 100 - quotient <= 1 # 200)%Q
     /\ (- (Double.ulp (bwEstimate / 1000000) / 2)
         <= quotient - bwEstimate / 1000000
         <= Double.ulp (bwEstimate / 1000000) / 2)%Q)
  /\ ((bwEstimate <= 0)%Q ->
      bandwidthEstimateMbps state = bandwidthEstimateMbps (playbackMetricsRef p)).
Proof.
  cbn zeta. unfold onFragLoaded. cbn [playbackMetricsRef set_metrics].
  assert (Hkept : forall state : PlaybackMetricState,
             bandwidthEstimateMbps
               match deliverySource state with
               | Some _ => state
               | None =>
                   match extractDeliverySource networkDetails with
                   | Some delivery => set_deliverySource (Some delivery) state
                   | None => state
                   end
               end = bandwidthEstimateMbps state).
  { intros state. destruct (deliverySource state); [reflexivity|].
    destruct (extractDeliverySource networkDetails); reflexivity. }
  rewrite Hkept. split.
  - intros Hpos Hbound.
    assert (Hzero : Qeq_bool bwEstimate 0 = false).
    { destruct (Qeq_bool bwEstimate 0) eqn:H; [|reflexivity].
      apply Qeq_bool_iff in H. rewrite H in Hpos. exfalso. revert Hpos. apply Qlt_irrefl. }
    assert (Hlt : Qltb 0 bwEstimate = true) by (apply Qltb_true, Hpos).
    rewrite Hzero, Hlt. cbn [negb andb bandwidthEstimateMbps set_bandwidthEstimateMbps].
    assert (Hq : (0 < bwEstimate / 1000000 <= inject_Z (10 ^ 20))%Q).
    { change (bwEstimate / 1000000)%Q with (bwEstimate * (1 # 1000000))%Q.
      change (inject_Z (10 ^ 26)) with 100000000000000000000000000%Q in Hbound.
      change (inject_Z (10 ^ 20)) with 100000000000000000000%Q. lra. }
    assert (Hexact : (Double.nearest (inject_Z (10 ^ 20)) == inject_Z (10 ^ 20))%Q)
      by (vm_compute; reflexivity).
    destruct (nearest_bounded (bwEstimate / 1000000) (inject_Z (10 ^ 20))
                ltac:(lra) Hexact) as [Hx0 Hx1].
    destruct (nearest_error (bwEstimate / 1000000) ltac:(lra)) as [Helow Hehigh].
    set (x := Double.nearest (bwEstimate / 1000000)) in *.
    unfold toMbps, toFixed2. fold x.
    assert (Hbranch : Qle_bool (inject_Z (10 ^ 21)) x = false).
    { destruct (Qle_bool (inject_Z (10 ^ 21)) x) eqn:H; [|reflexivity].
      apply Qle_bool_iff in H.
      change (inject_Z (10 ^ 21)) with 1000000000000000000000%Q in H.
      change (inject_Z (10 ^ 20)) with 100000000000000000000%Q in Hx1. lra. }
    rewrite Hbranch. unfold round.
    pose proof (Qfloor_le (x * 100 + (1 # 2))) as Hlow.
    pose proof (Qlt_floor (x * 100 + (1 # 2))) as Hhigh.
    rewrite inject_Z_plus in Hhigh. change (inject_Z 1) with 1%Q in Hhigh.
    exists (Qfloor (x * 100 + (1 # 2))).
    split; [reflexivity|]. split; [|split; [|split]].
    + rewrite <- (Qfloor_Z 0). apply Qfloor_resp_le. change (inject_Z 0) with 0%Q. lra.
    + set (k := inject_Z (Qfloor (x * 100 + (1 # 2)))) in *.
      change (k / 100)%Q with (k * (1 # 100))%Q. lra.
    + set (k := inject_Z (Qfloor (x * 100 + (1 # 2)))) in *.
      change (k / 100)%Q with (k * (1 # 100))%Q. lra.
    + unfold Qdiv in Helow, Hehigh |- *. change (/ 2)%Q with (1 # 2)%Q in *. lra.
  - intros Hle.
    assert (Hlt : Qltb 0 bwEstimate = false) by (apply Qltb_false, Hle).
    rewrite Hlt, andb_false_r. reflexivity.
Qed.

Lemma onFragLoaded_bandwidth_witness :
  bandwidthEstimateMbps
    (playbackMetricsRef (onFragLoaded (Some 4256789%Q) None (streaming wellFed)))
  = Some (Double.nearest (426 / 100)).
Proof.
  destruct (onFragLoaded_bandwidth 4256789%Q None (streaming wellFed)) as [Hpos _].
  destruct (Hpos ltac:(reflexivity) ltac:(vm_compute; discriminate))
    as (hundredths & Hrecorded & _).
  vm_compute. reflexivity.
Defined.

(** A tie of the decimal quotient is settled by the double: 1005000
    bits per second are 1.005 Mbps on paper, the double below it in the
    source, and recorded as 1; 8345000 are the double above 8.345 and
    recorded as 8.35. *)
Example toMbps_rounds_the_double :
  (toMbps 1005000 == 1)%Q /\ (toMbps 8345000 == Double.nearest (835 # 100))%Q.
Proof. split; vm_compute; reflexivity. Qed.

(** X28. When a manifest with at least one level is parsed the player
    goes back to automatic selection and displays, until the runtime
    reports a level, the label of a tallest level: no level of the
    inventory is higher than the one displayed. *)
Theorem onManifestParsed_displays_tallest found hls p :
  found <> [] ->
  let p' := onManifestParsed found hls p in
  quality p' = "auto"
  /\ head (availableQualities p') = Some "auto"
  /\ length (availableQualities p') = S (length found)
  /\ (currentLevel <$> hlsRef p') = Some (-1)
  /\ (nextLevel <$> hlsRef p') = Some (-1)
  /\ (loadLevel <$> hlsRef p') = Some (-1)
  /\ exists tallest,
      autoQualityLabel p' = Some (pretty tallest +:+ "p")
      /\ (exists level, level ∈ found /\ height level = tallest)
      /\ forall level, level ∈ found -> height level <= tallest.
Proof.
  intros Hne. cbn zeta. unfold onManifestParsed.
  cbn [quality availableQualities hlsRef autoQualityLabel setAutoQualityLabel setQuality
       set_hls setAvailableQualities setIsLoading levels set_levels head fmap option_fmap
       option_map currentLevel nextLevel loadLevel set_autoLevelCapping set_loadLevel
       set_nextLevel set_currentLevel length].
  destruct (qualitiesOf_entries found) as (Hlen & Hsorted & Hentries & Hall).
  split; [reflexivity|]. split; [reflexivity|].
  split; [rewrite length_map, Hlen; reflexivity|].
  split; [reflexivity|]. split; [reflexivity|]. split; [reflexivity|].
  destruct (qualitiesOf found) as [|top rest] eqn:Hq.
  { destruct found; [congruence|discriminate Hlen]. }
  destruct (Hentries top ltac:(apply list_elem_of_here)) as [Hheight Hlabel].
  exists (QualityLevel.height top). cbn [head fmap option_fmap option_map].
  rewrite Hlabel. split; [reflexivity|]. split.
  - destruct (found !! QualityLevel.index top) as [level|] eqn:Hlevel; [|discriminate].
    exists level. split; [eapply list_elem_of_lookup_2, Hlevel|].
    cbn in Hheight. congruence.
  - intros level Hlevel. apply list_elem_of_lookup_1 in Hlevel as [i Hi].
    destruct (Hall i level Hi) as (q & Hq' & Hindex).
    destruct (Hentries q Hq') as [Hqheight _].
    rewrite Hindex, Hi in Hqheight. cbn in Hqheight. injection Hqheight as ->.
    apply elem_of_cons in Hq' as [->|Hq']; [lia|].
    apply StronglySorted_inv in Hsorted as [_ Hrest].
    rewrite Forall_forall in Hrest. apply Hrest, Hq'.
Qed.

Lemma onManifestParsed_displays_tallest_witness :
  autoQualityLabel
    (onManifestParsed [{| height := 480 |}; {| height := 1080 |}; {| height := 720 |}]
       (newHls "https://cdn.example/v/master.m3u8") (streaming wellFed))
  = Some "1080p".
Proof.
  destruct (onManifestParsed_displays_tallest
              [{| height := 480 |}; {| height := 1080 |}; {| height := 720 |}]
              (newHls "https://cdn.example/v/master.m3u8") (streaming wellFed)
              ltac:(discriminate)) as (_ & _ & _ & _ & _ & _ & tallest & Hlabel & _).
  reflexivity.
Defined.
